(** * reodash: the HLS transcode orchestrator and the streaming file server

    A shallow embedding of [app.py].  Every definition carries the name of
    the Python function (or local variable) it is translated from, and the
    modules follow the order of the source file:

    - [Gate]      the concurrency counter and the interleavings of the
                  request threads and supervisor threads that touch it;
    - [Playlist]  the arithmetic of the pre-generated VOD playlist;
    - [Text]      the string helpers of Python the handlers rely on;
    - [Paths]     [os.path.join], [os.path.normpath], [os.path.abspath];
    - [Range]     [get_range_requests] and the regular expression it uses;
    - [Jobs]      [start_hls_vod], [api_hls], [stop_hls_job] over an explicit
                  world (counter, registry, processes, working directories);
    - [Server]    [serve_file].

    The first part holds the program, the second part what is proved of it,
    module by module ([GateFacts], [PlaylistFacts], ...). *)

From stdpp Require Import gmap strings list pretty.
From Stdlib Require Import Ascii ZArith QArith Qround Qabs Qminmax Lia Lqa.

(** * Part I: the program *)

(** ** The concurrency gate *)

Module Gate.

Local Open Scope Z_scope.

Definition MAX_CONCURRENT_TRANSCODES : Z := 3.

(** The three operations on the global [active_transcodes]; each body runs
    under [transcode_lock], so each is one atomic step on the counter. *)

Definition can_start_transcode (active_transcodes : Z) : bool :=
  active_transcodes <? MAX_CONCURRENT_TRANSCODES.

Definition increment_transcodes (active_transcodes : Z) : Z :=
  active_transcodes + 1.

Definition decrement_transcodes (active_transcodes : Z) : Z :=
  active_transcodes - 1.

(** Where a call of [start_hls_vod] (and the supervisor thread it starts)
    stands with respect to the counter. *)
Inductive pc : Set :=
| AtCheck       (* entered start_hls_vod, can_start_transcode not yet called *)
| Refused       (* can_start_transcode was False: returned None *)
| Preparing     (* admitted: job directory, probes, playlist; not yet counted *)
| Spawning      (* increment_transcodes done, Popen not yet returned *)
| Supervised    (* job registered, finalize_cleanup waits for the encoder *)
| SpawnFailed   (* Popen raised: no supervisor thread was ever started *)
| Cleaned.      (* finalize_cleanup ran decrement_transcodes *)

#[global] Instance pc_eq_dec : EqDecision pc.
Proof. solve_decision. Defined.

Record state : Set := mkState {
  active_transcodes : Z;
  threads : list pc
}.

Definition initial : state := mkState 0 [].

(** The atomic steps the scheduler can pick; [t] is the index of the thread. *)
Inductive action : Set :=
| Arrive                 (* a new request enters start_hls_vod *)
| Check (t : nat)        (* if not can_start_transcode(): return None *)
| Increment (t : nat)    (* increment_transcodes() *)
| SpawnOk (t : nat)      (* Popen returned, registry updated, thread started *)
| SpawnRaises (t : nat)  (* Popen raised *)
| Cleanup (t : nat).     (* finally: decrement_transcodes() *)

Definition move (s : state) (t : nat) (from to : pc) (c : Z) : option state :=
  match threads s !! t with
  | Some p => if decide (p = from)
              then Some (mkState c (<[t := to]> (threads s)))
              else None
  | None => None
  end.

Definition step (a : action) (s : state) : option state :=
  match a with
  | Arrive => Some (mkState (active_transcodes s) (threads s ++ [AtCheck]))
  | Check t =>
      if can_start_transcode (active_transcodes s)
      then move s t AtCheck Preparing (active_transcodes s)
      else move s t AtCheck Refused (active_transcodes s)
  | Increment t =>
      move s t Preparing Spawning (increment_transcodes (active_transcodes s))
  | SpawnOk t => move s t Spawning Supervised (active_transcodes s)
  | SpawnRaises t => move s t Spawning SpawnFailed (active_transcodes s)
  | Cleanup t =>
      move s t Supervised Cleaned (decrement_transcodes (active_transcodes s))
  end.

Fixpoint run (schedule : list action) (s : state) : option state :=
  match schedule with
  | [] => Some s
  | a :: rest => match step a s with
                 | Some s' => run rest s'
                 | None => None
                 end
  end.

Definition reachable (s : state) : Prop :=
  exists schedule, run schedule initial = Some s.

(** [tally f l]: how many threads of [l] the indicator [f] counts. *)
Definition tally (f : pc -> Z) (l : list pc) : Z :=
  fold_right (fun p n => f p + n) 0 l.

(** A thread holds a slot from its increment until its decrement. *)
Definition holding (p : pc) : Z :=
  match p with
  | Spawning | Supervised | SpawnFailed => 1
  | _ => 0
  end.

Definition held (l : list pc) : Z := tally holding l.

(** Threads that passed the check and have not incremented yet. *)
Definition preparing (p : pc) : Z :=
  match p with Preparing => 1 | _ => 0 end.

Definition in_flight (l : list pc) : Z := tally preparing l.

(** The schedules in which calls of [start_hls_vod] do not overlap between
    their check and their increment: a check is only taken when no admitted
    request is still on its way to [increment_transcodes]. *)
Definition step_serial (a : action) (s : state) : option state :=
  match a with
  | Check _ =>
      if bool_decide (in_flight (threads s) = 0) then step a s else None
  | _ => step a s
  end.

Fixpoint run_serial (schedule : list action) (s : state) : option state :=
  match schedule with
  | [] => Some s
  | a :: rest => match step_serial a s with
                 | Some s' => run_serial rest s'
                 | None => None
                 end
  end.

(** What holds of the counter when admissions do not overlap. *)
Definition serial_invariant (s : state) : Prop :=
  active_transcodes s = held (threads s) /\
  active_transcodes s + in_flight (threads s) <= MAX_CONCURRENT_TRANSCODES.

(** Four requests that all pass the admission check before any of them
    reaches [increment_transcodes]. *)
Definition race_schedule : list action :=
  [Arrive; Arrive; Arrive; Arrive;
   Check 0; Check 1; Check 2; Check 3;
   Increment 0; Increment 1; Increment 2; Increment 3]%nat.

(** A schedule in which no two starts overlap: two jobs are admitted one
    after the other, and the supervisor of the first cleans up. *)
Definition serial_schedule : list action :=
  [Arrive; Check 0; Increment 0; SpawnOk 0;
   Arrive; Check 1; Increment 1; SpawnOk 1;
   Cleanup 0]%nat.

End Gate.

(** ** The pre-generated VOD playlist *)

Module Playlist.

Local Open Scope Q_scope.

(** [total_duration] is the Python float parsed from the prober's output; a
    finite float is a rational number.  With [segment_time = 2.0] every
    float operation of the synthesis is exact on binary64 values: [x // 2.0]
    is the exact floor of [x / 2], and neither the product with 2.0 nor the
    difference [x - 2.0 * floor (x / 2)] rounds.  The computation is
    therefore carried out over the rationals, with the float constants at
    their exact values. *)

Definition segment_time : Q := 2.

(** The binary64 value of the literal [0.01], the nearest float above 1/100:
    5764607523034235 / 2^59. *)
Definition hundredth : Q := 5764607523034235 # 576460752303423488.

(** Python's [x > y] on numbers. *)
Definition Qgtb (x y : Q) : bool := negb (Qle_bool x y).

(** [num_full = int(total_duration // segment_time)] *)
Definition num_full (total_duration : Q) : Z :=
  Qfloor (total_duration / segment_time).

(** [remainder = total_duration - (num_full * segment_time)] *)
Definition remainder (total_duration : Q) : Q :=
  total_duration - inject_Z (num_full total_duration) * segment_time.

(** [segment_count = num_full + (1 if remainder > 0.01 else 0)] *)
Definition segment_count (total_duration : Q) : Z :=
  (num_full total_duration
   + (if Qgtb (remainder total_duration) hundredth then 1 else 0))%Z.

(** [int(math.ceil(max(segment_time,
                       remainder if remainder > 0 else segment_time)))] *)
Definition target_duration (total_duration : Q) : Z :=
  Qceiling (Qmax segment_time
              (if Qgtb (remainder total_duration) 0
               then remainder total_duration else segment_time)).

(** The body of the loop: the duration given to segment [i]. *)
Definition dur (total_duration : Q) (i : Z) : Q :=
  if (i <? num_full total_duration)%Z then segment_time
  else if Qgtb (remainder total_duration) hundredth
       then remainder total_duration else segment_time.

(** [range(segment_count)] *)
Definition range (n : Z) : list Z := map Z.of_nat (seq 0 (Z.to_nat n)).

(** The durations of the segments, in playlist order. *)
Definition segment_durations (total_duration : Q) : list Q :=
  map (dur total_duration) (range (segment_count total_duration)).

Definition Qsum (l : list Q) : Q := fold_right Qplus 0 l.

(** *** Rendering: [f'{dur:.3f}'], [f'{i:05d}'] *)

(** The nearest integer, ties to even: the rounding of [format] on the
    exact value of a float. *)
Definition round_half_even (q : Q) : Z :=
  let f := Qfloor q in
  let r := q - inject_Z f in
  if Qgtb (1#2) r then f
  else if Qgtb r (1#2) then (f + 1)%Z
  else if Z.even f then f else (f + 1)%Z.

(** The number of thousandths printed for a duration. *)
Definition millis (q : Q) : Z := round_half_even (q * 1000).

(** The double-quote character. *)
Definition dquote : ascii := Ascii.ascii_of_nat 34.

(** [s.rjust(width, '0')] *)
Definition zfill (width : nat) (s : string) : string :=
  String.concat "" (replicate (width - String.length s) "0") +:+ s.

(** [f'{q:.3f}'] for [q >= 0]. *)
Definition fmt3 (q : Q) : string :=
  let m := millis q in
  pretty (m / 1000)%Z +:+ "." +:+ zfill 3 (pretty (m mod 1000)%Z).

(** [f'{i:05d}'] for [i >= 0]. *)
Definition fmt05 (i : Z) : string := zfill 5 (pretty i).

Definition segment_lines (total_duration : Q) (i : Z) : list string :=
  [ "#EXTINF:" +:+ fmt3 (dur total_duration i) +:+ ",";
    "seg_" +:+ fmt05 i +:+ ".m4s" ].

(** The list [lines] of [start_hls_vod]. *)
Definition lines (total_duration : Q) : list string :=
  [ "#EXTM3U";
    "#EXT-X-VERSION:7";
    "#EXT-X-TARGETDURATION:" +:+ pretty (target_duration total_duration);
    "#EXT-X-MEDIA-SEQUENCE:0";
    "#EXT-X-PLAYLIST-TYPE:VOD";
    "#EXT-X-INDEPENDENT-SEGMENTS";
    "#EXT-X-MAP:URI=" +:+ String dquote "init.mp4"
                      +:+ String dquote "" ]
  ++ concat (map (segment_lines total_duration)
               (range (segment_count total_duration)))
  ++ [ "#EXT-X-ENDLIST" ].

(** The thousandths printed on the [#EXTINF] lines, in order. *)
Definition written_millis (total_duration : Q) : list Z :=
  map millis (segment_durations total_duration).

Definition Zsum (l : list Z) : Z := fold_right Z.add 0%Z l.

(** The sum of the durations as a player reads them off the playlist. *)
Definition written_sum (total_duration : Q) : Q :=
  inject_Z (Zsum (written_millis total_duration)) / 1000.

(** [if total_duration and total_duration > 0:] guards the synthesis;
    [None] stands for a failed duration probe. *)
Definition synthesize (total_duration : option Q) : option (list string) :=
  match total_duration with
  | Some d => if Qgtb d 0 then Some (lines d) else None
  | None => None
  end.

End Playlist.

(** ** The string operations of Python used by the handlers

    Strings are sequences of 8-bit characters.  [str.lower] and the class
    [\d] of [re] also act on characters outside ASCII, but no such character
    lowers to a letter of the extensions, codec names and pixel formats
    compared below, so the ASCII reading decides the same comparisons. *)

Module Text.

Definition lower_char (c : ascii) : ascii :=
  let n := nat_of_ascii c in
  if (65 <=? n)%nat && (n <=? 90)%nat then ascii_of_nat (n + 32) else c.

(** [s.lower()] *)
Fixpoint lower (s : string) : string :=
  match s with
  | EmptyString => EmptyString
  | String c rest => String (lower_char c) (lower rest)
  end.

(** [s.startswith(p)] *)
Definition startswith (s p : string) : bool := String.prefix p s.

(** [s.endswith(c)] for a one-character [c] *)
Fixpoint endswith_char (s : string) (c : ascii) : bool :=
  match s with
  | EmptyString => false
  | String x EmptyString => bool_decide (x = c)
  | String _ rest => endswith_char rest c
  end.

(** [s.split(sep)] for a one-character [sep]: never the empty list. *)
Fixpoint split (sep : ascii) (s : string) : list string :=
  match s with
  | EmptyString => [EmptyString]
  | String c rest =>
      if bool_decide (c = sep) then EmptyString :: split sep rest
      else match split sep rest with
           | [] => [String c EmptyString]
           | h :: t => String c h :: t
           end
  end.

(** [sep.join(parts)] *)
Definition join_with (sep : string) (parts : list string) : string :=
  String.concat sep parts.

(** [file_path.lower().split('.')[-1]] *)
Definition extension (file_path : string) : string :=
  List.last (split "." (lower file_path)) EmptyString.

Definition is_digit (c : ascii) : bool :=
  let n := nat_of_ascii c in (48 <=? n)%nat && (n <=? 57)%nat.

(** The longest run of digits at the head of [s], and what follows it. *)
Fixpoint span_digits (s : string) : string * string :=
  match s with
  | EmptyString => (EmptyString, EmptyString)
  | String c rest =>
      if is_digit c
      then let '(ds, tl) := span_digits rest in (String c ds, tl)
      else (EmptyString, s)
  end.

(** [int(ds)] for a string of digits. *)
Fixpoint int_from (acc : Z) (ds : string) : Z :=
  match ds with
  | EmptyString => acc
  | String c rest => int_from (10 * acc + Z.of_nat (nat_of_ascii c - 48))%Z rest
  end.

Definition int_of_digits (ds : string) : Z := int_from 0%Z ds.

(** [s] without the prefix [p], when it has it. *)
Fixpoint strip_prefix (p s : string) : option string :=
  match p, s with
  | EmptyString, _ => Some s
  | String a p', String b s' =>
      if bool_decide (a = b) then strip_prefix p' s' else None
  | String _ _, EmptyString => None
  end.

End Text.

(** ** [os.path] on POSIX *)

Module Paths.

Import Text.

(** [os.path.join(a, b)] *)
Definition join (a b : string) : string :=
  if startswith b "/" then b
  else if bool_decide (a = "") || endswith_char a "/" then a +:+ b
  else a +:+ "/" +:+ b.

(** One round of the loop of [normpath]; [new_comps] is kept with its last
    element first. *)
Definition norm_step (initial_slashes : nat) (new_comps : list string)
    (comp : string) : list string :=
  if bool_decide (comp = "") || bool_decide (comp = ".") then new_comps
  else if negb (bool_decide (comp = ".."))
          || (bool_decide (initial_slashes = 0%nat)
              && bool_decide (new_comps = []))
          || bool_decide (head new_comps = Some "..")
       then comp :: new_comps
       else tail new_comps.

(** [os.path.normpath(path)] *)
Definition normpath (path : string) : string :=
  if bool_decide (path = "") then "."
  else
    let initial_slashes :=
      if startswith path "/"
      then if startswith path "//" && negb (startswith path "///")
           then 2%nat else 1%nat
      else 0%nat in
    let comps := rev (fold_left (norm_step initial_slashes) (split "/" path) []) in
    let joined := join_with "/" comps in
    let result := join_with "" (replicate initial_slashes "/") +:+ joined in
    if bool_decide (result = "") then "." else result.

(** [os.path.abspath(path)], in a process whose working directory is [cwd] *)
Definition abspath (cwd path : string) : string :=
  normpath (if startswith path "/" then path else join cwd path).

(** A canonical path lies in the tree rooted at the canonical [root]. *)
Definition inside (root p : string) : Prop :=
  p = root \/ startswith p (root +:+ "/") = true.

Definition escapes (root p : string) : Prop := ~ inside root p.

End Paths.

(** ** The [Range] header *)

Module Range.

Import Text.

(** The pattern of [get_range_requests] matched at the head of [s]: the
    literal [bytes=], a group of one or more digits, a dash, a group of zero
    or more digits.  The result holds the two groups.  Digits are matched
    greedily; since the character after the first run has to be the dash, no
    shorter run can match where the longest does not. *)
Definition match_here (s : string) : option (string * string) :=
  match strip_prefix "bytes=" s with
  | Some r =>
      let '(g1, r1) := span_digits r in
      if bool_decide (g1 = "") then None
      else match r1 with
           | String c r2 =>
               if bool_decide (c = "-"%char)
               then Some (g1, fst (span_digits r2)) else None
           | EmptyString => None
           end
  | None => None
  end.

(** [re.search] with that pattern: the leftmost match. *)
Fixpoint search (s : string) : option (string * string) :=
  match match_here s with
  | Some g => Some g
  | None => match s with
            | EmptyString => None
            | String _ rest => search rest
            end
  end.

(** [get_range_requests(file_size)], with the request's [Range] header as an
    argument; [None] is the pair [(None, None)]. *)
Definition get_range_requests (range_header : option string) (file_size : Z)
    : option (Z * Z) :=
  match range_header with
  | None => None
  | Some h =>
      if bool_decide (h = "") then None
      else match search h with
           | Some (g1, g2) =>
               let byte_start := int_of_digits g1 in
               let byte_end := if bool_decide (g2 = "") then (file_size - 1)%Z
                               else int_of_digits g2 in
               Some (byte_start, Z.min byte_end (file_size - 1))
           | None => None
           end
  end.

End Range.

(** ** What a handler answers *)

Module Http.

Inductive response : Type :=
| Abort (status : Z)
    (* abort(status) *)
| NoContent
    (* return ('', 204) *)
| JsonError (status : Z) (error : string)
    (* return jsonify({'error': error}), status *)
| JsonPlayback (playlist : string) (duration : option Q) (job : string)
    (* return jsonify({'playlist': .., 'duration': .., 'job': ..}) *)
| SendFile (path : string) (mimetype : option string) (no_cache : bool)
    (* send_file(path, mimetype=..), with the three cache headers or not *)
| Stream (status : Z) (mimetype : string) (headers : list (string * string))
         (source : string) (body : list (list ascii))
    (* Response(generate_original(), status, mimetype=..) with the headers
       added to it, the file the generator opens and the chunks it yields *)
| Unhandled.
    (* an exception left the view function *)

Definition status_of (r : response) : Z :=
  match r with
  | Abort st => st
  | NoContent => 204
  | JsonError st _ => st
  | JsonPlayback _ _ _ => 200
  | SendFile _ _ _ => 200
  | Stream st _ _ _ _ => st
  | Unhandled => 500
  end.

(** The file a response reads, if it reads one. *)
Definition file_read (r : response) : option string :=
  match r with
  | SendFile p _ _ => Some p
  | Stream _ _ _ p _ => Some p
  | _ => None
  end.

End Http.

(** ** Jobs: starting, supervising and cancelling encoders *)

Module Jobs.

Import Text Paths Http.

Local Open Scope Z_scope.

(** What a child process run with [subprocess.run] gave: an exception
    ([TimeoutExpired], a missing binary), or an exit status and its output. *)
Inductive run_result (A : Type) : Type :=
| Raises
| Exit (returncode : Z) (stdout : A).
Arguments Raises {A}.
Arguments Exit {A} returncode stdout.

(** The standard output of the stream probe as [json.loads] sees it: text
    that is no JSON object, or an object whose ['streams'] entry is missing
    ([None]) or a list of stream objects with string values, as the prober
    prints them. *)
Inductive probe_json : Type :=
| Malformed
| Parsed (streams : option (list (gmap string string))).

(** The standard output of the duration probe after [strip()]. *)
Inductive duration_text : Type :=
| Blank                (* the empty string *)
| NotAFloat            (* float(ds) raises ValueError *)
| Float (d : Q).       (* float(ds) *)

(** [hls_jobs[job_id] = {'proc': proc, 'dir': job_dir}] *)
Record job : Type := mkJob { proc : nat; dir : string }.

Inductive pstate : Set := Running | Exited.

Inductive signal : Set := SIGTERM | SIGKILL.

(** How an encoder answers the supervisor or a cancellation. *)
Inductive temper : Set :=
| ExitsInTime          (* wait(timeout) returns *)
| ExitsOnTerminate     (* wait times out, terminate() and wait(5) succeed *)
| NeedsKill.           (* wait(5) after terminate() times out as well *)

(** The process-wide state and the part of the outside world the job code
    acts on. *)
Record world : Type := mkWorld {
  active_transcodes : Z;
  hls_jobs : gmap string job;
  dirs : gset string;               (* existing job directories *)
  files : gmap string string;       (* files written by this program *)
  procs : list pstate;              (* encoders, by handle *)
  spawned : list (list string);     (* argv of every child process started *)
  signals : list (nat * signal);    (* signals sent to encoders *)
  supervisors : list (nat * string * string)
                                    (* finalize_cleanup threads started *)
}.

(** What the outside world answers during one call of [start_hls_vod]. *)
Record oracle : Type := mkOracle {
  uuid4_hex : string;
  probe_v : run_result probe_json;
  probe_a : run_result probe_json;
  probe_duration : run_result duration_text;
  write_ok : bool;                  (* open(published_playlist, 'w') *)
  popen_ok : bool                   (* subprocess.Popen(cmd) *)
}.

Inductive outcome (A : Type) : Type :=
| Returned (a : A)
| Raised.
Arguments Returned {A} a.
Arguments Raised {A}.

Definition with_counter (w : world) (c : Z) : world :=
  mkWorld c (hls_jobs w) (dirs w) (files w) (procs w) (spawned w)
          (signals w) (supervisors w).

Definition with_jobs (w : world) (j : gmap string job) : world :=
  mkWorld (active_transcodes w) j (dirs w) (files w) (procs w) (spawned w)
          (signals w) (supervisors w).

Definition with_fs (w : world) (d : gset string) (f : gmap string string)
    : world :=
  mkWorld (active_transcodes w) (hls_jobs w) d f (procs w) (spawned w)
          (signals w) (supervisors w).

Definition with_procs (w : world) (ps : list pstate) : world :=
  mkWorld (active_transcodes w) (hls_jobs w) (dirs w) (files w) ps (spawned w)
          (signals w) (supervisors w).

Definition log_spawn (w : world) (argv : list string) : world :=
  mkWorld (active_transcodes w) (hls_jobs w) (dirs w) (files w) (procs w)
          (spawned w ++ [argv]) (signals w) (supervisors w).

Definition log_signal (w : world) (p : nat) (sg : signal) : world :=
  mkWorld (active_transcodes w) (hls_jobs w) (dirs w) (files w) (procs w)
          (spawned w) (signals w ++ [(p, sg)]) (supervisors w).

Definition log_supervisor (w : world) (t : nat * string * string) : world :=
  mkWorld (active_transcodes w) (hls_jobs w) (dirs w) (files w) (procs w)
          (spawned w) (signals w) (supervisors w ++ [t]).

(** [Path(job_dir).mkdir(parents=True, exist_ok=True)] *)
Definition mkdir (w : world) (d : string) : world :=
  with_fs w ({[ d ]} ∪ dirs w) (files w).

(** [shutil.rmtree(d, ignore_errors=True)]: the directory and the files
    below it. *)
Definition rmtree (w : world) (d : string) : world :=
  with_fs w (dirs w ∖ {[ d ]})
          (filter (fun kv => startswith kv.1 (d +:+ "/") = false) (files w)).

(** A probe that timed out or could not run, exited non-zero, or printed
    what [json.loads] rejects. *)
Definition probe_failed (r : run_result probe_json) : Prop :=
  r = Raises \/
  exists returncode out,
    r = Exit returncode out /\ (returncode <> 0 \/ out = Malformed).

(** The body of [probe_stream(select)] after [subprocess.run]. *)
Definition probe_stream (r : run_result probe_json)
    : option (gmap string string) :=
  match r with
  | Raises => None
  | Exit returncode out =>
      if negb (returncode =? 0) then None
      else match out with
           | Malformed => None
           | Parsed streams =>
               match default [] streams with
               | [] => None
               | s :: _ => Some s
               end
           end
  end.

(** [(v.get(key) if v else '') or ''] *)
Definition field (v : option (gmap string string)) (key : string) : string :=
  match v with
  | Some d => if bool_decide (d = ∅) then "" else default "" (d !! key)
  | None => ""
  end.

Definition can_copy_video (v_codec v_pix : string) : bool :=
  bool_decide (lower v_codec = "h264")
  && (bool_decide (lower v_pix = "yuv420p")
      || bool_decide (lower v_pix = "yuvj420p")).

Definition can_copy_audio (a_codec : string) : bool :=
  bool_decide (lower a_codec = "aac").

Definition ffprobe_streams (select input_path : string) : list string :=
  ["ffprobe"; "-v"; "error"; "-select_streams"; select;
   "-show_entries"; "stream=codec_name,pix_fmt"; "-of"; "json"; input_path].

Definition ffprobe_duration (input_path : string) : list string :=
  ["ffprobe"; "-v"; "error"; "-show_entries"; "format=duration";
   "-of"; "default=nk=1:nw=1"; input_path].

Definition video_args (copy_video fast_mode : bool) : list string :=
  if copy_video then ["-c:v"; "copy"]
  else ["-c:v"; "libx264";
        "-preset"; if fast_mode then "veryfast" else "medium";
        "-pix_fmt"; "yuv420p";
        "-profile:v"; "baseline";
        "-level"; "3.0";
        "-vf"; if fast_mode then "scale=720:-2" else "scale=1280:-2";
        "-g"; "48"; "-sc_threshold"; "0"; "-keyint_min"; "48"; "-r"; "24"].

Definition audio_args (copy_audio fast_mode : bool) : list string :=
  if copy_audio then ["-c:a"; "copy"]
  else ["-c:a"; "aac"; "-b:a"; if fast_mode then "96k" else "128k"].

(** The list [cmd] handed to [Popen]. *)
Definition encoder_cmd (input_path job_dir playlist_type : string)
    (copy_video copy_audio fast_mode : bool) : list string :=
  ["ffmpeg"; "-y"; "-loglevel"; "error"; "-fflags"; "+genpts";
   "-i"; input_path]
  ++ video_args copy_video fast_mode
  ++ audio_args copy_audio fast_mode
  ++ ["-f"; "hls";
      "-hls_time"; "2"; "-hls_list_size"; "0";
      "-hls_playlist_type"; playlist_type;
      "-hls_segment_type"; "fmp4";
      "-hls_flags"; "independent_segments+append_list+temp_file";
      "-start_number"; "0";
      "-hls_segment_filename"; join job_dir "seg_%05d.m4s";
      "-hls_fmp4_init_filename"; "init.mp4";
      join job_dir "internal.m3u8"].

(** [total_duration] after the duration probe. *)
Definition total_duration (r : run_result duration_text) : option Q :=
  match r with
  | Exit returncode (Float d) => if returncode =? 0 then Some d else None
  | _ => None
  end.

Definition newline : string := String (ascii_of_nat 10) EmptyString.

(** ['\n'.join(lines) + '\n'] *)
Definition playlist_text (lines : list string) : string :=
  join_with newline lines +:+ newline.

Section Handlers.

(** The configuration read from the environment at import time, and the
    working directory of the process. *)
Variables (RECORDINGS_PATH HLS_PATH cwd : string).

(** [start_hls_vod(input_path, fast_mode, playlist_type)].  The loop that
    waits for [init.mp4] and the first segment only reads the file system
    and sleeps; it leaves no trace in the world and is not shown. *)
Definition start_hls_vod (o : oracle) (input_path : string) (fast_mode : bool)
    (playlist_type : string) (w : world)
    : outcome (option (string * string)) * world :=
  if negb (Gate.can_start_transcode (active_transcodes w))
  then (Returned None, w)
  else
    let job_id := uuid4_hex o in
    let job_dir := join HLS_PATH job_id in
    let w := mkdir w job_dir in
    let w := log_spawn w (ffprobe_streams "v:0" input_path) in
    let v := probe_stream (probe_v o) in
    let w := log_spawn w (ffprobe_streams "a:0" input_path) in
    let a := probe_stream (probe_a o) in
    let v_codec := field v "codec_name" in
    let v_pix := field v "pix_fmt" in
    let a_codec := field a "codec_name" in
    let cmd := encoder_cmd input_path job_dir playlist_type
                 (can_copy_video v_codec v_pix) (can_copy_audio a_codec)
                 fast_mode in
    let published_playlist := join job_dir "index.m3u8" in
    let w := log_spawn w (ffprobe_duration input_path) in
    let w :=
      match Playlist.synthesize (total_duration (probe_duration o)) with
      | Some lines =>
          if write_ok o
          then with_fs w (dirs w)
                 (<[published_playlist := playlist_text lines]> (files w))
          else w
      | None => w
      end in
    let w := with_counter w (Gate.increment_transcodes (active_transcodes w)) in
    if negb (popen_ok o) then (Raised, w)
    else
      let proc := length (procs w) in
      let w := log_spawn (with_procs w (procs w ++ [Running])) cmd in
      let w := with_jobs w (<[job_id := mkJob proc job_dir]> (hls_jobs w)) in
      let w := log_supervisor w (proc, job_id, job_dir) in
      (Returned (Some (job_id, job_id +:+ "/index.m3u8")), w).

(** [p.terminate()], [p.wait(timeout=5)] and, when that times out,
    [p.kill(); p.wait()]. *)
Definition terminate_then_kill (t : temper) (p : nat) (w : world) : world :=
  let w := log_signal w p SIGTERM in
  let w := match t with
           | NeedsKill => log_signal w p SIGKILL
           | _ => w
           end in
  with_procs w (<[p := Exited]> (procs w)).

(** The thread body [finalize_cleanup(p, job_id_param, job_dir_param)]. *)
Definition finalize_cleanup (t : temper) (p : nat)
    (job_id_param job_dir_param : string) (w : world) : world :=
  let w :=
    match procs w !! p, t with
    | Some Running, ExitsInTime => with_procs w (<[p := Exited]> (procs w))
    | Some Running, _ => terminate_then_kill t p w
    | _, _ => w
    end in
  let w := with_counter w (Gate.decrement_transcodes (active_transcodes w)) in
  let w := with_jobs w (delete job_id_param (hls_jobs w)) in
  if bool_decide (job_dir_param ∈ dirs w) then rmtree w job_dir_param else w.

(** [stop_hls_job(job_id)], the handler of [DELETE /api/hls/<job_id>]. *)
Definition stop_hls_job (t : temper) (job_id : string) (w : world)
    : response * world :=
  match hls_jobs w !! job_id with
  | None => (NoContent, w)
  | Some job =>
      let w := with_jobs w (delete job_id (hls_jobs w)) in
      let w :=
        match procs w !! proc job with
        | Some Running => terminate_then_kill t (proc job) w
        | _ => w
        end in
      let w :=
        if negb (bool_decide (dir job = "")) && bool_decide (dir job ∈ dirs w)
        then rmtree w (dir job) else w in
      (NoContent, w)
  end.

Definition ffprobe_video_duration (full_path : string) : list string :=
  ["ffprobe"; "-v"; "error"; "-select_streams"; "v:0";
   "-show_entries"; "format=duration"; "-of"; "default=nk=1:nw=1"; full_path].

(** [api_hls(file_path)], the handler of [GET /api/hls/<path:file_path>].
    [path_exists] is [os.path.exists]; [quality] is the query argument;
    [o] and [duration_run] are what the child processes of this request
    answer. *)
Definition api_hls (path_exists : string -> bool) (o : oracle)
    (duration_run : run_result duration_text) (quality : option string)
    (file_path : string) (w : world) : response * world :=
  let full_path := join RECORDINGS_PATH file_path in
  if negb (path_exists full_path) then (Abort 404, w)
  else if negb (startswith (abspath cwd full_path)
                           (abspath cwd RECORDINGS_PATH))
  then (Abort 403, w)
  else
    let fast_mode := bool_decide (default "fast" quality = "fast") in
    match start_hls_vod o full_path fast_mode "event" w with
    | (Raised, w) => (Unhandled, w)
    | (Returned None, w) => (JsonError 503 "HLS queue full", w)
    | (Returned (Some (job_id, subpath)), w) =>
        let w := log_spawn w (ffprobe_video_duration full_path) in
        (JsonPlayback ("/api/files/" +:+ subpath)
                      (total_duration duration_run) job_id, w)
    end.

End Handlers.

(** The configuration the program runs with when the environment sets
    nothing, in a container whose working directory is [/app]. *)
Definition default_recordings : string := "/recordings".
Definition default_hls : string := "/tmp/reodash_hls".
Definition default_cwd : string := "/app".

Definition idle : world := mkWorld 0 ∅ ∅ ∅ [] [] [] [].

(** A call that draws the job id [id] and whose stream probes both fail: the
    first times out, the second exits with status 1; the duration probe
    answers 5.5 seconds. *)
Definition oracle_with (id : string) : oracle :=
  mkOracle id Raises (Exit 1 Malformed) (Exit 0 (Float (11#2))) true true.

Definition failing_probes : oracle := oracle_with "5f0c2a".

(** The world after one successful start on an idle server. *)
Definition one_job : world :=
  (start_hls_vod default_hls failing_probes "/recordings/cam/clip.mp4"
                 true "event" idle).2.

(** A server whose three slots are taken. *)
Definition saturated : world := with_counter idle 3.

(** A call that is admitted and probes well, but whose [Popen] raises. *)
Definition popen_fails : oracle :=
  mkOracle "9d41aa" Raises Raises (Exit 0 (Float (11#2))) true false.

End Jobs.

(** ** The stream probes on every output

    [Jobs] types the standard output of a stream probe as the prober prints
    it.  [json.loads] builds more values than those, and lines 201 to 213 of
    [start_hls_vod] go on with whatever it has built: inside [probe_stream]
    every exception is caught, after it none is.  This module follows the
    same lines on every value. *)

Module Probe.

Import Text Paths Http Jobs.

Local Open Scope Z_scope.

(** A value built by [json.loads]; [JNull] is [None]. *)
#[warnings="-register-all"] Inductive json : Type :=
| JNull
| JBool (b : bool)
| JInt (n : Z)
| JFloat (x : Q)                         (* a finite float, by its value *)
| JNonFinite                             (* NaN, Infinity, -Infinity *)
| JString (s : string)
| JList (items : list json)
| JDict (members : gmap string json).

(** [bool(x)] *)
Definition truthy (x : json) : bool :=
  match x with
  | JNull => false
  | JBool b => b
  | JInt n => negb (n =? 0)
  | JFloat x => negb (Qeq_bool x 0)
  | JNonFinite => true
  | JString s => negb (bool_decide (s = ""))
  | JList items => match items with [] => false | _ :: _ => true end
  | JDict members => negb (bool_decide (size members = 0%nat))
  end.

(** The standard output of a stream probe under [json.loads]: rejected with
    an exception, or loaded. *)
Inductive probe_output : Type :=
| Rejected
| Loaded (data : json).

(** A probe that timed out or could not run, exited non-zero, or printed
    what [json.loads] rejects. *)
Definition probe_failed (r : run_result probe_output) : Prop :=
  r = Raises \/
  exists returncode out,
    r = Exit returncode out /\ (returncode <> 0 \/ out = Rejected).

(** The body of [probe_stream(select)] after [subprocess.run].  What is not
    a dict has no [get] (AttributeError); a dict has no key [0] (KeyError),
    a number or [True] no items (TypeError); all of them are caught. *)
Definition probe_stream (r : run_result probe_output) : json :=
  match r with
  | Raises => JNull
  | Exit returncode out =>
      if negb (returncode =? 0) then JNull
      else match out with
           | Rejected => JNull
           | Loaded (JDict data) =>
               let found := default JNull (data !! "streams") in
               let streams := if truthy found then found else JList [] in
               if truthy streams then
                 match streams with
                 | JList (s :: _) => s
                 | JString (String c _) => JString (String c "")
                 | _ => JNull
                 end
               else JNull
           | Loaded _ => JNull
           end
  end.

(** [(v.get(key) if v else '') or '']; [None]: [v] is truthy and no dict,
    and [v.get] raises AttributeError. *)
Definition field (v : json) (key : string) : option json :=
  found ← (if truthy v
           then match v with
                | JDict members => Some (default JNull (members !! key))
                | _ => None
                end
           else Some (JString ""));
  Some (if truthy found then found else JString "").

(** [x.lower()]; [None]: [x] is no string, AttributeError. *)
Definition lower_of (x : json) : option string :=
  match x with
  | JString s => Some (lower s)
  | _ => None
  end.

(** Lines 208 to 213: the pair [(can_copy_video, can_copy_audio)]; [None]:
    one of the lines raises. *)
Definition copy_flags (v a : json) : option (bool * bool) :=
  v_codec ← field v "codec_name";
  v_pix ← field v "pix_fmt";
  a_codec ← field a "codec_name";
  v_lower ← lower_of v_codec;
  can_copy_video ←
    (if bool_decide (v_lower = "h264")
     then p ← lower_of v_pix;
          Some (bool_decide (p = "yuv420p") || bool_decide (p = "yuvj420p"))
     else Some false);
  a_lower ← lower_of a_codec;
  Some (can_copy_video, bool_decide (a_lower = "aac")).

(** What the outside world answers during one call of [start_hls_vod]. *)
Record oracle : Type := mkOracle {
  uuid4_hex : string;
  probe_v : run_result probe_output;
  probe_a : run_result probe_output;
  probe_duration : run_result duration_text;
  write_ok : bool;                  (* open(published_playlist, 'w') *)
  popen_ok : bool                   (* subprocess.Popen(cmd) *)
}.

Section Handlers.

Variable HLS_PATH : string.

(** [start_hls_vod(input_path, fast_mode, playlist_type)], as in [Jobs] but
    for the lines 206 to 213, which may raise. *)
Definition start_hls_vod (o : oracle) (input_path : string) (fast_mode : bool)
    (playlist_type : string) (w : world)
    : outcome (option (string * string)) * world :=
  if negb (Gate.can_start_transcode (active_transcodes w))
  then (Returned None, w)
  else
    let job_id := uuid4_hex o in
    let job_dir := join HLS_PATH job_id in
    let w := mkdir w job_dir in
    let w := log_spawn w (ffprobe_streams "v:0" input_path) in
    let v := probe_stream (probe_v o) in
    let w := log_spawn w (ffprobe_streams "a:0" input_path) in
    let a := probe_stream (probe_a o) in
    match copy_flags v a with
    | None => (Raised, w)
    | Some (can_copy_video, can_copy_audio) =>
        let cmd := encoder_cmd input_path job_dir playlist_type
                     can_copy_video can_copy_audio fast_mode in
        let published_playlist := join job_dir "index.m3u8" in
        let w := log_spawn w (ffprobe_duration input_path) in
        let w :=
          match Playlist.synthesize (total_duration (probe_duration o)) with
          | Some lines =>
              if write_ok o
              then with_fs w (dirs w)
                     (<[published_playlist := playlist_text lines]> (files w))
              else w
          | None => w
          end in
        let w :=
          with_counter w (Gate.increment_transcodes (active_transcodes w)) in
        if negb (popen_ok o) then (Raised, w)
        else
          let proc := length (procs w) in
          let w := log_spawn (with_procs w (procs w ++ [Running])) cmd in
          let w :=
            with_jobs w (<[job_id := mkJob proc job_dir]> (hls_jobs w)) in
          let w := log_supervisor w (proc, job_id, job_dir) in
          (Returned (Some (job_id, job_id +:+ "/index.m3u8")), w)
    end.

End Handlers.

(** The outputs of [Jobs] among all outputs: a stream object with string
    values, the object [{"streams": [...]}] around the streams. *)
Definition of_stream (s : gmap string string) : json := JDict (JString <$> s).

Definition of_probe_json (out : probe_json) : probe_output :=
  match out with
  | Malformed => Rejected
  | Parsed None => Loaded (JDict ∅)
  | Parsed (Some streams) =>
      Loaded (JDict {[ "streams" := JList (of_stream <$> streams) ]})
  end.

Definition of_run (r : run_result probe_json) : run_result probe_output :=
  match r with
  | Raises => Raises
  | Exit returncode out => Exit returncode (of_probe_json out)
  end.

Definition of_oracle (o : Jobs.oracle) : oracle :=
  mkOracle (Jobs.uuid4_hex o) (of_run (Jobs.probe_v o))
           (of_run (Jobs.probe_a o)) (Jobs.probe_duration o)
           (Jobs.write_ok o) (Jobs.popen_ok o).





End Probe.

(** ** The streaming file server *)

Module Server.

Import Text Paths Range Http Jobs.

Local Open Scope Z_scope.

(** [time.sleep(0.05)]: the seconds slept after a look that found nothing. *)
Definition poll_interval : Q := 1#20.

(** [f.read(chunk_size)] on the unread rest of a file, as the buffered
    reader of [open(full_path, 'rb')] has it: a size below [-1] is refused
    with a [ValueError], the size [-1] reads to the end. *)
Definition read_buffered (data : list ascii) (chunk_size : Z)
    : option (list ascii) :=
  if chunk_size <? -1 then None
  else Some (if chunk_size <? 0 then data
             else take (Z.to_nat chunk_size) data).

(** How the generator ends: it leaves the loop, or [f.read] raises. *)
Inductive ending : Set := Exhausted | ReadRefused.

(** The loop [while remaining:] of [generate_original]: the chunks yielded
    and how the generator ends.  [data] is the file from the read position
    on; every round that goes on has read at least one byte, so [fuel]
    beyond the length of [data] is never used up. *)
Fixpoint generate_buffered (fuel : nat) (data : list ascii) (remaining : Z)
    : list (list ascii) * ending :=
  match fuel with
  | O => ([], Exhausted)
  | S fuel' =>
      if remaining =? 0 then ([], Exhausted)
      else
        let chunk_size := Z.min 8192 remaining in
        match read_buffered data chunk_size with
        | None => ([], ReadRefused)
        | Some [] => ([], Exhausted)
        | Some chunk =>
            let '(chunks, e) :=
              generate_buffered fuel' (drop (length chunk) data)
                                (remaining - Z.of_nat (length chunk)) in
            (chunk :: chunks, e)
        end
  end.

(** [generate_original()] on a file holding [bytes], run to its end. *)
Definition stream_original (bytes : list ascii) (byte_start byte_end : Z)
    : list (list ascii) * ending :=
  let data := drop (Z.to_nat byte_start) bytes in
  generate_buffered (S (length data)) data (byte_end - byte_start + 1).

(** The chunks [generate_original()] yields, the body of the partial
    response; how the generator ends is the second part of
    [stream_original]. *)
Definition generate_original (bytes : list ascii) (byte_start byte_end : Z)
    : list (list ascii) :=
  (stream_original bytes byte_start byte_end).1.

Definition segment_mimetype (ext : string) : option string :=
  if bool_decide (ext = "m4s") then Some "video/iso.segment"
  else if bool_decide (ext = "mp4") then Some "video/mp4"
  else if bool_decide (ext = "ts") then Some "video/mp2t"
  else None.

Section ServeFile.

Variables (RECORDINGS_PATH HLS_PATH cwd : string).

(** The disk as one request sees it: [path_exists n p] is the answer of the
    [n]-th call of [os.path.exists] the request makes (counted from 0), on
    the path [p]; [content p] holds the bytes of the file [p]. *)
Variable path_exists : nat -> string -> bool.
Variable content : string -> list ascii.

(** [os.path.getsize(p)] *)
Definition getsize (p : string) : Z := Z.of_nat (length (content p)).

(** [for _ in range(n): if os.path.exists(p): break; time.sleep(0.05)],
    started when [tick] calls of [os.path.exists] have been made: the number
    of calls made when the loop is left. *)
Fixpoint wait_for (n tick : nat) (p : string) : nat :=
  match n with
  | O => tick
  | S n' => if path_exists tick p then S tick else wait_for n' (S tick) p
  end.

(** The calls of [time.sleep(0.05)] that loop makes: one after each look
    that did not find the file. *)
Fixpoint sleeps (n tick : nat) (p : string) : nat :=
  match n with
  | O => O
  | S n' => if path_exists tick p then O else S (sleeps n' (S tick) p)
  end.

(** The first block of [serve_file]: assets under [HLS_PATH].  [None]: the
    block is left without a response. *)
Definition serve_hls (file_path safe_hls_path : string) : option response :=
  let ext := extension file_path in
  if bool_decide (ext = "m3u8") then
    Some (if negb (path_exists 0 safe_hls_path) then Abort 404
          else SendFile safe_hls_path (Some "application/vnd.apple.mpegurl")
                        true)
  else if bool_decide (ext = "m4s") || bool_decide (ext = "mp4")
          || bool_decide (ext = "ts") then
    let tick := wait_for 1200 0 safe_hls_path in
    Some (if negb (path_exists tick safe_hls_path) then Abort 404
          else SendFile safe_hls_path (segment_mimetype ext) false)
  else None.

(** The branch of [serve_file] for an original MP4. *)
Definition serve_original (range_header : option string) (full_path : string)
    : response :=
  let file_size := getsize full_path in
  match get_range_requests range_header file_size with
  | None => SendFile full_path (Some "video/mp4") false
  | Some (byte_start, byte_end) =>
      Stream 206 "video/mp4"
        [ ("Accept-Ranges", "bytes");
          ("Content-Range",
           "bytes " +:+ pretty byte_start +:+ "-" +:+ pretty byte_end
                    +:+ "/" +:+ pretty file_size);
          ("Content-Length", pretty (byte_end - byte_start + 1)) ]
        full_path
        (generate_original (content full_path) byte_start byte_end)
  end.

(** [serve_file(file_path)], the handler of [GET /api/files/<path:file_path>];
    [range_header] is [request.headers.get('Range', None)]. *)
Definition serve_file (range_header : option string) (file_path : string)
    : response :=
  let full_path := join RECORDINGS_PATH file_path in
  let hls_path := join HLS_PATH file_path in
  let safe_hls_root := abspath cwd HLS_PATH in
  let safe_hls_path := abspath cwd hls_path in
  match (if startswith safe_hls_path safe_hls_root
         then serve_hls file_path safe_hls_path else None) with
  | Some r => r
  | None =>
      if negb (path_exists 0 full_path) then Abort 404
      else if negb (startswith (abspath cwd full_path)
                               (abspath cwd RECORDINGS_PATH))
      then Abort 403
      else
        let file_extension := extension file_path in
        if bool_decide (file_extension = "m3u8") then
          let full_hls_path := join HLS_PATH file_path in
          if negb (path_exists 1 full_hls_path) then Abort 404
          else SendFile full_hls_path (Some "application/vnd.apple.mpegurl")
                        true
        else if bool_decide (file_extension = "mp4") then
          serve_original range_header full_path
        else if bool_decide (file_extension = "m4s")
                || bool_decide (file_extension = "ts") then
          SendFile full_path None false
        else if bool_decide (file_extension = "jpg")
                || bool_decide (file_extension = "jpeg") then
          SendFile full_path (Some "image/jpeg") false
        else if bool_decide (file_extension = "png") then
          SendFile full_path (Some "image/png") false
        else SendFile full_path None false
  end.

(** A file that is there stays there while the request is served. *)
Definition persistent (p : string) : Prop :=
  forall t, path_exists t p = true -> path_exists (S t) p = true.

End ServeFile.

(** A disk on which every path is found, and one on which none is. *)
Definition everything : nat -> string -> bool := fun _ _ => true.
Definition nothing : nat -> string -> bool := fun _ _ => false.

(** A disk on which every file appears at the fourth look. *)
Definition appears_late : nat -> string -> bool := fun n _ => (3 <=? n)%nat.

(** A disk on which every file is there at the fourth look only: it is
    written, and removed before the next look. *)
Definition seen_once : nat -> string -> bool := fun n _ => (n =? 3)%nat.

(** A disk that holds one five-byte recording and nothing else. *)
Definition clip : string := "/recordings/cam/clip.mp4".
Definition one_clip : nat -> string -> bool := fun _ p => bool_decide (p = clip).
Definition clip_bytes : string -> list ascii :=
  fun p => if bool_decide (p = clip) then ["a"; "b"; "c"; "d"; "e"]%char else [].

Definition no_bytes : string -> list ascii := fun _ => [].


End Server.

(** ** The status report *)

Module Status.

Local Open Scope Z_scope.

(** The JSON object of [transcode_status()]; the first field is the key
    ['active_transcodes']. *)
Record report : Set := mkReport {
  active : Z;
  max_concurrent : Z;
  available_slots : Z
}.

(** [transcode_status()], read under [transcode_lock]. *)
Definition transcode_status (active_transcodes : Z) : report :=
  mkReport active_transcodes Gate.MAX_CONCURRENT_TRANSCODES
           (Gate.MAX_CONCURRENT_TRANSCODES - active_transcodes).

End Status.

(** ** The header of a recording *)

Module Info.

Import Text Paths.

Local Open Scope Z_scope.

(** What is at a path: a file that can be read, or something that exists
    but on which [os.path.getsize] or [open] raises, with the text of the
    exception (a directory, a file without read permission). *)
Inductive entry : Set :=
| Regular (bytes : list ascii)
| Failing (message : string).

(** [s.endswith(suffix)] *)
Fixpoint endswith (s suffix : string) : bool :=
  String.eqb s suffix
  || match s with
     | EmptyString => false
     | String _ rest => endswith rest suffix
     end.

Definition hex_digit (n : nat) : ascii :=
  ascii_of_nat (if (n <? 10)%nat then 48 + n else 87 + n).

(** [bytes.hex()] *)
Fixpoint hex (bytes : list ascii) : string :=
  match bytes with
  | [] => EmptyString
  | b :: rest =>
      let n := nat_of_ascii b in
      String (hex_digit (n / 16)) (String (hex_digit (n mod 16)) (hex rest))
  end.

Definition ftyp : list ascii := ["f"; "t"; "y"; "p"]%char.

(** The JSON object of a successful answer. *)
Record info : Set := mkInfo {
  file_path : string;
  file_size : Z;
  header_hex : string;
  is_valid_mp4 : bool;
  first_4_bytes : option string;
  ftyp_check : bool
}.

(** [jsonify({'error': ...}), status], or [jsonify({...})] with status 200. *)
Inductive answer : Set :=
| Error (status : Z) (error : string)
| Report (i : info).

Section VideoInfo.

Variable RECORDINGS_PATH : string.

(** The disk: what is at a path, if anything. *)
Variable disk : string -> option entry.

(** [video_info(file_path)], the handler of
    [GET /video-info/<path:file_path>] *)
Definition video_info (file_path : string) : answer :=
  let full_path := join RECORDINGS_PATH file_path in
  match disk full_path with
  | None => Error 404 "File not found"
  | Some e =>
      if negb (endswith (lower full_path) ".mp4")
      then Error 400 "Not an MP4 file"
      else
        match e with
        | Failing message => Error 500 message
        | Regular bytes =>
            let file_size := Z.of_nat (length bytes) in
            let header := take 32 bytes in
            let is_valid_mp4 :=
              (8 <=? length header)%nat
              && bool_decide (take 4 (drop 4 header) = ftyp) in
            Report
              (mkInfo file_path file_size (hex header) is_valid_mp4
                 (if (4 <=? length header)%nat
                  then Some (hex (take 4 header)) else None)
                 (if (8 <=? length header)%nat
                  then bool_decide (take 4 (drop 4 header) = ftyp)
                  else false))
        end
  end.

End VideoInfo.

(** A disk with a recording and a file outside the recordings root. *)
Definition sample_disk (p : string) : option entry :=
  if bool_decide (p = "/recordings/cam/clip.mp4")
  then Some (Regular (["000"; "000"; "000"; "024"]%char ++ ftyp
                        ++ ["i"; "s"; "o"; "m"]%char))
  else if bool_decide (p = "/recordings/../srv/private/film.MP4")
  then Some (Regular ["s"; "e"; "c"; "r"; "e"; "t"]%char)
  else if bool_decide (p = "/recordings/cam/folder.mp4")
  then Some (Failing "[Errno 21] Is a directory: '/recordings/cam/folder.mp4'")
  else None.

End Info.

(** ** The tree of recordings *)

Module Recordings.

Import Text.

Local Open Scope Z_scope.

(** File and directory names are strings of characters with code points
    below 256; among these the class of digits of the patterns, which
    [is_digit] decides, is that of the ten characters [0] to [9]. *)

Inductive exception : Set :=
| ValueError
| AttributeError
| NotADirectoryError.

(** What a call gives: a value, or an exception that leaves the caller. *)
Inductive result (A : Type) : Type :=
| Ok (a : A)
| Raise (e : exception).
Arguments Ok {A} a.
Arguments Raise {A} e.

#[global] Instance result_bind : MBind result := fun A B f m =>
  match m with
  | Ok a => f a
  | Raise e => Raise e
  end.

(** [for a in l: s = body(s, a)], left as soon as a round raises. *)
Fixpoint for_each {S A : Type} (body : S -> A -> result S) (l : list A)
    (s : S) : result S :=
  match l with
  | [] => Ok s
  | a :: rest => s' ← body s a; for_each body rest s'
  end.

(** *** Dictionaries, in the order of insertion *)

(** [d.get(k)] *)
Fixpoint get {V : Type} (d : list (string * V)) (k : string) : option V :=
  match d with
  | [] => None
  | (k', v) :: rest => if bool_decide (k' = k) then Some v else get rest k
  end.

(** [d[k] = v]: a key that is there keeps its place. *)
Fixpoint assign {V : Type} (d : list (string * V)) (k : string) (v : V)
    : list (string * V) :=
  match d with
  | [] => [(k, v)]
  | (k', v') :: rest =>
      if bool_decide (k' = k) then (k, v) :: rest
      else (k', v') :: assign rest k v
  end.

(** *** [parse_filename] *)

(** Exactly [n] digits at the head of [s], and what follows them. *)
Fixpoint digits (n : nat) (s : string) : option (string * string) :=
  match n with
  | O => Some (EmptyString, s)
  | S n' =>
      match s with
      | EmptyString => None
      | String c rest =>
          if is_digit c
          then '(ds, tl) ← digits n' rest; Some (String c ds, tl)
          else None
      end
  end.

(** The pattern from the underscore after the camera name on, at the head
    of [s]: an underscore, two digits, an underscore, fourteen digits, a dot
    and one of [jpg] and [mp4].  The groups: sequence, timestamp,
    extension. *)
Definition tail_match (s : string) : option (string * string * string) :=
  s1 ← strip_prefix "_" s;
  '(sequence, s2) ← digits 2 s1;
  s3 ← strip_prefix "_" s2;
  '(timestamp_str, s4) ← digits 14 s3;
  s5 ← strip_prefix "." s4;
  if startswith s5 "jpg" then Some (sequence, timestamp_str, "jpg")
  else if startswith s5 "mp4" then Some (sequence, timestamp_str, "mp4")
  else None.

(** The character that the dot of a pattern does not match. *)
Definition line_feed : ascii := ascii_of_nat 10.

(** [re.match(pattern, filename)]: the match at the head of [filename] the
    engine finds, which has the longest camera name; a camera name is one
    character at least, none of them a line feed, and what follows it
    matches the rest of the pattern.  Nothing is asked of what follows the
    extension. *)
Fixpoint re_match (filename : string)
    : option (string * (string * string * string)) :=
  match filename with
  | EmptyString => None
  | String c rest =>
      if bool_decide (c = line_feed) then None
      else
        match re_match rest with
        | Some (camera_name, groups) => Some (String c camera_name, groups)
        | None =>
            match tail_match rest with
            | Some groups => Some (String c EmptyString, groups)
            | None => None
            end
        end
  end.

Record datetime : Set := mkDatetime {
  year : Z;
  month : Z;
  day : Z;
  hour : Z;
  minute : Z;
  second : Z
}.

Definition is_leap (y : Z) : bool :=
  (y mod 4 =? 0) && (negb (y mod 100 =? 0) || (y mod 400 =? 0)).

Definition days_in_month (y m : Z) : Z :=
  if m =? 2 then (if is_leap y then 29 else 28)
  else if (m =? 4) || (m =? 6) || (m =? 9) || (m =? 11) then 30
  else 31.

(** [datetime.strptime(t, '%Y%m%d%H%M%S')] on fourteen digits: each field
    takes its full width; [None] stands for the [ValueError] of a field out
    of its range. *)
Definition strptime (t : string) : option datetime :=
  let field (start width : nat) := int_of_digits (String.substring start width t) in
  let d :=
    (mkDatetime (field 0 4) (field 4 2) (field 6 2) (field 8 2) (field 10 2)
                (field 12 2))%nat in
  if (1 <=? year d)
     && (1 <=? month d) && (month d <=? 12)
     && (1 <=? day d) && (day d <=? days_in_month (year d) (month d))
     && (hour d <=? 23) && (minute d <=? 59) && (second d <=? 59)
  then Some d else None.

(** The dictionary [parse_filename] returns. *)
Record parsed : Set := mkParsed {
  camera_name : string;
  sequence : string;
  timestamp : datetime;
  extension : string;
  base_name : string
}.

(** [parse_filename(filename)]; [Ok None] is the return of [None]. *)
Definition parse_filename (filename : string) : result (option parsed) :=
  match re_match filename with
  | Some (camera_name, (sequence, timestamp_str, extension)) =>
      match strptime timestamp_str with
      | Some timestamp =>
          Ok (Some (mkParsed camera_name sequence timestamp extension
                      (camera_name +:+ "_" +:+ sequence +:+ "_"
                         +:+ timestamp_str)))
      | None => Raise ValueError
      end
  | None => Ok None
  end.

(** *** [get_file_tree] *)

(** What [iterdir] finds: a regular file with its size, a directory with
    its entries in the order [iterdir] yields them, or something that is
    neither.  The names within one directory are distinct. *)
#[warnings="-register-all"] Inductive node : Set :=
| File (st_size : Z)
| Dir (entries : list (string * node))
| Special.

(** The value of [files_by_base[base_name]]. *)
Record files : Set := mkFiles {
  jpg : option string;
  mp4 : option string
}.

(** The dictionary [recording_entry]. *)
Record recording : Set := mkRecording {
  entry_base_name : string;
  thumbnail : option string;
  video : string;
  path : string
}.

(** The values of the dictionary [tree]: the list under ["Today"], and the
    dictionary of a camera, from years to months to days to recordings. *)
Definition days : Set := list (string * list recording).
Definition months : Set := list (string * days).
Definition years : Set := list (string * months).

Inductive value : Set :=
| Recordings (l : list recording)
| Camera (y : years).

Definition tree : Set := list (string * value).

(** One round of the loop over the files of a day directory. *)
Definition group_file (files_by_base : list (string * files))
    (entry : string * node) : result (list (string * files)) :=
  match entry with
  | (name, File _) =>
      p ← parse_filename name;
      match p with
      | Some p =>
          let seen := default (mkFiles None None)
                              (get files_by_base (base_name p)) in
          Ok (assign files_by_base (base_name p)
                (if bool_decide (extension p = "jpg")
                 then mkFiles (Some name) (mp4 seen)
                 else mkFiles (jpg seen) (Some name)))
      | None => Ok files_by_base
      end
  | _ => Ok files_by_base
  end.

(** [p.exists() and p.stat().st_size > 0] for the path [p] of a name taken
    from the listing of the directory. *)
Definition has_content (entries : list (string * node)) (name : string)
    : bool :=
  match get entries name with
  | Some (File st_size) => 0 <? st_size
  | _ => false
  end.

(** One round of the loop over [files_by_base.items()]: the entry appended
    to [recordings], if any. *)
Definition to_recording (entries : list (string * node)) (path : string)
    (item : string * files) : option recording :=
  let '(base_name, files) := item in
  match mp4 files with
  | Some video =>
      if has_content entries video then
        let thumbnail :=
          match jpg files with
          | Some image => if has_content entries image then Some image
                          else None
          | None => None
          end in
        Some (mkRecording base_name thumbnail video path)
      else None
  | None => None
  end.

(** [recordings.sort(key=lambda x: x['base_name'])]: a stable sort, strings
    compared by their code points. *)
Fixpoint insert_sorted (e : recording) (l : list recording)
    : list recording :=
  match l with
  | [] => [e]
  | x :: rest =>
      if String.leb (entry_base_name e) (entry_base_name x)
      then e :: x :: rest
      else x :: insert_sorted e rest
  end.

Definition sort (l : list recording) : list recording :=
  fold_right insert_sorted [] l.

(** [tree["Today"].append(recording_entry)] *)
Definition append_today (t : tree) (e : recording) : result tree :=
  match get t "Today" with
  | Some (Recordings l) => Ok (assign t "Today" (Recordings (l ++ [e])))
  | _ => Raise AttributeError
  end.

Section Scan.

(** [today_year], [today_month] and [today_day] *)
Variable today : string * string * string.

(** The body of the loop over the days of a month, for a day directory. *)
Definition scan_day (camera_name year month : string)
    (state : tree * days) (day_dir : string * node) : result (tree * days) :=
  let '(t, d) := state in
  match day_dir with
  | (day, Dir entries) =>
      files_by_base ← for_each group_file entries [];
      let path := camera_name +:+ "/" +:+ year +:+ "/" +:+ month
                  +:+ "/" +:+ day in
      let recordings :=
        omap (to_recording entries path) files_by_base in
      t ← (if bool_decide ((year, month, day) = today)
           then for_each append_today recordings t else Ok t);
      Ok (t, assign d day (sort recordings))
  | _ => Ok (t, d)
  end.

Definition scan_month (camera_name year : string)
    (state : tree * months) (month_dir : string * node)
    : result (tree * months) :=
  let '(t, m) := state in
  match month_dir with
  | (month, Dir entries) =>
      '(t, d) ← for_each (scan_day camera_name year month) entries (t, []);
      Ok (t, assign m month d)
  | _ => Ok (t, m)
  end.

Definition scan_year (camera_name : string)
    (state : tree * years) (year_dir : string * node)
    : result (tree * years) :=
  let '(t, y) := state in
  match year_dir with
  | (year, Dir entries) =>
      '(t, m) ← for_each (scan_month camera_name year) entries (t, []);
      Ok (t, assign y year m)
  | _ => Ok (t, y)
  end.

(** The body of the loop over the recordings directory: the key of the
    camera is set when its directory is entered. *)
Definition scan_camera (t : tree) (camera_dir : string * node)
    : result tree :=
  match camera_dir with
  | (camera_name, Dir entries) =>
      let t := assign t camera_name (Camera []) in
      '(t, y) ← for_each (scan_year camera_name) entries (t, []);
      Ok (assign t camera_name (Camera y))
  | _ => Ok t
  end.

(** [get_file_tree()]; [recordings_path] is what is at [RECORDINGS_PATH],
    if anything. *)
Definition get_file_tree (recordings_path : option node) : result tree :=
  let t := [("Today", Recordings [])] in
  match recordings_path with
  | None => Ok t
  | Some (Dir entries) => for_each scan_camera entries t
  | Some _ => Raise NotADirectoryError
  end.

End Scan.

(** [f"{today.year:04d}"], [f"{today.month:02d}"], [f"{today.day:02d}"] *)
Definition today_of (d : datetime) : string * string * string :=
  (Playlist.zfill 4 (pretty (year d)), Playlist.zfill 2 (pretty (month d)),
   Playlist.zfill 2 (pretty (day d))).

(** The fifth of September 2025, and a recordings directory with one
    camera and one day: a recording with its thumbnail, one without, and a
    video of no bytes. *)
Definition sample_today : string * string * string :=
  today_of (mkDatetime 2025 9 5 18 30 0).

Definition sample_day : list (string * node) :=
  [ ("Driveway_00_20250905173157.jpg", File 20480);
    ("Driveway_00_20250905173157.mp4", File 1048576);
    ("Driveway_00_20250905120000.mp4", File 524288);
    ("Driveway_00_20250905180000.mp4", File 0) ].

Definition sample_days : list (string * node) := [("05", Dir sample_day)].
Definition sample_months : list (string * node) := [("09", Dir sample_days)].
Definition sample_years : list (string * node) :=
  [("2025", Dir sample_months)].
Definition sample_cameras : list (string * node) :=
  [("Driveway", Dir sample_years)].

(** The same day with one more file, named after the thirteenth month. *)
Definition broken_day : list (string * node) :=
  sample_day ++ [("Driveway_00_20251305173157.jpg", File 1)].

Definition broken_cameras : list (string * node) :=
  [("Driveway",
    Dir [("2025", Dir [("09", Dir [("05", Dir broken_day)])])])].

(** A recordings directory whose one camera is named [Today], with the
    recordings of a day a year ago. *)
Definition last_year : list (string * node) := [("2024", Dir sample_months)].
Definition today_cameras : list (string * node) := [("Today", Dir last_year)].

End Recordings.

(** * Part II: the properties *)

Module GateFacts.

Import Gate.

Local Open Scope Z_scope.

(** *** Facts about the gate *)

Lemma tally_app f l1 l2 : tally f (l1 ++ l2) = tally f l1 + tally f l2.
Proof.
  unfold tally. induction l1 as [|p l1 IH]; simpl; [reflexivity|].
  rewrite IH. lia.
Qed.

Lemma tally_insert f l t p q :
  l !! t = Some p -> tally f (<[t := q]> l) = tally f l - f p + f q.
Proof.
  unfold tally. revert t.
  induction l as [|x l IH]; intros [|t] Ht; simpl in *; try discriminate.
  - injection Ht as ->. lia.
  - rewrite (IH t Ht). lia.
Qed.

Lemma tally_nonneg f l : (forall p, 0 <= f p) -> 0 <= tally f l.
Proof.
  intros Hf. unfold tally. induction l as [|p l IH]; simpl; [lia|].
  specialize (Hf p). lia.
Qed.

Lemma held_app l1 l2 : held (l1 ++ l2) = held l1 + held l2.
Proof. apply tally_app. Qed.

Lemma held_insert l t p q :
  l !! t = Some p -> held (<[t := q]> l) = held l - holding p + holding q.
Proof. apply tally_insert. Qed.

Lemma move_inv s t from to c s' :
  move s t from to c = Some s' ->
  threads s !! t = Some from /\ s' = mkState c (<[t := to]> (threads s)).
Proof.
  unfold move. destruct (threads s !! t) as [p|]; [|discriminate].
  destruct (decide (p = from)) as [->|]; [|discriminate].
  intros [= <-]. split; reflexivity.
Qed.

(** Every step keeps the counter equal to the number of threads that have
    incremented and not yet decremented. *)
Lemma step_held a s s' :
  step a s = Some s' ->
  active_transcodes s = held (threads s) ->
  active_transcodes s' = held (threads s').
Proof.
  intros Hstep Hinv. destruct a as [|t|t|t|t|t]; simpl in Hstep.
  - injection Hstep as <-. simpl. rewrite held_app. simpl. lia.
  - destruct (can_start_transcode _);
      apply move_inv in Hstep as [Ht ->]; simpl;
      rewrite (held_insert _ _ _ _ Ht); simpl; lia.
  - apply move_inv in Hstep as [Ht ->]; simpl.
    rewrite (held_insert _ _ _ _ Ht). unfold increment_transcodes. simpl. lia.
  - apply move_inv in Hstep as [Ht ->]; simpl.
    rewrite (held_insert _ _ _ _ Ht). simpl. lia.
  - apply move_inv in Hstep as [Ht ->]; simpl.
    rewrite (held_insert _ _ _ _ Ht). simpl. lia.
  - apply move_inv in Hstep as [Ht ->]; simpl.
    rewrite (held_insert _ _ _ _ Ht). unfold decrement_transcodes. simpl. lia.
Qed.

Lemma run_held schedule : forall s s',
  run schedule s = Some s' ->
  active_transcodes s = held (threads s) ->
  active_transcodes s' = held (threads s').
Proof.
  induction schedule as [|a rest IH]; intros s s' Hrun Hinv; simpl in Hrun.
  - injection Hrun as <-. exact Hinv.
  - destruct (step a s) as [s1|] eqn:Hs; [|discriminate].
    eapply IH; [exact Hrun | eapply step_held; eassumption].
Qed.

Lemma held_nonneg l : 0 <= held l.
Proof. apply tally_nonneg. intros p. destruct p; simpl; lia. Qed.

(** The lower half of the gate invariant holds in every reachable state:
    a decrement is only ever taken by a supervisor whose own job was
    counted before. *)
Lemma active_transcodes_nonneg s : reachable s -> 0 <= active_transcodes s.
Proof.
  intros [schedule Hrun].
  rewrite (run_held schedule initial s Hrun eq_refl). apply held_nonneg.
Qed.

Lemma step_serial_is_step a s s' :
  step_serial a s = Some s' -> step a s = Some s'.
Proof.
  destruct a; simpl; try (intros H; exact H).
  destruct (bool_decide _); [intros H; exact H | discriminate].
Qed.

Lemma step_serial_invariant a s s' :
  step_serial a s = Some s' -> serial_invariant s -> serial_invariant s'.
Proof.
  intros Hstep [Hheld Hroom]. split.
  { eapply step_held; [apply step_serial_is_step|]; eassumption. }
  destruct a as [|t|t|t|t|t]; simpl in Hstep.
  - injection Hstep as <-. simpl. unfold in_flight in *.
    rewrite tally_app. simpl. lia.
  - destruct (bool_decide (in_flight (threads s) = 0)) eqn:Hquiet;
      [|discriminate].
    apply bool_decide_eq_true in Hquiet. unfold can_start_transcode in Hstep.
    destruct (Z.ltb_spec (active_transcodes s) MAX_CONCURRENT_TRANSCODES);
      apply move_inv in Hstep as [Ht ->]; simpl; unfold in_flight in *;
      rewrite (tally_insert _ _ _ _ _ Ht); simpl; lia.
  - apply move_inv in Hstep as [Ht ->]; simpl. unfold in_flight in *.
    rewrite (tally_insert _ _ _ _ _ Ht). unfold increment_transcodes.
    simpl. lia.
  - apply move_inv in Hstep as [Ht ->]; simpl. unfold in_flight in *.
    rewrite (tally_insert _ _ _ _ _ Ht). simpl. lia.
  - apply move_inv in Hstep as [Ht ->]; simpl. unfold in_flight in *.
    rewrite (tally_insert _ _ _ _ _ Ht). simpl. lia.
  - apply move_inv in Hstep as [Ht ->]; simpl. unfold in_flight in *.
    rewrite (tally_insert _ _ _ _ _ Ht). unfold decrement_transcodes.
    simpl. lia.
Qed.

Lemma run_serial_invariant schedule : forall s s',
  run_serial schedule s = Some s' -> serial_invariant s -> serial_invariant s'.
Proof.
  induction schedule as [|a rest IH]; intros s s' Hrun Hinv; simpl in Hrun.
  - injection Hrun as <-. exact Hinv.
  - destruct (step_serial a s) as [s1|] eqn:Hs; [|discriminate].
    eapply IH; [exact Hrun | eapply step_serial_invariant; eassumption].
Qed.

(** X1: when no two calls of [start_hls_vod] overlap between the check and
    the increment, the counter stays within its bounds, whatever the
    supervisors do in between. *)
Lemma serial_admission_bounded schedule s :
  run_serial schedule initial = Some s ->
  0 <= active_transcodes s <= MAX_CONCURRENT_TRANSCODES.
Proof.
  intros Hrun.
  assert (serial_invariant initial) as Hinit
    by (split; [reflexivity | vm_compute; discriminate]).
  destruct (run_serial_invariant schedule initial s Hrun Hinit) as [Hheld Hroom].
  pose proof (held_nonneg (threads s)) as H0.
  pose proof (tally_nonneg preparing (threads s)) as H1.
  unfold in_flight in Hroom.
  assert (0 <= tally preparing (threads s))
    by (apply H1; intros p; destruct p; simpl; lia).
  lia.
Qed.

(** A request whose [Popen] raised keeps its slot for good: no step of any
    thread takes it out of [SpawnFailed], and no supervisor exists to
    decrement for it. *)
Lemma failed_spawn_keeps_slot a s s' t :
  threads s !! t = Some SpawnFailed ->
  step a s = Some s' ->
  threads s' !! t = Some SpawnFailed.
Proof.
  intros Ht Hstep.
  assert (forall u from to c,
            from <> SpawnFailed ->
            move s u from to c = Some s' ->
            threads s' !! t = Some SpawnFailed) as Hmove.
  { intros u from to c Hfrom Hm. apply move_inv in Hm as [Hu ->]. simpl.
    destruct (decide (u = t)) as [->|Hne].
    - rewrite Ht in Hu. injection Hu as <-. contradiction.
    - rewrite list_lookup_insert_ne by exact Hne. exact Ht. }
  destruct a as [|u|u|u|u|u]; simpl in Hstep.
  - injection Hstep as <-. simpl. apply lookup_app_l_Some. exact Ht.
  - destruct (can_start_transcode _); eapply Hmove; try eassumption; discriminate.
  - eapply Hmove; try eassumption; discriminate.
  - eapply Hmove; try eassumption; discriminate.
  - eapply Hmove; try eassumption; discriminate.
  - eapply Hmove; try eassumption; discriminate.
Qed.

(** C1: the upper bound of the gate invariant does not hold for every
    interleaving.  The check and the increment are two separate critical
    sections; four requests admitted on an idle server before the first
    increment drive the counter to 4 > MAX_CONCURRENT_TRANSCODES. *)
Theorem gate_bound_broken_by_interleaving :
  run race_schedule initial
    = Some (mkState 4 [Spawning; Spawning; Spawning; Spawning]) /\
  exists s, reachable s /\ MAX_CONCURRENT_TRANSCODES < active_transcodes s.
Proof.
  split; [reflexivity|].
  exists (mkState 4 [Spawning; Spawning; Spawning; Spawning]).
  split; [exists race_schedule; reflexivity | reflexivity].
Qed.

(** X2: in every state the threads can reach, under any interleaving, the
    counter is the number of calls that have incremented and whose
    supervisor has not yet decremented; it is never negative. *)
Theorem counter_counts_held_slots s :
  reachable s ->
  active_transcodes s = held (threads s) /\ 0 <= active_transcodes s.
Proof.
  intros [schedule Hrun].
  pose proof (run_held schedule initial s Hrun eq_refl) as Hheld.
  split; [exact Hheld|]. rewrite Hheld. apply held_nonneg.
Qed.

Lemma counter_counts_held_slots_witness :
  reachable (mkState 4 [Spawning; Spawning; Spawning; Spawning]) /\
  0 <= active_transcodes (mkState 4 [Spawning; Spawning; Spawning; Spawning]).
Proof.
  assert (reachable (mkState 4 [Spawning; Spawning; Spawning; Spawning]))
    as Hreach by (exists race_schedule; reflexivity).
  split; [exact Hreach|].
  exact (proj2 (counter_counts_held_slots _ Hreach)).
Defined.

Lemma serial_admission_bounded_witness :
  run_serial serial_schedule initial
    = Some (mkState 1 [Cleaned; Supervised]) /\
  0 <= active_transcodes (mkState 1 [Cleaned; Supervised])
    <= MAX_CONCURRENT_TRANSCODES.
Proof.
  assert (run_serial serial_schedule initial
          = Some (mkState 1 [Cleaned; Supervised])) as Hrun by reflexivity.
  split; [exact Hrun|].
  exact (serial_admission_bounded serial_schedule _ Hrun).
Defined.

(** X3: what [transcode_status] reports when starts do not overlap: the
    free slots are between 0 and the maximum and add up with the active
    jobs to the maximum. *)
Theorem status_when_serial schedule s :
  run_serial schedule initial = Some s ->
  let r := Status.transcode_status (active_transcodes s) in
  0 <= Status.available_slots r <= Status.max_concurrent r /\
  Status.active r + Status.available_slots r = Status.max_concurrent r /\
  Status.max_concurrent r = 3.
Proof.
  intros Hrun r.
  assert (serial_invariant initial) as Hinit
    by (split; [reflexivity | vm_compute; discriminate]).
  destruct (run_serial_invariant schedule initial s Hrun Hinit)
    as [Hheld Hroom].
  pose proof (held_nonneg (threads s)) as Hh.
  assert (0 <= in_flight (threads s)) as Hf
    by (apply tally_nonneg; intros p; destruct p; simpl; lia).
  unfold r, Status.transcode_status. cbn.
  unfold MAX_CONCURRENT_TRANSCODES in *. lia.
Qed.

Lemma status_when_serial_witness :
  run_serial serial_schedule initial
    = Some (mkState 1 [Cleaned; Supervised]) /\
  Status.transcode_status 1 = Status.mkReport 1 3 2 /\
  0 <= Status.available_slots (Status.transcode_status 1)
    <= Status.max_concurrent (Status.transcode_status 1).
Proof.
  assert (run_serial serial_schedule initial
          = Some (mkState 1 [Cleaned; Supervised])) as Hrun by reflexivity.
  split; [exact Hrun|]. split; [reflexivity|].
  exact (proj1 (status_when_serial serial_schedule _ Hrun)).
Defined.

(** Under arbitrary interleavings the report can show more active jobs
    than the maximum, but never more free slots than the maximum; the free
    slots are negative exactly when the counter has overshot. *)
Theorem status_when_racing s :
  reachable s ->
  let r := Status.transcode_status (active_transcodes s) in
  Status.available_slots r <= Status.max_concurrent r /\
  (Status.available_slots r < 0
   <-> MAX_CONCURRENT_TRANSCODES < active_transcodes s).
Proof.
  intros [schedule Hrun] r.
  pose proof (run_held schedule initial s Hrun eq_refl) as Hheld.
  pose proof (held_nonneg (threads s)) as Hh.
  unfold r, Status.transcode_status. cbn. lia.
Qed.

Lemma status_when_racing_witness :
  reachable (mkState 4 [Spawning; Spawning; Spawning; Spawning]) /\
  Status.available_slots (Status.transcode_status 4) < 0.
Proof.
  assert (reachable (mkState 4 [Spawning; Spawning; Spawning; Spawning]))
    as Hreach by (exists race_schedule; reflexivity).
  split; [exact Hreach|].
  apply (proj2 (status_when_racing _ Hreach)). reflexivity.
Defined.

End GateFacts.

Module PlaylistFacts.

Import Playlist.

Local Open Scope Q_scope.

(** *** Facts about the playlist arithmetic *)

Lemma Qgtb_true x y : Qgtb x y = true <-> y < x.
Proof.
  unfold Qgtb. rewrite negb_true_iff. split.
  - intros H. apply Qnot_le_lt. intros Hle. apply Qle_bool_iff in Hle. congruence.
  - intros H. destruct (Qle_bool x y) eqn:E; [|reflexivity].
    apply Qle_bool_iff in E. exfalso. apply (Qlt_not_le _ _ H E).
Qed.

Lemma Qgtb_false x y : Qgtb x y = false <-> x <= y.
Proof.
  unfold Qgtb. rewrite negb_false_iff. apply Qle_bool_iff.
Qed.

(** The float [0.01] lies above 1/100, by less than 10^-18. *)
Lemma hundredth_close :
  1#100 < hundredth /\ hundredth < (1#100) + (1#1000000000000000000).
Proof. split; reflexivity. Qed.

Lemma div_segment_time D : D / segment_time == D * (1#2).
Proof. unfold segment_time. field. Qed.

Lemma remainder_bounds D : 0 <= remainder D /\ remainder D < 2.
Proof.
  unfold remainder, num_full.
  pose proof (Qfloor_le (D / segment_time)) as Hlo.
  pose proof (Qlt_floor (D / segment_time)) as Hhi.
  pose proof (div_segment_time D) as Hh.
  rewrite inject_Z_plus in Hhi. change (inject_Z 1) with 1 in Hhi.
  set (h := D / segment_time) in *. clearbody h.
  set (n := inject_Z (Qfloor h)) in *.
  unfold segment_time. split; lra.
Qed.

Lemma num_full_nonneg D : 0 <= D -> (0 <= num_full D)%Z.
Proof.
  intros HD. unfold num_full. rewrite <- (Qfloor_Z 0).
  apply Qfloor_resp_le. pose proof (div_segment_time D) as Hh.
  set (h := D / segment_time) in *. clearbody h. change (inject_Z 0) with 0. lra.
Qed.

Lemma range_succ n : (0 <= n)%Z -> range (n + 1) = range n ++ [n].
Proof.
  intros Hn. unfold range.
  replace (Z.to_nat (n + 1)) with (Z.to_nat n + 1)%nat by lia.
  rewrite seq_app, map_app. simpl. rewrite Z2Nat.id by lia. reflexivity.
Qed.

Lemma map_dur_full D n :
  (0 <= n <= num_full D)%Z ->
  map (dur D) (range n) = repeat segment_time (Z.to_nat n).
Proof.
  intros [Hn Hle]. unfold range.
  assert (forall k m, (Z.of_nat (m + k) <= num_full D)%Z ->
            map (dur D) (map Z.of_nat (seq m k)) = repeat segment_time k) as H.
  { induction k as [|k IH]; intros m Hm; simpl; [reflexivity|].
    f_equal.
    - unfold dur.
      destruct (Z.ltb_spec (Z.of_nat m) (num_full D)); [reflexivity | lia].
    - apply IH. lia. }
  apply H. lia.
Qed.

Lemma segment_durations_shape D :
  0 <= D ->
  segment_durations D
  = repeat segment_time (Z.to_nat (num_full D))
    ++ (if Qgtb (remainder D) hundredth then [remainder D] else []).
Proof.
  intros HD. pose proof (num_full_nonneg D HD) as Hn.
  unfold segment_durations, segment_count.
  destruct (Qgtb (remainder D) hundredth) eqn:E.
  - rewrite range_succ by exact Hn. rewrite map_app, map_dur_full by lia.
    simpl. unfold dur. rewrite Z.ltb_irrefl, E. reflexivity.
  - rewrite Z.add_0_r, map_dur_full by lia. rewrite app_nil_r. reflexivity.
Qed.

Lemma Qsum_app l1 l2 : Qsum (l1 ++ l2) == Qsum l1 + Qsum l2.
Proof.
  unfold Qsum. induction l1 as [|x l1 IH]; simpl; [|rewrite IH]; lra.
Qed.

Lemma Qsum_repeat q n : Qsum (repeat q n) == inject_Z (Z.of_nat n) * q.
Proof.
  unfold Qsum. induction n as [|n IH].
  - change (0 == 0 * q). lra.
  - rewrite Nat2Z.inj_succ. unfold Z.succ. rewrite inject_Z_plus.
    cbn [repeat fold_right]. rewrite IH. change (inject_Z 1) with 1. lra.
Qed.

Lemma inject_Z_between (a b : Z) :
  inject_Z a < inject_Z (b + 1) -> inject_Z (b - 1) < inject_Z a -> a = b.
Proof. rewrite <- !Zlt_Qlt. lia. Qed.

Lemma ceiling_is_floor_plus_one D :
  0 < remainder D -> Qceiling (D / segment_time) = (num_full D + 1)%Z.
Proof.
  intros Hr. pose proof (remainder_bounds D) as [_ Hr2].
  unfold remainder, num_full in *.
  pose proof (Qle_ceiling (D / segment_time)) as Hc1.
  pose proof (Qceiling_lt (D / segment_time)) as Hc2.
  pose proof (div_segment_time D) as Hh.
  set (h := D / segment_time) in *. clearbody h.
  apply inject_Z_between.
  - rewrite !inject_Z_plus. change (inject_Z 1) with 1.
    unfold Z.sub in Hc2. rewrite inject_Z_plus in Hc2.
    change (inject_Z (- (1))) with (- (1)) in Hc2.
    unfold segment_time in *. lra.
  - replace (Qfloor h + 1 - 1)%Z with (Qfloor h) by lia.
    unfold segment_time in *. lra.
Qed.

Lemma ceiling_is_floor D :
  remainder D == 0 -> Qceiling (D / segment_time) = num_full D.
Proof.
  intros Hr. unfold remainder, num_full in *.
  pose proof (Qle_ceiling (D / segment_time)) as Hc1.
  pose proof (Qceiling_lt (D / segment_time)) as Hc2.
  pose proof (div_segment_time D) as Hh.
  set (h := D / segment_time) in *. clearbody h.
  unfold Z.sub in Hc2. rewrite inject_Z_plus in Hc2.
  change (inject_Z (- (1))) with (- (1)) in Hc2.
  apply inject_Z_between.
  - rewrite inject_Z_plus. change (inject_Z 1) with 1.
    unfold segment_time in *. lra.
  - unfold Z.sub. rewrite inject_Z_plus. change (inject_Z (- (1))) with (- (1)).
    unfold segment_time in *. lra.
Qed.

Lemma round_half_even_near q :
  Qabs (inject_Z (round_half_even q) - q) <= 1#2.
Proof.
  unfold round_half_even.
  pose proof (Qfloor_le q) as Hlo. pose proof (Qlt_floor q) as Hhi.
  rewrite inject_Z_plus in Hhi. change (inject_Z 1) with 1 in Hhi.
  set (f := Qfloor q) in *.
  apply Qabs_Qle_condition.
  destruct (Qgtb (1#2) (q - inject_Z f)) eqn:E1.
  { apply Qgtb_true in E1. split; lra. }
  apply Qgtb_false in E1.
  destruct (Qgtb (q - inject_Z f) (1#2)) eqn:E2.
  { apply Qgtb_true in E2. rewrite inject_Z_plus.
    change (inject_Z 1) with 1. split; lra. }
  apply Qgtb_false in E2.
  destruct (Z.even f); [|rewrite inject_Z_plus; change (inject_Z 1) with 1];
    split; lra.
Qed.

Lemma Zsum_app l1 l2 : Zsum (l1 ++ l2) = (Zsum l1 + Zsum l2)%Z.
Proof. unfold Zsum. induction l1 as [|x l1 IH]; simpl; [|rewrite IH]; lia. Qed.

Lemma Zsum_repeat z n : Zsum (repeat z n) = (Z.of_nat n * z)%Z.
Proof.
  unfold Zsum. induction n as [|n IH]; [reflexivity|].
  cbn [repeat fold_right]. rewrite IH. lia.
Qed.

Lemma map_repeat {A B} (f : A -> B) x n : map f (repeat x n) = repeat (f x) n.
Proof. induction n as [|n IH]; simpl; [|rewrite IH]; reflexivity. Qed.

Lemma millis_near q : Qabs (inject_Z (millis q) / 1000 - q) <= 1#2000.
Proof.
  unfold millis. pose proof (round_half_even_near (q * 1000)) as H.
  apply Qabs_Qle_condition in H as [H1 H2].
  set (m := inject_Z (round_half_even (q * 1000))) in *. clearbody m.
  assert (m / 1000 == m * (1#1000)) as -> by field.
  apply Qabs_Qle_condition. split; lra.
Qed.

Lemma split_duration D :
  D == inject_Z (Z.of_nat (Z.to_nat (num_full D))) * segment_time + remainder D
  \/ D < 0.
Proof.
  destruct (Qlt_le_dec D 0) as [Hneg|Hpos]; [right; exact Hneg | left].
  rewrite Z2Nat.id by (apply num_full_nonneg; exact Hpos).
  unfold remainder. lra.
Qed.

(** C3, as the code has it: when the remainder exceeds 0.01 the segment
    durations add up to the total duration exactly, and the values printed
    with three decimals add up to within 0.0005 of it; when the remainder is
    at most 0.01 it is dropped, and both sums fall short of the total
    duration by that remainder.  In all cases the sums are within 0.01 of
    the total duration. *)
Theorem playlist_sum_within_hundredth D :
  0 < D ->
  (hundredth < remainder D ->
     Qsum (segment_durations D) == D /\ Qabs (written_sum D - D) <= 1#2000) /\
  (remainder D <= hundredth ->
     Qsum (segment_durations D) == D - remainder D /\
     written_sum D == D - remainder D) /\
  Qabs (Qsum (segment_durations D) - D) <= hundredth /\
  Qabs (written_sum D - D) <= hundredth.
Proof.
  intros HD.
  assert (0 <= D) as HD0 by lra.
  pose proof (remainder_bounds D) as [Hr0 Hr2].
  destruct (split_duration D) as [Hsplit|Hneg]; [|lra].
  unfold written_sum, written_millis.
  rewrite (segment_durations_shape D HD0).
  rewrite map_app, map_repeat, Zsum_app, Zsum_repeat, Qsum_app, Qsum_repeat.
  change (millis segment_time) with 2000%Z.
  set (n := Z.of_nat (Z.to_nat (num_full D))) in *. clearbody n.
  rewrite inject_Z_plus, inject_Z_mult. change (inject_Z 2000) with 2000.
  unfold segment_time in *.
  set (r := remainder D) in *.
  assert (0 <= hundredth) as Hh0 by discriminate.
  set (c := hundredth) in *.
  destruct (Qgtb r c) eqn:E.
  - apply Qgtb_true in E. pose proof (millis_near r) as Hm.
    apply Qabs_Qle_condition in Hm as [Hm1 Hm2].
    cbn [map Zsum Qsum fold_right]. rewrite Z.add_0_r.
    set (m := inject_Z (millis r)) in *. clearbody m r.
    assert ((inject_Z n * 2000 + m) / 1000 == inject_Z n * 2 + m * (1#1000))
      as -> by field.
    assert (m / 1000 == m * (1#1000)) as Hm3 by field.
    set (m' := m / 1000) in *. clearbody m'.
    assert (1#2000 <= c) as Hc by (unfold c; discriminate).
    clearbody c.
    repeat split; intros; try (apply Qabs_Qle_condition; split); lra.
  - apply Qgtb_false in E. cbn [map Zsum Qsum fold_right].
    change (inject_Z 0) with 0.
    clearbody r c.
    assert ((inject_Z n * 2000 + 0) / 1000 == inject_Z n * 2) as -> by field.
    repeat split; intros; try (apply Qabs_Qle_condition; split); lra.
Qed.

Lemma dur_full D i : (i < num_full D)%Z -> dur D i = segment_time.
Proof.
  intros Hi. unfold dur.
  destruct (Z.ltb_spec i (num_full D)); [reflexivity | lia].
Qed.

(** C2, as the code has it: the number of segments is [ceil (D / T)] when
    the remainder [D - floor (D / T) * T] exceeds 0.01, and [floor (D / T)]
    when it is at most 0.01, which includes the exact multiples of [T], where
    it is also [D / T]; every segment below [floor (D / T)] lasts [T], and
    the trailing one, when there is one, lasts the remainder. *)
Theorem segment_count_by_remainder D :
  0 < D ->
  (hundredth < remainder D ->
     segment_count D = Qceiling (D / segment_time)) /\
  (remainder D <= hundredth ->
     segment_count D = Qfloor (D / segment_time)) /\
  (remainder D == 0 ->
     segment_count D = Qceiling (D / segment_time) /\
     inject_Z (segment_count D) == D / segment_time) /\
  (forall i, (0 <= i < Qfloor (D / segment_time))%Z -> dur D i = segment_time) /\
  segment_durations D
  = repeat segment_time (Z.to_nat (Qfloor (D / segment_time)))
    ++ (if Qgtb (remainder D) hundredth
        then [D - inject_Z (Qfloor (D / segment_time)) * segment_time]
        else []).
Proof.
  intros HD. assert (0 <= D) as HD0 by lra.
  split; [|split; [|split; [|split]]].
  - intros Hr. unfold segment_count.
    rewrite (proj2 (Qgtb_true _ _) Hr). symmetry.
    apply ceiling_is_floor_plus_one.
    pose proof (proj1 hundredth_close). lra.
  - intros Hr. unfold segment_count.
    rewrite (proj2 (Qgtb_false _ _) Hr). unfold num_full. lia.
  - intros Hz.
    assert (remainder D <= hundredth) as Hr
      by (pose proof (proj1 hundredth_close); lra).
    split.
    + unfold segment_count.
      rewrite (proj2 (Qgtb_false _ _) Hr), Z.add_0_r. symmetry.
      apply ceiling_is_floor. exact Hz.
    + unfold segment_count.
      rewrite (proj2 (Qgtb_false _ _) Hr), Z.add_0_r.
      pose proof (div_segment_time D) as Hh. unfold remainder, num_full in Hz |- *.
      set (h := D / segment_time) in *. clearbody h.
      unfold segment_time in *. lra.
  - intros i [_ Hi]. apply dur_full. exact Hi.
  - apply (segment_durations_shape D HD0).
Qed.

(** C2 as stated does not hold: 4.0078125 seconds is no multiple of 2, yet
    two segments are written where [ceil (D / T)] is three. *)
Lemma segment_count_not_ceiling :
  0 < 513#128 /\
  ~ remainder (513#128) == 0 /\
  segment_count (513#128) = 2%Z /\
  Qceiling ((513#128) / segment_time) = 3%Z /\
  segment_count (513#128) <> Qceiling ((513#128) / segment_time) /\
  segment_durations (513#128) = [2; 2].
Proof. repeat split; intros H; discriminate H. Qed.

Lemma segment_count_by_remainder_witness :
  0 < 11#2 /\
  hundredth < remainder (11#2) /\
  segment_count (11#2) = Qceiling ((11#2) / segment_time) /\
  segment_durations (11#2) = [2; 2; 3#2].
Proof.
  assert (0 < 11#2) as HD by reflexivity.
  assert (hundredth < remainder (11#2)) as Hr by reflexivity.
  destruct (segment_count_by_remainder (11#2) HD) as (Hceil & _ & _ & _ & Hshape).
  split; [exact HD|]. split; [exact Hr|]. split; [exact (Hceil Hr)|].
  rewrite Hshape. reflexivity.
Defined.

(** The scenario of a source of 5.5 seconds: three entries of 2.000, 2.000
    and 1.500 seconds, a target duration of 2, and the end marker. *)
Example playlist_of_five_and_a_half_seconds :
  synthesize (Some (11#2))
  = Some [ "#EXTM3U";
           "#EXT-X-VERSION:7";
           "#EXT-X-TARGETDURATION:2";
           "#EXT-X-MEDIA-SEQUENCE:0";
           "#EXT-X-PLAYLIST-TYPE:VOD";
           "#EXT-X-INDEPENDENT-SEGMENTS";
           "#EXT-X-MAP:URI=" +:+ String dquote "init.mp4" +:+ String dquote "";
           "#EXTINF:2.000,"; "seg_00000.m4s";
           "#EXTINF:2.000,"; "seg_00001.m4s";
           "#EXTINF:1.500,"; "seg_00002.m4s";
           "#EXT-X-ENDLIST" ].
Proof. reflexivity. Qed.

(** C3 as stated does not hold: for 4.0078125 seconds the durations in the
    playlist add up to 4 seconds.  The 1/128 of a second that is missing is
    the dropped remainder, not a rounding error: every operation is exact on
    this input, and the gap exceeds even the precision of the printed
    values. *)
Lemma playlist_sum_misses_remainder :
  0 < 513#128 /\
  Qsum (segment_durations (513#128)) == 4 /\
  written_sum (513#128) == 4 /\
  (513#128) - Qsum (segment_durations (513#128)) == 1#128 /\
  ~ Qabs (Qsum (segment_durations (513#128)) - (513#128)) <= 1#1000 /\
  ~ Qabs (written_sum (513#128) - (513#128)) <= 1#1000.
Proof.
  repeat split; try reflexivity; intros H; vm_compute in H; apply H;
    reflexivity.
Qed.

Lemma playlist_sum_within_hundredth_witness :
  0 < 11#2 /\
  hundredth < remainder (11#2) /\
  Qsum (segment_durations (11#2)) == 11#2 /\
  Qabs (written_sum (11#2) - (11#2)) <= 1#2000.
Proof.
  assert (0 < 11#2) as HD by reflexivity.
  assert (hundredth < remainder (11#2)) as Hr by reflexivity.
  split; [exact HD|]. split; [exact Hr|].
  exact (proj1 (playlist_sum_within_hundredth (11#2) HD) Hr).
Defined.

(** *** More on the playlist *)

Lemma target_duration_two D : target_duration D = 2%Z.
Proof.
  unfold target_duration. pose proof (remainder_bounds D) as [Hr0 Hr2].
  rewrite <- (Qceiling_Z 2). apply Qceiling_comp.
  change (inject_Z 2) with segment_time.
  destruct (Qgtb (remainder D) 0); apply Q.max_l; unfold segment_time; lra.
Qed.

Lemma dur_cases D i :
  dur D i = segment_time \/
  (dur D i = remainder D /\ hundredth < remainder D).
Proof.
  unfold dur. destruct (i <? num_full D)%Z; [left; reflexivity|].
  destruct (Qgtb (remainder D) hundredth) eqn:E; [|left; reflexivity].
  right. split; [reflexivity | apply Qgtb_true; exact E].
Qed.

(** X4: the target duration written into the header is 2 for every source,
    and no segment of the playlist lasts longer than it or is empty: every
    duration lies above 0.01 and at most at 2 seconds. *)
Theorem target_duration_covers_segments D :
  target_duration D = 2%Z /\
  lines D !! 2%nat = Some "#EXT-X-TARGETDURATION:2" /\
  forall i, hundredth < dur D i /\ dur D i <= inject_Z (target_duration D).
Proof.
  split; [apply target_duration_two|]. split.
  - unfold lines. cbn [app lookup list_lookup]. rewrite target_duration_two.
    reflexivity.
  - intros i. rewrite target_duration_two.
    pose proof (remainder_bounds D) as [Hr0 Hr2].
    pose proof hundredth_close as [_ Hh].
    destruct (dur_cases D i) as [-> | [-> Hr]].
    + unfold segment_time. change (inject_Z 2) with 2. split; lra.
    + change (inject_Z 2) with 2. split; lra.
Qed.

(** X5: the total duration splits into whole segments and a remainder as
    in a Euclidean division by 2: the remainder lies in [0, 2), and the
    number of whole segments is not negative for a duration that is not. *)
Theorem duration_division D :
  D == inject_Z (num_full D) * segment_time + remainder D /\
  0 <= remainder D /\ remainder D < segment_time /\
  (0 <= D -> (0 <= num_full D)%Z) /\
  (num_full D <= segment_count D <= num_full D + 1)%Z.
Proof.
  pose proof (remainder_bounds D) as [Hr0 Hr2].
  split; [unfold remainder; lra|]. split; [exact Hr0|].
  split; [exact Hr2|]. split; [apply num_full_nonneg|].
  unfold segment_count. destruct (Qgtb _ _); lia.
Qed.

Lemma duration_division_witness :
  0 <= 11#2 /\ (0 <= num_full (11#2))%Z /\ num_full (11#2) = 2%Z /\
  remainder (11#2) == 3#2.
Proof.
  assert (0 <= 11#2) as HD by discriminate.
  split; [exact HD|].
  split; [exact (proj1 (proj2 (proj2 (proj2 (duration_division (11#2))))) HD)|].
  split; reflexivity.
Defined.

Lemma range_length n : length (range n) = Z.to_nat n.
Proof. unfold range. rewrite length_map, length_seq. reflexivity. Qed.

Lemma range_lookup n i :
  (i < Z.to_nat n)%nat -> range n !! i = Some (Z.of_nat i).
Proof.
  intros Hi. unfold range. rewrite list_lookup_fmap, lookup_seq_lt by exact Hi.
  reflexivity.
Qed.

Lemma pairs_lookup (f : Z -> list string) (a b : Z -> string) l :
  (forall z, f z = [a z; b z]) ->
  forall i z, l !! i = Some z ->
    concat (map f l) !! (2 * i)%nat = Some (a z) /\
    concat (map f l) !! (2 * i + 1)%nat = Some (b z).
Proof.
  intros Hf. induction l as [|x l IH]; intros i z Hi; [discriminate|].
  cbn [map concat]. rewrite Hf. destruct i as [|i].
  - injection Hi as ->. split; reflexivity.
  - replace (2 * S i)%nat with (S (S (2 * i))) by lia.
    replace (S (S (2 * i)) + 1)%nat with (S (S (2 * i + 1))) by lia.
    apply (IH i z Hi).
Qed.

Lemma pairs_length (f : Z -> list string) (a b : Z -> string) l :
  (forall z, f z = [a z; b z]) ->
  length (concat (map f l)) = (2 * length l)%nat.
Proof.
  intros Hf. induction l as [|x l IH]; [reflexivity|].
  cbn [map concat]. rewrite Hf, length_app, IH. simpl. lia.
Qed.

(** X6: the layout of the playlist: seven header lines, then for each
    segment index from 0 a line with its duration and a line with its file
    name, then the end marker and nothing after it. *)
Theorem playlist_layout D :
  let n := Z.to_nat (segment_count D) in
  length (lines D) = (8 + 2 * n)%nat /\
  lines D !! 0%nat = Some "#EXTM3U" /\
  lines D !! 6%nat
    = Some ("#EXT-X-MAP:URI=" +:+ String dquote "init.mp4"
                              +:+ String dquote "") /\
  last (lines D) = Some "#EXT-X-ENDLIST" /\
  forall i, (i < n)%nat ->
    lines D !! (7 + 2 * i)%nat
      = Some ("#EXTINF:" +:+ fmt3 (dur D (Z.of_nat i)) +:+ ",") /\
    lines D !! (8 + 2 * i)%nat
      = Some ("seg_" +:+ fmt05 (Z.of_nat i) +:+ ".m4s").
Proof.
  intros n. unfold lines.
  set (body := concat (map (segment_lines D) (range (segment_count D)))).
  assert (length body = (2 * n)%nat) as Hlen.
  { unfold body.
    rewrite (pairs_length _ (fun i => "#EXTINF:" +:+ fmt3 (dur D i) +:+ ",")
               (fun i => "seg_" +:+ fmt05 i +:+ ".m4s"))
      by reflexivity.
    rewrite range_length. reflexivity. }
  split; [rewrite !length_app, Hlen; simpl; lia|].
  split; [reflexivity|]. split; [reflexivity|].
  split; [rewrite app_assoc; apply last_snoc|].
  intros i Hi.
  destruct (pairs_lookup (segment_lines D)
              (fun i => "#EXTINF:" +:+ fmt3 (dur D i) +:+ ",")
              (fun i => "seg_" +:+ fmt05 i +:+ ".m4s")
              (range (segment_count D)) (fun z => eq_refl) i (Z.of_nat i)
              (range_lookup _ _ Hi)) as [Ha Hb].
  fold body in Ha, Hb.
  split.
  - rewrite lookup_app_r by (simpl; lia).
    replace (7 + 2 * i - _)%nat with (2 * i)%nat by (simpl; lia).
    rewrite lookup_app_l by (rewrite Hlen; lia). exact Ha.
  - rewrite lookup_app_r by (simpl; lia).
    replace (8 + 2 * i - _)%nat with (2 * i + 1)%nat by (simpl; lia).
    rewrite lookup_app_l by (rewrite Hlen; lia). exact Hb.
Qed.

Lemma playlist_layout_witness :
  (2 < Z.to_nat (segment_count (11#2)))%nat /\
  lines (11#2) !! 11%nat = Some "#EXTINF:1.500," /\
  lines (11#2) !! 12%nat = Some "seg_00002.m4s".
Proof.
  assert (2 < Z.to_nat (segment_count (11#2)))%nat as Hi
    by (vm_compute; lia).
  split; [exact Hi|].
  exact (proj2 (proj2 (proj2 (proj2 (playlist_layout (11#2))))) 2%nat Hi).
Defined.

Lemma num_full_short D : 0 <= D -> D < segment_time -> num_full D = 0%Z.
Proof.
  intros H0 H2. unfold num_full.
  pose proof (Qfloor_le (D / segment_time)) as Hlo.
  pose proof (Qlt_floor (D / segment_time)) as Hhi.
  pose proof (div_segment_time D) as Hh.
  set (h := D / segment_time) in *. clearbody h.
  unfold segment_time in *.
  assert (inject_Z (Qfloor h) < inject_Z 1) as Hlt
    by (change (inject_Z 1) with 1; lra).
  assert (inject_Z 0 < inject_Z (Qfloor h + 1)) as Hgt
    by (change (inject_Z 0) with 0; lra).
  rewrite <- Zlt_Qlt in Hlt, Hgt. lia.
Qed.

(** X7: a source shorter than one segment.  When it lasts at most 0.01
    seconds the published playlist names no segment at all: the header is
    followed by the end marker.  When it lasts more, up to 2 seconds, the
    playlist has the single segment 0 with the whole duration. *)
Theorem short_sources D :
  0 < D -> D < segment_time ->
  (D <= hundredth ->
     segment_durations D = [] /\
     synthesize (Some D)
       = Some [ "#EXTM3U";
                "#EXT-X-VERSION:7";
                "#EXT-X-TARGETDURATION:2";
                "#EXT-X-MEDIA-SEQUENCE:0";
                "#EXT-X-PLAYLIST-TYPE:VOD";
                "#EXT-X-INDEPENDENT-SEGMENTS";
                "#EXT-X-MAP:URI=" +:+ String dquote "init.mp4"
                                  +:+ String dquote "";
                "#EXT-X-ENDLIST" ]) /\
  (hundredth < D ->
     segment_count D = 1%Z /\
     exists r, segment_durations D = [r] /\ r == D).
Proof.
  intros H0 H2.
  assert (num_full D = 0%Z) as Hn by (apply num_full_short; lra).
  assert (remainder D == D) as Hr
    by (unfold remainder; rewrite Hn; change (inject_Z 0) with 0; lra).
  split.
  - intros Hsmall.
    assert (Qgtb (remainder D) hundredth = false) as Hg
      by (apply Qgtb_false; lra).
    assert (segment_count D = 0%Z) as Hc
      by (unfold segment_count; rewrite Hn, Hg; reflexivity).
    split; [unfold segment_durations; rewrite Hc; reflexivity|].
    unfold synthesize. rewrite (proj2 (Qgtb_true D 0) H0).
    unfold lines. rewrite Hc, target_duration_two. reflexivity.
  - intros Hbig.
    assert (Qgtb (remainder D) hundredth = true) as Hg
      by (apply Qgtb_true; lra).
    assert (segment_count D = 1%Z) as Hc
      by (unfold segment_count; rewrite Hn, Hg; reflexivity).
    split; [exact Hc|].
    exists (remainder D). split; [|exact Hr].
    unfold segment_durations. rewrite Hc. cbn [range Z.to_nat Pos.to_nat
      Pos.iter_op seq map]. unfold dur. rewrite Hn, Hg. reflexivity.
Qed.

Lemma short_sources_witness :
  0 < 1#200 /\ 1#200 < segment_time /\ 1#200 <= hundredth /\
  segment_durations (1#200) = [].
Proof.
  assert (0 < 1#200) as H0 by reflexivity.
  assert (1#200 < segment_time) as H2 by reflexivity.
  assert (1#200 <= hundredth) as Hs by discriminate.
  split; [exact H0|]. split; [exact H2|]. split; [exact Hs|].
  exact (proj1 (proj1 (short_sources (1#200) H0 H2) Hs)).
Defined.

(** The three decimals of a printed duration: the printed value is
    within half a thousandth of the duration, and a duration that is a
    whole number of thousandths is printed as it is. *)
Theorem printed_thousandths :
  (forall q, Qabs (inject_Z (millis q) / 1000 - q) <= 1#2000) /\
  (forall z, millis (inject_Z z / 1000) = z).
Proof.
  split; [exact millis_near|].
  intros z. unfold millis, round_half_even.
  assert (inject_Z z / 1000 * 1000 == inject_Z z) as Hz by field.
  rewrite (Qfloor_comp _ _ Hz), Qfloor_Z.
  assert (Qgtb (1#2) (inject_Z z / 1000 * 1000 - inject_Z z) = true) as ->
    by (apply Qgtb_true; rewrite Hz; lra).
  reflexivity.
Qed.

End PlaylistFacts.

Module PathsFacts.

Import Text Paths.

(** *** Facts about prefixes *)

Lemma startswith_refl s : startswith s s = true.
Proof.
  unfold startswith. induction s as [|c s IH]; simpl; [reflexivity|].
  destruct (Ascii.ascii_dec c c) as [_|Hne]; [exact IH | contradiction].
Qed.

Lemma startswith_app s a b :
  startswith s (a +:+ b) = true -> startswith s a = true.
Proof.
  unfold startswith. revert s. induction a as [|c a IH]; intros s H.
  - destruct s; reflexivity.
  - destruct s as [|d s]; simpl in *; [discriminate|].
    destruct (Ascii.ascii_dec c d); [apply IH; exact H | discriminate].
Qed.

(** A canonical path that does not begin with the string of the root is
    neither the root nor below it. *)
Lemma not_prefixed_escapes root p :
  startswith p root = false -> escapes root p.
Proof.
  intros Hnp [->|Hin].
  - rewrite startswith_refl in Hnp. discriminate.
  - apply startswith_app in Hin. congruence.
Qed.

End PathsFacts.

Module JobsFacts.

Import Text Paths Http Jobs.

Local Open Scope Z_scope.

Section Handlers.

Variables (RECORDINGS_PATH HLS_PATH cwd : string).

(** *** Facts about the handlers *)



Lemma probe_failed_none r : probe_failed r -> probe_stream r = None.
Proof.
  intros [-> | (rc & out & -> & [Hrc | ->])]; [reflexivity | |].
  - simpl. destruct (Z.eqb_spec rc 0); [contradiction | reflexivity].
  - simpl. destruct (rc =? 0); reflexivity.
Qed.

(** C8: when the gate refuses, [start_hls_vod] returns [None] at once and
    leaves the world as it found it: no job id is drawn, no directory made,
    no prober or encoder started, the counter and the registry untouched. *)
Theorem refusal_has_no_effect o input_path fast_mode playlist_type w :
  Gate.MAX_CONCURRENT_TRANSCODES <= active_transcodes w ->
  let result := start_hls_vod HLS_PATH o input_path fast_mode playlist_type w in
  result = (Returned None, w) /\
  active_transcodes result.2 = active_transcodes w /\
  hls_jobs result.2 = hls_jobs w /\
  dirs result.2 = dirs w /\
  spawned result.2 = spawned w /\
  supervisors result.2 = supervisors w.
Proof.
  intros Hfull result.
  assert (result = (Returned None, w)) as ->; [|repeat split].
  unfold result, start_hls_vod, Gate.can_start_transcode.
  destruct (Z.ltb_spec (active_transcodes w) Gate.MAX_CONCURRENT_TRANSCODES);
    [lia | reflexivity].
Qed.

(** An admitted call whose [Popen] succeeds returns the job, whatever the
    probes answered; the encoder is started with the arguments the copy
    decision selects. *)
Lemma start_hls_vod_admitted o input_path fast_mode playlist_type w :
  active_transcodes w < Gate.MAX_CONCURRENT_TRANSCODES ->
  popen_ok o = true ->
  let job_id := uuid4_hex o in
  let job_dir := join HLS_PATH job_id in
  let v := probe_stream (probe_v o) in
  let a := probe_stream (probe_a o) in
  let result := start_hls_vod HLS_PATH o input_path fast_mode playlist_type w in
  result.1 = Returned (Some (job_id, job_id +:+ "/index.m3u8")) /\
  last (spawned result.2)
    = Some (encoder_cmd input_path job_dir playlist_type
              (can_copy_video (field v "codec_name") (field v "pix_fmt"))
              (can_copy_audio (field a "codec_name"))
              fast_mode) /\
  hls_jobs result.2 !! job_id = Some (mkJob (length (procs w)) job_dir) /\
  active_transcodes result.2 = active_transcodes w + 1.
Proof.
  intros Hroom Hpopen job_id job_dir v a result.
  unfold result, start_hls_vod, Gate.can_start_transcode.
  destruct (Z.ltb_spec (active_transcodes w) Gate.MAX_CONCURRENT_TRANSCODES);
    [|lia].
  rewrite Hpopen. cbn [negb fst snd]. fold job_id job_dir v a.
  split; [reflexivity|].
  destruct (Playlist.synthesize _) as [ls|]; [destruct (write_ok o)|];
    (split; [apply last_snoc | split; [apply lookup_insert_eq | reflexivity]]).
Qed.

Lemma terminate_then_kill_frame t p w :
  active_transcodes (terminate_then_kill t p w) = active_transcodes w /\
  hls_jobs (terminate_then_kill t p w) = hls_jobs w /\
  dirs (terminate_then_kill t p w) = dirs w /\
  files (terminate_then_kill t p w) = files w.
Proof. destruct t; repeat split. Qed.

Lemma terminate_then_kill_stops t p w :
  (p < length (procs w))%nat ->
  procs (terminate_then_kill t p w) !! p = Some Exited /\
  (p, SIGTERM) ∈ signals (terminate_then_kill t p w).
Proof.
  intros Hp. split.
  - destruct t; simpl; apply list_lookup_insert_eq; exact Hp.
  - destruct t; simpl; set_solver.
Qed.

(** What the supervisor leaves behind, however the encoder ended: one
    decrement, no registry entry, no working directory. *)
Lemma finalize_cleanup_effect t p job_id job_dir w :
  let w' := finalize_cleanup t p job_id job_dir w in
  active_transcodes w' = active_transcodes w - 1 /\
  hls_jobs w' = delete job_id (hls_jobs w) /\
  job_dir ∉ dirs w'.
Proof.
  intros w'. unfold w', finalize_cleanup.
  set (wa := match procs w !! p, t with
             | Some Running, ExitsInTime =>
                 with_procs w (<[p := Exited]> (procs w))
             | Some Running, _ => terminate_then_kill t p w
             | _, _ => w
             end).
  assert (active_transcodes wa = active_transcodes w
          /\ hls_jobs wa = hls_jobs w) as [Hc Hj].
  { unfold wa. destruct (procs w !! p) as [[|]|]; destruct t; split; reflexivity. }
  set (wb := with_jobs _ _).
  assert (active_transcodes wb = active_transcodes w - 1) as Hcb
    by (unfold wb; simpl; rewrite Hc; reflexivity).
  assert (hls_jobs wb = delete job_id (hls_jobs w)) as Hjb
    by (unfold wb; simpl; rewrite Hj; reflexivity).
  destruct (bool_decide (job_dir ∈ dirs wb)) eqn:Hin.
  - split; [exact Hcb|]. split; [exact Hjb|].
    cbn [rmtree with_fs dirs]. apply not_elem_of_difference. right.
    apply elem_of_singleton. reflexivity.
  - split; [exact Hcb|]. split; [exact Hjb|].
    apply bool_decide_eq_false in Hin. exact Hin.
Qed.

(** An admitted call whose [Popen] raises leaves the counter incremented,
    the directory in place and no supervisor to undo either. *)
Lemma spawn_failure_keeps_slot o input_path fast_mode playlist_type w :
  active_transcodes w < Gate.MAX_CONCURRENT_TRANSCODES ->
  popen_ok o = false ->
  let result := start_hls_vod HLS_PATH o input_path fast_mode playlist_type w in
  result.1 = Raised /\
  active_transcodes result.2 = active_transcodes w + 1 /\
  supervisors result.2 = supervisors w /\
  hls_jobs result.2 = hls_jobs w /\
  join HLS_PATH (uuid4_hex o) ∈ dirs result.2.
Proof.
  intros Hroom Hpopen result.
  unfold result, start_hls_vod, Gate.can_start_transcode.
  destruct (Z.ltb_spec (active_transcodes w) Gate.MAX_CONCURRENT_TRANSCODES);
    [|lia].
  rewrite Hpopen. cbn [negb fst snd].
  destruct (Playlist.synthesize _) as [ls|]; [destruct (write_ok o)|];
    (split; [reflexivity|]; split; [reflexivity|]; split; [reflexivity|];
     split; [reflexivity|]; cbn; apply elem_of_union_l, elem_of_singleton;
     reflexivity).
Qed.

(** What the first cancellation of a registered job does. *)
Lemma stop_registered t job_id w j :
  hls_jobs w !! job_id = Some j ->
  let w1 := (stop_hls_job t job_id w).2 in
  (stop_hls_job t job_id w).1 = NoContent /\
  hls_jobs w1 = delete job_id (hls_jobs w) /\
  (procs w !! proc j = Some Running ->
     procs w1 !! proc j = Some Exited /\ (proc j, SIGTERM) ∈ signals w1) /\
  (dir j <> "" -> dir j ∉ dirs w1) /\
  (dir j <> "" -> dir j ∈ dirs w ->
     forall f, startswith f (dir j +:+ "/") = true -> files w1 !! f = None) /\
  active_transcodes w1 = active_transcodes w.
Proof.
  intros Hj w1. unfold w1, stop_hls_job. rewrite Hj. cbn [fst snd].
  set (wa := with_jobs w (delete job_id (hls_jobs w))).
  set (wb := match procs wa !! proc j with
             | Some Running => terminate_then_kill t (proc j) wa
             | _ => wa
             end).
  assert (active_transcodes wb = active_transcodes w
          /\ hls_jobs wb = delete job_id (hls_jobs w)
          /\ dirs wb = dirs w /\ files wb = files w) as (Hc & Hjobs & Hd & Hf).
  { unfold wb. destruct (procs wa !! proc j) as [[|]|]; [|repeat split ..].
    destruct (terminate_then_kill_frame t (proc j) wa) as (-> & -> & -> & ->).
    repeat split. }
  split; [reflexivity|].
  split; [destruct (_ && _); exact Hjobs|].
  split; [|split; [|split]].
  - intros Hrun. change (procs wa) with (procs w) in wb. unfold wb.
    rewrite Hrun.
    assert (proc j < length (procs wa))%nat as Hlt
      by (apply lookup_lt_Some in Hrun; exact Hrun).
    destruct (terminate_then_kill_stops t (proc j) wa Hlt) as [He Hs].
    destruct (_ && _); split; assumption.
  - intros Hne. rewrite (bool_decide_eq_false_2 _ Hne). cbn [negb andb].
    destruct (bool_decide (dir j ∈ dirs wb)) eqn:Hin.
    + cbn [rmtree with_fs dirs]. apply not_elem_of_difference. right.
      apply elem_of_singleton. reflexivity.
    + apply bool_decide_eq_false in Hin. exact Hin.
  - intros Hne Hin f Hf'. rewrite (bool_decide_eq_false_2 _ Hne).
    rewrite Hd, (bool_decide_eq_true_2 _ Hin). cbn [negb andb rmtree with_fs files].
    apply map_lookup_filter_None. right. intros x _. cbn [fst].
    rewrite Hf'. discriminate.
  - destruct (_ && _); exact Hc.
Qed.

(** Cancelling a job that is not registered answers 204 and does nothing. *)
Lemma stop_absent t job_id w :
  hls_jobs w !! job_id = None -> stop_hls_job t job_id w = (NoContent, w).
Proof. intros Hj. unfold stop_hls_job. rewrite Hj. reflexivity. Qed.

(** C7, as the code has it: the first cancellation of a registered job
    signals the encoder if it runs, removes the job from the registry and
    deletes its directory; the second finds no job and leaves the whole
    world untouched (no signal, no directory, counter and registry as they
    were); so does a cancellation that comes after the job's own supervisor
    has cleaned up.  All of them answer with the same empty 204: a job
    already gone is not an error, and the answer does not tell whether the
    job was found. *)
Theorem cancel_twice t1 t2 job_id w j :
  hls_jobs w !! job_id = Some j ->
  let first := stop_hls_job t1 job_id w in
  let second := stop_hls_job t2 job_id first.2 in
  first.1 = NoContent /\
  hls_jobs first.2 !! job_id = None /\
  (procs w !! proc j = Some Running ->
     procs first.2 !! proc j = Some Exited /\
     (proc j, SIGTERM) ∈ signals first.2) /\
  (dir j <> "" -> dir j ∉ dirs first.2) /\
  (dir j <> "" -> dir j ∈ dirs w ->
     forall f, startswith f (dir j +:+ "/") = true -> files first.2 !! f = None) /\
  second.1 = NoContent /\
  second.2 = first.2 /\
  signals second.2 = signals first.2 /\
  dirs second.2 = dirs first.2 /\
  active_transcodes second.2 = active_transcodes first.2 /\
  (forall t, let cleaned := finalize_cleanup t (proc j) job_id (dir j) w in
     stop_hls_job t2 job_id cleaned = (NoContent, cleaned)).
Proof.
  intros Hj first second.
  assert (forall t, let cleaned := finalize_cleanup t (proc j) job_id (dir j) w in
            stop_hls_job t2 job_id cleaned = (NoContent, cleaned)) as Hcleaned.
  { intros t cleaned. apply stop_absent.
    destruct (finalize_cleanup_effect t (proc j) job_id (dir j) w)
      as (_ & Hjobs & _).
    fold cleaned in Hjobs. rewrite Hjobs. apply lookup_delete_eq. }
  destruct (stop_registered t1 job_id w j Hj) as (Hr & Hjobs & Hp & Hd & Hf & _).
  fold first in Hr, Hjobs, Hp, Hd, Hf.
  assert (hls_jobs first.2 !! job_id = None) as Hgone
    by (rewrite Hjobs; apply lookup_delete_eq).
  assert (second = (NoContent, first.2)) as ->
    by (apply stop_absent; exact Hgone).
  split; [exact Hr|]. split; [exact Hgone|]. split; [exact Hp|].
  split; [exact Hd|]. split; [exact Hf|].
  repeat (split; [reflexivity|]). exact Hcleaned.
Qed.

(** The world an admitted call with a working [Popen] leaves behind, field
    by field. *)
Lemma started_world o input_path fast_mode playlist_type w :
  active_transcodes w < Gate.MAX_CONCURRENT_TRANSCODES ->
  popen_ok o = true ->
  let job_id := uuid4_hex o in
  let job_dir := join HLS_PATH job_id in
  let started :=
    (start_hls_vod HLS_PATH o input_path fast_mode playlist_type w).2 in
  active_transcodes started = active_transcodes w + 1 /\
  hls_jobs started = <[job_id := mkJob (length (procs w)) job_dir]> (hls_jobs w) /\
  dirs started = {[ job_dir ]} ∪ dirs w /\
  (files started = files w \/
   exists text, files started = <[join job_dir "index.m3u8" := text]> (files w)) /\
  procs started = procs w ++ [Running] /\
  signals started = signals w /\
  supervisors started = supervisors w ++ [(length (procs w), job_id, job_dir)] /\
  length (spawned started) = (length (spawned w) + 4)%nat.
Proof.
  intros Hroom Hpopen job_id job_dir started.
  unfold started, start_hls_vod, Gate.can_start_transcode.
  destruct (Z.ltb_spec (active_transcodes w) Gate.MAX_CONCURRENT_TRANSCODES);
    [|lia].
  rewrite Hpopen. cbn [negb fst snd]. fold job_id job_dir.
  destruct (Playlist.synthesize _) as [ls|]; [destruct (write_ok o)|];
    cbn; rewrite ?length_app; cbn;
    (split; [reflexivity|]); (split; [reflexivity|]);
    (split; [reflexivity|]);
    (split; [first [left; reflexivity | right; eexists; reflexivity]|]);
    (split; [reflexivity|]); (split; [reflexivity|]);
    (split; [reflexivity | lia]).
Qed.

Lemma startswith_append a b : startswith (a +:+ b) a = true.
Proof.
  unfold startswith. induction a as [|c a IH]; simpl.
  - destruct b; reflexivity.
  - destruct (Ascii.ascii_dec c c) as [_|Hne]; [exact IH | contradiction].
Qed.

Lemma startswith_append2 a b c : startswith (a +:+ b +:+ c) (a +:+ b) = true.
Proof.
  induction a as [|x a IH].
  { change (startswith (b +:+ c) b = true). apply startswith_append. }
  unfold startswith in *. simpl.
  destruct (Ascii.ascii_dec x x) as [_|Hne]; [exact IH | contradiction].
Qed.

Lemma join_plain a b :
  a <> "" -> endswith_char a "/" = false -> startswith b "/" = false ->
  join a b = a +:+ "/" +:+ b.
Proof.
  intros Ha Hend Hb. unfold join. rewrite Hb, Hend.
  rewrite (bool_decide_eq_false_2 _ Ha). reflexivity.
Qed.

(** X8: a start followed by the cleanup of its supervisor gives the slot,
    the registry, the directories and the files back as they were: for a
    fresh job id whose directory did not exist, only the process table and
    the logs remember the job. *)
Theorem start_then_cleanup o input_path fast_mode playlist_type t w :
  let job_id := uuid4_hex o in
  let job_dir := join HLS_PATH job_id in
  active_transcodes w < Gate.MAX_CONCURRENT_TRANSCODES ->
  popen_ok o = true ->
  hls_jobs w !! job_id = None ->
  job_dir ∉ dirs w ->
  job_dir <> "" -> endswith_char job_dir "/" = false ->
  (forall f, startswith f (job_dir +:+ "/") = true -> files w !! f = None) ->
  let started :=
    (start_hls_vod HLS_PATH o input_path fast_mode playlist_type w).2 in
  let cleaned :=
    finalize_cleanup t (length (procs w)) job_id job_dir started in
  active_transcodes started = active_transcodes w + 1 /\
  active_transcodes cleaned = active_transcodes w /\
  hls_jobs cleaned = hls_jobs w /\
  dirs cleaned = dirs w /\
  files cleaned = files w /\
  procs cleaned = procs w ++ [Exited].
Proof.
  intros job_id job_dir Hroom Hpopen Hfresh Hnodir Hne Hend Hnofile
         started cleaned.
  destruct (started_world o input_path fast_mode playlist_type w Hroom Hpopen)
    as (Hc & Hj & Hd & Hf & Hp & Hs & _).
  fold job_id job_dir started in Hc, Hj, Hd, Hf, Hp, Hs.
  assert (procs started !! length (procs w) = Some Running) as Hrun
    by (rewrite Hp; apply list_lookup_middle; reflexivity).
  assert (<[length (procs w) := Exited]> (procs started)
          = procs w ++ [Exited]) as Hexit.
  { rewrite Hp, insert_app_r_alt by lia.
    rewrite Nat.sub_diag. reflexivity. }
  assert (job_dir ∈ dirs started) as Hin
    by (rewrite Hd; apply elem_of_union_l, elem_of_singleton; reflexivity).
  assert (filter (fun kv : string * string =>
                    startswith kv.1 (job_dir +:+ "/") = false)
                 (files started) = files w) as Hfiles.
  { assert (join job_dir "index.m3u8" = job_dir +:+ "/" +:+ "index.m3u8")
      as Hpl by (apply join_plain; [exact Hne | exact Hend | reflexivity]).
    assert (filter (fun kv : string * string =>
                      startswith kv.1 (job_dir +:+ "/") = false)
                   (files w) = files w) as Hid.
    { apply map_filter_id. intros f x Hfx.
      change (startswith f (job_dir +:+ "/") = false).
      destruct (startswith f (job_dir +:+ "/")) eqn:E; [|reflexivity].
      rewrite (Hnofile f E) in Hfx. discriminate. }
    destruct Hf as [-> | [text ->]]; [exact Hid|].
    rewrite map_filter_insert_False.
    - rewrite delete_id; [exact Hid|].
      apply Hnofile. rewrite Hpl. apply startswith_append2.
    - change (startswith (join job_dir "index.m3u8") (job_dir +:+ "/")
              <> false).
      rewrite Hpl, startswith_append2. discriminate. }
  assert (dirs started ∖ {[ job_dir ]} = dirs w) as Hdirs.
  { rewrite Hd. apply set_eq. intros d.
    rewrite elem_of_difference, elem_of_union, elem_of_singleton. split.
    - intros [[Heq | Hdw] Hneq]; [contradiction | exact Hdw].
    - intros Hdw. split; [right; exact Hdw|].
      intros ->. exact (Hnodir Hdw). }
  split; [exact Hc|].
  unfold cleaned, finalize_cleanup, terminate_then_kill,
    Gate.decrement_transcodes.
  rewrite Hrun.
  destruct t;
    cbn [with_jobs with_counter with_procs log_signal active_transcodes
         hls_jobs dirs files procs signals spawned supervisors];
    rewrite (bool_decide_eq_true_2 _ Hin);
    cbn [rmtree with_fs with_jobs with_counter with_procs log_signal
         active_transcodes hls_jobs dirs files procs signals spawned
         supervisors];
    (split; [lia|]);
    (split; [rewrite Hj, delete_insert_eq; apply delete_id; exact Hfresh|]);
    (split; [exact Hdirs|]);
    (split; [exact Hfiles | exact Hexit]).
Qed.

(** X9: a cancellation followed by the supervisor of the same job releases
    the slot once, and the supervisor, finding the encoder exited, sends no
    further signal and touches no process. *)
Theorem cancel_then_cleanup t1 t2 job_id w j :
  hls_jobs w !! job_id = Some j ->
  procs w !! proc j = Some Running ->
  let stopped := (stop_hls_job t1 job_id w).2 in
  let cleaned := finalize_cleanup t2 (proc j) job_id (dir j) stopped in
  active_transcodes stopped = active_transcodes w /\
  active_transcodes cleaned = active_transcodes w - 1 /\
  signals cleaned = signals stopped /\
  procs cleaned = procs stopped /\
  procs cleaned !! proc j = Some Exited /\
  hls_jobs cleaned = delete job_id (hls_jobs w) /\
  (dir j ∉ dirs cleaned).
Proof.
  intros Hj Hrun stopped cleaned.
  destruct (stop_registered t1 job_id w j Hj)
    as (_ & Hjobs & Hp & _ & _ & Hc).
  fold stopped in Hjobs, Hp, Hc.
  destruct (Hp Hrun) as [Hexit _].
  destruct (finalize_cleanup_effect t2 (proc j) job_id (dir j) stopped)
    as (Hc2 & Hj2 & Hd2).
  fold cleaned in Hc2, Hj2, Hd2.
  assert (signals cleaned = signals stopped /\ procs cleaned = procs stopped)
    as [Hsig Hprocs].
  { unfold cleaned, finalize_cleanup. rewrite Hexit.
    destruct (bool_decide _); split; reflexivity. }
  split; [exact Hc|]. split; [lia|]. split; [exact Hsig|].
  split; [exact Hprocs|]. split; [rewrite Hprocs; exact Hexit|].
  split; [rewrite Hj2, Hjobs; apply delete_delete_eq | exact Hd2].
Qed.

Lemma spawn_failure_leaves_world o input_path fast_mode playlist_type w :
  active_transcodes w < Gate.MAX_CONCURRENT_TRANSCODES ->
  popen_ok o = false ->
  let result := start_hls_vod HLS_PATH o input_path fast_mode playlist_type w in
  result.1 = Raised /\
  active_transcodes result.2 = active_transcodes w + 1 /\
  supervisors result.2 = supervisors w /\
  hls_jobs result.2 = hls_jobs w.
Proof.
  intros Hroom Hpopen result.
  unfold result, start_hls_vod, Gate.can_start_transcode.
  destruct (Z.ltb_spec (active_transcodes w) Gate.MAX_CONCURRENT_TRANSCODES);
    [|lia].
  rewrite Hpopen. cbn [negb fst snd].
  destruct (Playlist.synthesize _) as [ls|]; [destruct (write_ok o)|];
    repeat split.
Qed.

Lemma start_refused o input_path fast_mode playlist_type w :
  Gate.MAX_CONCURRENT_TRANSCODES <= active_transcodes w ->
  start_hls_vod HLS_PATH o input_path fast_mode playlist_type w
  = (Returned None, w).
Proof.
  intros Hfull. unfold start_hls_vod, Gate.can_start_transcode.
  destruct (Z.ltb_spec (active_transcodes w) Gate.MAX_CONCURRENT_TRANSCODES);
    [lia | reflexivity].
Qed.

(** X10: what [api_hls] answers for a path that exists and passes the root
    test.  With the gate full: 503 'HLS queue full' and an untouched world.
    With a free slot and an encoder that cannot be launched: the exception
    leaves the handler, the slot stays taken and no job is registered.
    Otherwise: the playlist URL [/api/files/<job>/index.m3u8], the probed
    duration and the job id, after five child processes (three probes, the
    encoder with the preset chosen by [quality], and a last duration probe),
    with the job registered and the slot taken. *)
Theorem api_hls_answers snapshot o duration_run quality file_path w :
  let full_path := join RECORDINGS_PATH file_path in
  let job_id := uuid4_hex o in
  let job_dir := join HLS_PATH job_id in
  let fast_mode := bool_decide (default "fast" quality = "fast") in
  let v := probe_stream (probe_v o) in
  let a := probe_stream (probe_a o) in
  snapshot full_path = true ->
  startswith (abspath cwd full_path) (abspath cwd RECORDINGS_PATH) = true ->
  let result :=
    api_hls RECORDINGS_PATH HLS_PATH cwd snapshot o duration_run quality
            file_path w in
  (Gate.MAX_CONCURRENT_TRANSCODES <= active_transcodes w ->
     result = (JsonError 503 "HLS queue full", w)) /\
  (active_transcodes w < Gate.MAX_CONCURRENT_TRANSCODES ->
   popen_ok o = false ->
     result.1 = Unhandled /\
     active_transcodes result.2 = active_transcodes w + 1 /\
     hls_jobs result.2 = hls_jobs w /\
     supervisors result.2 = supervisors w) /\
  (active_transcodes w < Gate.MAX_CONCURRENT_TRANSCODES ->
   popen_ok o = true ->
     result.1 = JsonPlayback ("/api/files/" +:+ job_id +:+ "/index.m3u8")
                             (total_duration duration_run) job_id /\
     active_transcodes result.2 = active_transcodes w + 1 /\
     hls_jobs result.2 !! job_id = Some (mkJob (length (procs w)) job_dir) /\
     length (spawned result.2) = (length (spawned w) + 5)%nat /\
     spawned result.2 !! (length (spawned w) + 3)%nat
       = Some (encoder_cmd full_path job_dir "event"
                 (can_copy_video (field v "codec_name") (field v "pix_fmt"))
                 (can_copy_audio (field a "codec_name"))
                 fast_mode) /\
     last (spawned result.2) = Some (ffprobe_video_duration full_path)).
Proof.
  intros full_path job_id job_dir fast_mode v a Hex Hpre result.
  unfold result, api_hls. fold full_path. rewrite Hex, Hpre.
  cbn [negb]. fold fast_mode.
  split; [|split].
  - intros Hfull. rewrite (start_refused _ _ _ _ _ Hfull). reflexivity.
  - intros Hroom Hpopen.
    destruct (spawn_failure_leaves_world o full_path fast_mode "event" w
                Hroom Hpopen) as (Hr & Hc & Hs & Hj).
    destruct (start_hls_vod HLS_PATH o full_path fast_mode "event" w)
      as [out w'].
    cbn [fst snd] in *. subst out. cbn [fst snd].
    split; [reflexivity|]. split; [exact Hc|]. split; [exact Hj | exact Hs].
  - intros Hroom Hpopen.
    destruct (start_hls_vod_admitted o full_path fast_mode "event" w
                Hroom Hpopen) as (Hres & Hcmd & Hjob & Hcnt).
    destruct (started_world o full_path fast_mode "event" w Hroom Hpopen)
      as (_ & _ & _ & _ & _ & _ & _ & Hlen).
    fold job_id job_dir v a in Hres, Hcmd, Hjob.
    destruct (start_hls_vod HLS_PATH o full_path fast_mode "event" w)
      as [out w'].
    cbn [fst snd] in *. subst out. cbn [fst snd].
    cbn [log_spawn spawned active_transcodes hls_jobs].
    split; [reflexivity|]. split; [exact Hcnt|]. split; [exact Hjob|].
    split; [rewrite length_app, Hlen; simpl; lia|].
    split; [|apply last_snoc].
    rewrite lookup_app_l by (rewrite Hlen; lia).
    rewrite last_lookup in Hcmd. rewrite Hlen in Hcmd.
    replace (Nat.pred (length (spawned w) + 4)) with (length (spawned w) + 3)%nat
      in Hcmd by lia.
    exact Hcmd.
Qed.

End Handlers.

(** *** The handlers on concrete worlds *)

(** On an idle server three starts in a row are admitted and the fourth is
    refused; once the supervisor of one of the jobs has cleaned up, a start
    is admitted again. *)
Example three_admitted_fourth_refused :
  let start id w :=
    start_hls_vod default_hls (oracle_with id) "/recordings/cam/clip.mp4"
                  true "event" w in
  let w3 := (start "c3" (start "b2" (start "a1" idle).2).2).2 in
  let w2 := finalize_cleanup ExitsInTime 1 "b2" "/tmp/reodash_hls/b2" w3 in
  active_transcodes w3 = 3 /\
  start "d4" w3 = (Returned None, w3) /\
  active_transcodes w2 = 2 /\
  (start "d4" w2).1 = Returned (Some ("d4", "d4/index.m3u8")).
Proof. vm_compute. repeat split. Qed.

Lemma refusal_has_no_effect_witness :
  Gate.MAX_CONCURRENT_TRANSCODES <= active_transcodes saturated /\
  start_hls_vod default_hls failing_probes "/recordings/cam/clip.mp4"
                true "event" saturated
  = (Returned None, saturated).
Proof.
  assert (Gate.MAX_CONCURRENT_TRANSCODES <= active_transcodes saturated)
    as Hfull by (vm_compute; discriminate).
  split; [exact Hfull|].
  exact (proj1 (refusal_has_no_effect default_hls failing_probes
                  "/recordings/cam/clip.mp4" true "event" saturated Hfull)).
Defined.

Lemma cancel_twice_witness :
  hls_jobs one_job !! "5f0c2a" = Some (mkJob 0 "/tmp/reodash_hls/5f0c2a") /\
  let first := stop_hls_job ExitsOnTerminate "5f0c2a" one_job in
  hls_jobs first.2 !! "5f0c2a" = None /\
  stop_hls_job NeedsKill "5f0c2a" first.2 = (NoContent, first.2).
Proof.
  assert (hls_jobs one_job !! "5f0c2a"
          = Some (mkJob 0 "/tmp/reodash_hls/5f0c2a")) as Hj
    by (vm_compute; reflexivity).
  split; [exact Hj|]. intros first.
  destruct (cancel_twice ExitsOnTerminate NeedsKill "5f0c2a" one_job _ Hj)
    as (_ & Hgone & _ & _ & _ & Hr2 & Hw2 & _).
  split; [exact Hgone|].
  fold first in Hr2, Hw2.
  destruct (stop_hls_job NeedsKill "5f0c2a" first.2) as [r2 w2].
  simpl in Hr2, Hw2. subst. reflexivity.
Defined.

(** C7 as stated does not hold: the second cancellation does not report the
    job absent.  The first call, which found the job, and the second, which
    did not, return the same response. *)
Lemma cancel_reports_alike :
  let first := stop_hls_job ExitsOnTerminate "5f0c2a" one_job in
  let second := stop_hls_job ExitsOnTerminate "5f0c2a" first.2 in
  hls_jobs one_job !! "5f0c2a" = Some (mkJob 0 "/tmp/reodash_hls/5f0c2a") /\
  hls_jobs first.2 !! "5f0c2a" = None /\
  first.1 = NoContent /\ second.1 = NoContent /\
  status_of first.1 = 204 /\ status_of second.1 = 204 /\
  ~ first.1 <> second.1.
Proof.
  vm_compute. repeat split; intros H; apply H; reflexivity.
Qed.

(** *** More on supervisors, cancellations and starts *)

Lemma spawn_failure_keeps_slot_witness :
  active_transcodes idle < Gate.MAX_CONCURRENT_TRANSCODES /\
  popen_ok popen_fails = false /\
  let result :=
    start_hls_vod default_hls popen_fails "/recordings/cam/clip.mp4"
                  true "event" idle in
  result.1 = Raised /\ active_transcodes result.2 = 1 /\
  supervisors result.2 = [].
Proof.
  assert (active_transcodes idle < Gate.MAX_CONCURRENT_TRANSCODES) as Hroom
    by reflexivity.
  split; [exact Hroom|]. split; [reflexivity|].
  destruct (spawn_failure_keeps_slot default_hls popen_fails
              "/recordings/cam/clip.mp4" true "event" idle Hroom eq_refl)
    as (Hr & Hc & Hs & _).
  split; [exact Hr|]. split; [exact Hc | exact Hs].
Defined.

(** X11: whatever way the encoder ended, the supervisor decrements the
    counter by exactly one, removes its own job from the registry and no
    other, removes its own directory and no other, leaves the encoder
    exited if it ran, and starts nothing; it sends a signal only when the
    encoder did not exit within the wait. *)
Theorem supervisor_cleans_once t p job_id job_dir w :
  let w' := finalize_cleanup t p job_id job_dir w in
  active_transcodes w' = active_transcodes w - 1 /\
  hls_jobs w' !! job_id = None /\
  (forall other, other <> job_id ->
     hls_jobs w' !! other = hls_jobs w !! other) /\
  (job_dir ∉ dirs w') /\
  (forall d, d <> job_dir -> (d ∈ dirs w' <-> d ∈ dirs w)) /\
  (procs w !! p = Some Running -> procs w' !! p = Some Exited) /\
  (t = ExitsInTime \/ procs w !! p <> Some Running ->
     signals w' = signals w) /\
  spawned w' = spawned w /\
  supervisors w' = supervisors w.
Proof.
  intros w'. unfold w', finalize_cleanup, terminate_then_kill,
    Gate.decrement_transcodes.
  assert (procs w !! p = Some Running -> p < length (procs w))%nat as Hlt
    by (intros Hp; apply lookup_lt_Some in Hp; exact Hp).
  destruct (procs w !! p) as [[|]|] eqn:Hp; destruct t;
    cbn [with_jobs with_counter with_procs log_signal active_transcodes
         hls_jobs dirs files procs signals spawned supervisors];
    destruct (bool_decide (job_dir ∈ dirs w)) eqn:Hin;
    cbn [rmtree with_fs with_jobs with_counter with_procs log_signal
         active_transcodes hls_jobs dirs files procs signals spawned
         supervisors];
    (split; [reflexivity|]);
    (split; [apply lookup_delete_eq|]);
    (split; [intros other Hne; apply lookup_delete_ne; congruence|]);
    (split; [first [ apply bool_decide_eq_false in Hin; exact Hin
                   | apply not_elem_of_difference; right;
                     apply elem_of_singleton; reflexivity ]|]);
    (split; [intros d Hne;
             first [ reflexivity
                   | rewrite elem_of_difference, elem_of_singleton; tauto ]|]);
    (split; [first [ discriminate
                   | intros _; apply list_lookup_insert_eq; apply Hlt;
                     reflexivity ]|]);
    (split; [first [ intros _; reflexivity
                   | intros [Ht | Hn];
                     [discriminate Ht | contradiction Hn; reflexivity] ]|]);
    split; reflexivity.
Qed.

Lemma start_then_cleanup_witness :
  hls_jobs idle !! "5f0c2a" = None /\
  let cleaned :=
    finalize_cleanup ExitsInTime 0 "5f0c2a" "/tmp/reodash_hls/5f0c2a" one_job in
  active_transcodes one_job = 1 /\
  active_transcodes cleaned = 0 /\
  hls_jobs cleaned = ∅ /\ dirs cleaned = ∅ /\ files cleaned = ∅.
Proof.
  split; [reflexivity|].
  assert (join default_hls (uuid4_hex failing_probes) ∉ dirs idle) as Hnodir
    by apply not_elem_of_empty.
  assert (join default_hls (uuid4_hex failing_probes) <> "") as Hne
    by discriminate.
  assert (forall f,
            startswith f (join default_hls (uuid4_hex failing_probes) +:+ "/")
              = true -> files idle !! f = None) as Hnofile
    by (intros f _; apply lookup_empty).
  destruct (start_then_cleanup default_hls failing_probes
              "/recordings/cam/clip.mp4" true "event" ExitsInTime idle
              eq_refl eq_refl eq_refl Hnodir Hne eq_refl Hnofile)
    as (H1 & H2 & H3 & H4 & H5 & _).
  repeat split; assumption.
Defined.

Lemma cancel_then_cleanup_witness :
  hls_jobs one_job !! "5f0c2a" = Some (mkJob 0 "/tmp/reodash_hls/5f0c2a") /\
  procs one_job !! 0%nat = Some Running /\
  let stopped := (stop_hls_job NeedsKill "5f0c2a" one_job).2 in
  let cleaned :=
    finalize_cleanup ExitsInTime 0 "5f0c2a" "/tmp/reodash_hls/5f0c2a" stopped in
  active_transcodes cleaned = 0 /\
  signals cleaned = signals stopped.
Proof.
  assert (hls_jobs one_job !! "5f0c2a"
          = Some (mkJob 0 "/tmp/reodash_hls/5f0c2a")) as Hj
    by (vm_compute; reflexivity).
  assert (procs one_job !! 0%nat = Some Running) as Hrun by reflexivity.
  split; [exact Hj|]. split; [exact Hrun|].
  destruct (cancel_then_cleanup NeedsKill ExitsInTime "5f0c2a" one_job _
              Hj Hrun) as (_ & Hc & Hs & _).
  split; [exact Hc | exact Hs].
Defined.

Lemma api_hls_answers_witness :
  let exists_ := fun p : string => bool_decide (p = "/recordings/cam/clip.mp4") in
  exists_ (join default_recordings "cam/clip.mp4") = true /\
  startswith (abspath default_cwd (join default_recordings "cam/clip.mp4"))
             (abspath default_cwd default_recordings) = true /\
  api_hls default_recordings default_hls default_cwd exists_ failing_probes
          (Exit 0 (Float (11#2))) None "cam/clip.mp4" saturated
  = (JsonError 503 "HLS queue full", saturated) /\
  (api_hls default_recordings default_hls default_cwd exists_ failing_probes
           (Exit 0 (Float (11#2))) None "cam/clip.mp4" idle).1
  = JsonPlayback "/api/files/5f0c2a/index.m3u8" (Some (11#2)) "5f0c2a".
Proof.
  intros exists_.
  assert (exists_ (join default_recordings "cam/clip.mp4") = true) as Hex
    by reflexivity.
  assert (startswith
            (abspath default_cwd (join default_recordings "cam/clip.mp4"))
            (abspath default_cwd default_recordings) = true) as Hpre
    by reflexivity.
  split; [exact Hex|]. split; [exact Hpre|]. split.
  - apply (proj1 (api_hls_answers default_recordings default_hls default_cwd
                    exists_ failing_probes (Exit 0 (Float (11#2))) None
                    "cam/clip.mp4" saturated Hex Hpre)).
    vm_compute. discriminate.
  - apply (proj2 (proj2 (api_hls_answers default_recordings default_hls
                           default_cwd exists_ failing_probes
                           (Exit 0 (Float (11#2))) None
                           "cam/clip.mp4" idle Hex Hpre)));
      reflexivity.
Defined.

End JobsFacts.

(** ** The copy decision *)

Module ProbeFacts.

Import Text Paths Http Jobs Probe.

Local Open Scope Z_scope.




Lemma truthy_dict members :
  truthy (JDict members) = negb (bool_decide (members = ∅)).
Proof.
  cbn. f_equal. apply bool_decide_ext, map_size_empty_iff.
Qed.



(** The decision on fields that hold text. *)
Lemma copy_flags_text v a v_codec v_pix a_codec :
  field v "codec_name" = Some (JString v_codec) ->
  field v "pix_fmt" = Some (JString v_pix) ->
  field a "codec_name" = Some (JString a_codec) ->
  copy_flags v a
  = Some (can_copy_video v_codec v_pix, can_copy_audio a_codec).
Proof.
  intros Hc Hp Ha. unfold copy_flags. rewrite Hc, Hp, Ha. cbn.
  unfold can_copy_video, can_copy_audio.
  destruct (bool_decide (lower v_codec = "h264")); reflexivity.
Qed.


Section Handlers.

Variable HLS_PATH : string.



(** *** The outputs of [Jobs] *)

Lemma probe_stream_typed r :
  probe_stream (of_run r)
  = match Jobs.probe_stream r with
    | Some s => of_stream s
    | None => JNull
    end.
Proof.
  destruct r as [|rc out]; [reflexivity|]. cbn.
  destruct (rc =? 0); [|reflexivity]. cbn.
  destruct out as [|[streams|]]; [reflexivity | | reflexivity].
  cbn. rewrite lookup_singleton_eq. cbn.
  destruct streams as [|s rest]; reflexivity.
Qed.

Lemma field_typed v key :
  field (match v with Some s => of_stream s | None => JNull end) key
  = Some (JString (Jobs.field v key)).
Proof.
  destruct v as [s|]; [|reflexivity].
  unfold of_stream, field, Jobs.field. rewrite truthy_dict.
  destruct (decide (s = ∅)) as [->|Hne].
  - rewrite fmap_empty, !bool_decide_eq_true_2 by reflexivity. reflexivity.
  - rewrite (bool_decide_eq_false_2 (s = ∅)) by exact Hne.
    rewrite bool_decide_eq_false_2
      by (intros He; apply fmap_empty_inv in He; contradiction).
    cbn. rewrite lookup_fmap.
    destruct (s !! key) as [text|]; [|reflexivity]. cbn.
    destruct (decide (text = "")) as [->|Ht]; [reflexivity|].
    rewrite bool_decide_eq_false_2 by exact Ht. reflexivity.
Qed.

(** On the outputs of [Jobs] nothing raises, and the function is the one of
    [Jobs]. *)
Lemma start_hls_vod_typed (o : Jobs.oracle) input_path fast_mode
    playlist_type w :
  start_hls_vod HLS_PATH (of_oracle o) input_path fast_mode playlist_type w
  = Jobs.start_hls_vod HLS_PATH o input_path fast_mode playlist_type w.
Proof.
  unfold start_hls_vod, Jobs.start_hls_vod.
  destruct (negb (Gate.can_start_transcode (active_transcodes w)));
    [reflexivity|].
  cbn [of_oracle uuid4_hex probe_v probe_a probe_duration write_ok popen_ok].
  rewrite (copy_flags_text _ _
             (Jobs.field (Jobs.probe_stream (Jobs.probe_v o)) "codec_name")
             (Jobs.field (Jobs.probe_stream (Jobs.probe_v o)) "pix_fmt")
             (Jobs.field (Jobs.probe_stream (Jobs.probe_a o)) "codec_name"))
    by (rewrite probe_stream_typed; apply field_typed).
  reflexivity.
Qed.


End Handlers.

(** *** The decision on concrete probes *)



End ProbeFacts.

Module ServerFacts.

Import Text Paths Range Http Jobs Server PathsFacts.

Local Open Scope Z_scope.

(** *** The chunks of a partial response *)

(** With nothing to refuse, the generator ends by itself: the chunks hold
    between 1 and 8192 bytes and are, together, the first [remaining] bytes
    of the data. *)
Lemma generate_buffered_plain fuel : forall data remaining,
  0 <= remaining -> (length data < fuel)%nat ->
  exists chunks,
    generate_buffered fuel data remaining = (chunks, Exhausted) /\
    concat chunks = take (Z.to_nat remaining) data /\
    Forall (fun c => 0 < Z.of_nat (length c) <= 8192) chunks.
Proof.
  induction fuel as [|fuel IH]; intros data remaining Hrem Hfuel; [lia|].
  cbn [generate_buffered].
  destruct (Z.eqb_spec remaining 0) as [->|Hne].
  { exists []. split; [reflexivity|]. split; [reflexivity | constructor]. }
  unfold read_buffered.
  replace (Z.min 8192 remaining <? -1) with false
    by (symmetry; apply Z.ltb_ge; lia).
  replace (Z.min 8192 remaining <? 0) with false
    by (symmetry; apply Z.ltb_ge; lia).
  set (n := Z.to_nat (Z.min 8192 remaining)).
  assert (0 < n)%nat as Hn by lia.
  destruct (take n data) as [|b chunk] eqn:Hchunk.
  - exists []. split; [reflexivity|]. split; [|constructor].
    destruct data as [|b data]; [rewrite take_nil; reflexivity|].
    destruct n; [lia | discriminate Hchunk].
  - rewrite <- Hchunk.
    assert (length (take n data) = n `min` length data)%nat as Hlen
      by apply length_take.
    assert (1 <= length (take n data))%nat as Hpos1
      by (rewrite Hchunk; simpl; lia).
    destruct (IH (drop (length (take n data)) data)
                 (remaining - Z.of_nat (length (take n data))))
      as (chunks & Hrun & Hcat & Hall);
      [lia | rewrite length_drop; lia|].
    rewrite Hrun. exists (take n data :: chunks).
    split; [reflexivity|]. split; [|constructor; [lia | exact Hall]].
    cbn [concat]. rewrite Hcat.
    destruct (decide (n <= length data)%nat) as [Hle|Hgt].
    + replace (length (take n data)) with n by lia.
      rewrite take_take_drop. f_equal. lia.
    + rewrite (take_ge data n) by lia.
      rewrite drop_all, take_nil, app_nil_r.
      rewrite take_ge by lia. reflexivity.
Qed.

Lemma generate_original_concat bytes byte_start byte_end :
  byte_start <= byte_end + 1 ->
  stream_original bytes byte_start byte_end
  = (generate_original bytes byte_start byte_end, Exhausted) /\
  concat (generate_original bytes byte_start byte_end)
  = take (Z.to_nat (byte_end - byte_start + 1))
         (drop (Z.to_nat byte_start) bytes) /\
  Forall (fun c => 0 < Z.of_nat (length c) <= 8192)
         (generate_original bytes byte_start byte_end).
Proof.
  intros Hle. unfold generate_original, stream_original. cbn zeta.
  destruct (generate_buffered_plain
              (S (length (drop (Z.to_nat byte_start) bytes)))
              (drop (Z.to_nat byte_start) bytes)
              (byte_end - byte_start + 1))
    as (chunks & Hrun & Hcat & Hall); [lia | lia|].
  rewrite Hrun. cbn [fst]. split; [reflexivity|]. split; assumption.
Qed.


Section ServeFile.

Variables (RECORDINGS_PATH HLS_PATH cwd : string).
Variable path_exists : nat -> string -> bool.
Variable content : string -> list ascii.

(** *** Facts about [serve_file] *)

Lemma persistent_later p :
  persistent path_exists p -> forall a b, (a <= b)%nat ->
  path_exists a p = true -> path_exists b p = true.
Proof.
  intros Hp a b Hab Ha. induction Hab as [|b Hab IH]; [exact Ha|].
  apply Hp, IH.
Qed.

Lemma wait_for_final p :
  persistent path_exists p -> forall n tick,
  path_exists (wait_for path_exists n tick p) p = path_exists (tick + n) p.
Proof.
  intros Hp. induction n as [|n IH]; intros tick; cbn [wait_for].
  - rewrite Nat.add_0_r. reflexivity.
  - destruct (path_exists tick p) eqn:Hnow.
    + rewrite (Hp _ Hnow). symmetry.
      apply (persistent_later p Hp tick); [lia | exact Hnow].
    + rewrite IH. f_equal. lia.
Qed.

Lemma search_empty : search "" = None.
Proof. reflexivity. Qed.

Lemma get_range_requests_match h g1 g2 file_size :
  search h = Some (g1, g2) ->
  get_range_requests (Some h) file_size
  = Some (int_of_digits g1,
          Z.min (if bool_decide (g2 = "") then file_size - 1
                 else int_of_digits g2)
                (file_size - 1)).
Proof.
  intros Hs. unfold get_range_requests.
  destruct (bool_decide (h = "")) eqn:He.
  - apply bool_decide_eq_true in He. subst h. discriminate Hs.
  - rewrite Hs. reflexivity.
Qed.

Lemma wait_for_le p :
  forall n tick, (wait_for path_exists n tick p <= tick + n)%nat.
Proof.
  induction n as [|n IH]; intros tick; cbn [wait_for]; [lia|].
  destruct (path_exists tick p); [lia|]. specialize (IH (S tick)). lia.
Qed.

(** [n] sleeps of 50 ms last [n / 20] seconds. *)
Lemma polling_time (n : nat) :
  (n <= 1200)%nat -> (inject_Z (Z.of_nat n) * poll_interval <= 60)%Q.
Proof.
  intros Hn. unfold poll_interval.
  assert (inject_Z (Z.of_nat n) <= inject_Z 1200)%Q as H
    by (rewrite <- Zle_Qle; lia).
  change (inject_Z 1200) with 1200%Q in H. lra.
Qed.

(** What [serve_file] answers for a segment or an init fragment under the
    HLS root: the second test of existence, made when the loop is left,
    decides. *)
Lemma serve_file_segment range_header file_path :
  let p := abspath cwd (join HLS_PATH file_path) in
  startswith p (abspath cwd HLS_PATH) = true ->
  extension file_path = "m4s" \/ extension file_path = "mp4"
    \/ extension file_path = "ts" ->
  serve_file RECORDINGS_PATH HLS_PATH cwd path_exists content
    range_header file_path
  = if negb (path_exists (wait_for path_exists 1200 0 p) p) then Abort 404
    else SendFile p (segment_mimetype (extension file_path)) false.
Proof.
  intros p Hroot Hext. unfold serve_file. fold p. rewrite Hroot.
  unfold serve_hls.
  destruct Hext as [-> | [-> | ->]]; reflexivity.
Qed.

(** The loop is left at the first look that finds the file: that look and
    the ones before it have been made, and each of the ones before it was
    followed by a sleep. *)
Lemma wait_for_first_hit p t :
  path_exists t p = true ->
  (forall u, (u < t)%nat -> path_exists u p = false) ->
  forall n tick, (tick <= t < tick + n)%nat ->
  wait_for path_exists n tick p = S t /\
  (sleeps path_exists n tick p + tick = t)%nat.
Proof.
  intros Hhit Hbefore. induction n as [|n IH]; intros tick Ht; [lia|].
  cbn [wait_for sleeps].
  destruct (decide (tick = t)) as [->|Hne].
  - rewrite Hhit. split; reflexivity.
  - rewrite (Hbefore tick) by lia.
    destruct (IH (S tick)) as [Hw Hs]; [lia|]. split; [exact Hw | lia].
Qed.

(** A loop that never finds the file makes all its looks and sleeps after
    each of them. *)
Lemma wait_for_no_hit p :
  forall n tick,
  (forall u, (tick <= u < tick + n)%nat -> path_exists u p = false) ->
  wait_for path_exists n tick p = (tick + n)%nat /\
  sleeps path_exists n tick p = n.
Proof.
  induction n as [|n IH]; intros tick Hnone; cbn [wait_for sleeps].
  - split; [lia | reflexivity].
  - rewrite (Hnone tick) by lia.
    destruct (IH (S tick)) as [Hw Hs]; [intros u Hu; apply Hnone; lia|].
    split; [lia | congruence].
Qed.

Lemma sleeps_le p : forall n tick, (sleeps path_exists n tick p <= n)%nat.
Proof.
  induction n as [|n IH]; intros tick; cbn [sleeps]; [lia|].
  destruct (path_exists tick p); [lia|]. specialize (IH (S tick)). lia.
Qed.

(** C6: a segment or init fragment ([m4s], [mp4], [ts]) under the HLS root
    is looked for up to 1200 times with a sleep of 50 ms after each miss,
    60 seconds of sleep at most.  The loop is left at the first look that
    finds the file; one more test of existence, made when the loop is left,
    decides between the file and 404.  For a file that stays once it is
    there, the file is sent if it exists at some look of the window, and the
    answer is 404 exactly when it does not exist at any of them. *)
Theorem segment_poll_bounded range_header file_path :
  let p := abspath cwd (join HLS_PATH file_path) in
  let looks := wait_for path_exists 1200 0 p in
  let naps := sleeps path_exists 1200 0 p in
  let answer :=
    serve_file RECORDINGS_PATH HLS_PATH cwd path_exists content
               range_header file_path in
  startswith p (abspath cwd HLS_PATH) = true ->
  extension file_path = "m4s" \/ extension file_path = "mp4"
    \/ extension file_path = "ts" ->
  (forall t, (t < 1200)%nat -> path_exists t p = true ->
     (forall u, (u < t)%nat -> path_exists u p = false) ->
     looks = S t /\ naps = t) /\
  ((forall t, (t < 1200)%nat -> path_exists t p = false) ->
     looks = 1200%nat /\ naps = 1200%nat) /\
  (naps <= 1200)%nat /\
  (inject_Z (Z.of_nat naps) * poll_interval <= 60)%Q /\
  answer = (if path_exists looks p
            then SendFile p (segment_mimetype (extension file_path)) false
            else Abort 404) /\
  (persistent path_exists p ->
     ((exists t, (t <= 1200)%nat /\ path_exists t p = true) ->
        answer = SendFile p (segment_mimetype (extension file_path)) false) /\
     (answer = Abort 404
        <-> forall t, (t <= 1200)%nat -> path_exists t p = false)).
Proof.
  intros p looks naps answer Hroot Hext.
  pose proof (serve_file_segment range_header file_path Hroot Hext) as Hs.
  fold p looks answer in Hs.
  split; [|split; [|split; [|split; [|split]]]].
  - intros t Ht Hhit Hbefore.
    destruct (wait_for_first_hit p t Hhit Hbefore 1200 0) as [Hw Hn]; [lia|].
    fold looks in Hw. fold naps in Hn. split; [exact Hw | lia].
  - intros Hnone.
    destruct (wait_for_no_hit p 1200 0) as [Hw Hn];
      [intros u Hu; apply Hnone; lia|].
    split; [exact Hw | exact Hn].
  - apply sleeps_le.
  - apply polling_time, sleeps_le.
  - rewrite Hs. destruct (path_exists looks p); reflexivity.
  - intros Hp. unfold looks in Hs.
    rewrite (wait_for_final p Hp 1200 0) in Hs.
    change (0 + 1200)%nat with 1200%nat in Hs.
    split.
    + intros (t & Ht & E). rewrite Hs.
      rewrite (persistent_later p Hp t 1200 Ht E). reflexivity.
    + rewrite Hs. split.
      * intros H404 t Ht. destruct (path_exists t p) eqn:E; [|reflexivity].
        rewrite (persistent_later p Hp t 1200 Ht E) in H404. discriminate.
      * intros Hall. rewrite Hall by lia. reflexivity.
Qed.

(** Without the assumption that files stay, the second test still decides:
    a file never seen during the window is answered with 404. *)
Lemma segment_never_there range_header file_path :
  let p := abspath cwd (join HLS_PATH file_path) in
  startswith p (abspath cwd HLS_PATH) = true ->
  extension file_path = "m4s" \/ extension file_path = "mp4"
    \/ extension file_path = "ts" ->
  (forall t, (t <= 1200)%nat -> path_exists t p = false) ->
  serve_file RECORDINGS_PATH HLS_PATH cwd path_exists content
    range_header file_path = Abort 404.
Proof.
  intros p Hroot Hext Hall.
  rewrite (serve_file_segment range_header file_path Hroot Hext). fold p.
  rewrite Hall; [reflexivity | apply (wait_for_le p 1200 0)].
Qed.

(** C4, as the code has it: a request whose canonical path does not begin
    with the string of either root (so that it escapes both) is answered
    with 404 when the joined path does not exist and with 403 when it does;
    [serve_file] reads no file for it, and [api_hls] starts no job and
    leaves the world as it was. *)
Theorem traversal_rejected range_header file_path :
  let full_path := join RECORDINGS_PATH file_path in
  startswith (abspath cwd (join HLS_PATH file_path)) (abspath cwd HLS_PATH)
    = false ->
  startswith (abspath cwd full_path) (abspath cwd RECORDINGS_PATH) = false ->
  escapes (abspath cwd HLS_PATH) (abspath cwd (join HLS_PATH file_path)) /\
  escapes (abspath cwd RECORDINGS_PATH) (abspath cwd full_path) /\
  serve_file RECORDINGS_PATH HLS_PATH cwd path_exists content
    range_header file_path
    = (if path_exists 0 full_path then Abort 403 else Abort 404) /\
  file_read (serve_file RECORDINGS_PATH HLS_PATH cwd path_exists content
               range_header file_path) = None /\
  forall (snapshot : string -> bool) o duration_run quality w,
    api_hls RECORDINGS_PATH HLS_PATH cwd snapshot o duration_run quality
            file_path w
    = (if snapshot full_path then Abort 403 else Abort 404, w).
Proof.
  intros full_path Hhls Hrec.
  assert (serve_file RECORDINGS_PATH HLS_PATH cwd path_exists content
            range_header file_path
          = if path_exists 0 full_path then Abort 403 else Abort 404) as Hs.
  { unfold serve_file. fold full_path. rewrite Hhls, Hrec.
    destruct (path_exists 0 full_path); reflexivity. }
  split; [apply not_prefixed_escapes; exact Hhls|].
  split; [apply not_prefixed_escapes; exact Hrec|].
  split; [exact Hs|].
  split; [rewrite Hs; destruct (path_exists 0 full_path); reflexivity|].
  intros snapshot o duration_run quality w. unfold api_hls. fold full_path.
  rewrite Hrec. destruct (snapshot full_path); reflexivity.
Qed.

(** The branch for an original MP4 does what is asked of range serving. *)
Lemma serve_original_ranges full_path :
  let file_size := getsize content full_path in
  serve_original content None full_path
    = SendFile full_path (Some "video/mp4") false /\
  (forall h g1 g2, search h = Some (g1, g2) ->
     exists byte_end,
       get_range_requests (Some h) file_size
         = Some (int_of_digits g1, byte_end) /\
       byte_end <= file_size - 1 /\
       (g2 = "" -> byte_end = file_size - 1) /\
       (g2 <> "" -> file_size <= int_of_digits g2 -> byte_end = file_size - 1)) /\
  exists body,
    serve_original content (Some "bytes=0-") full_path
      = Stream 206 "video/mp4"
          [ ("Accept-Ranges", "bytes");
            ("Content-Range",
             "bytes 0-" +:+ pretty (file_size - 1) +:+ "/" +:+ pretty file_size);
            ("Content-Length", pretty file_size) ]
          full_path body /\
    concat body = content full_path /\
    Z.of_nat (length (concat body)) = file_size.
Proof.
  intros file_size. split; [reflexivity|]. split.
  - intros h g1 g2 Hs. eexists. split; [apply get_range_requests_match, Hs|].
    split; [lia|]. split.
    + intros ->. rewrite bool_decide_eq_true_2 by reflexivity. lia.
    + intros Hne Hbig. rewrite bool_decide_eq_false_2 by exact Hne. lia.
  - exists (generate_original (content full_path) 0 (file_size - 1)).
    assert (concat (generate_original (content full_path) 0 (file_size - 1))
            = content full_path) as Hbody.
    { destruct (generate_original_concat (content full_path) 0
                  (file_size - 1)) as (_ & Hcat & _);
        [unfold file_size, getsize; lia|].
      rewrite Hcat.
      replace (file_size - 1 - 0 + 1) with file_size by lia.
      unfold file_size, getsize.
      rewrite Nat2Z.id, drop_0. apply take_ge. lia. }
    split; [|split; [exact Hbody | rewrite Hbody; reflexivity]].
    unfold serve_original. fold file_size.
    change (get_range_requests (Some "bytes=0-") file_size)
      with (Some (0, Z.min (file_size - 1) (file_size - 1))).
    rewrite Z.min_id.
    replace (file_size - 1 - 0 + 1) with file_size by lia.
    reflexivity.
Qed.

(** An MP4 whose path, joined to the HLS root, lies under that root never
    reaches the branch above: the first block of [serve_file] treats it as
    an init fragment, whatever the [Range] header. *)
Lemma mp4_taken_by_hls_block range_header file_path :
  let p := abspath cwd (join HLS_PATH file_path) in
  startswith p (abspath cwd HLS_PATH) = true ->
  extension file_path = "mp4" ->
  serve_file RECORDINGS_PATH HLS_PATH cwd path_exists content
    range_header file_path
  = if negb (path_exists (wait_for path_exists 1200 0 p) p) then Abort 404
    else SendFile p (Some "video/mp4") false.
Proof.
  intros p Hroot Hext.
  rewrite (serve_file_segment range_header file_path Hroot); [|tauto].
  rewrite Hext. reflexivity.
Qed.


End ServeFile.

(** *** [serve_file] on concrete disks *)

Lemma segment_poll_bounded_witness :
  startswith (abspath default_cwd (join default_hls "5f0c2a/seg_00001.m4s"))
             (abspath default_cwd default_hls) = true /\
  wait_for appears_late 1200 0 "/tmp/reodash_hls/5f0c2a/seg_00001.m4s"
    = 4%nat /\
  sleeps appears_late 1200 0 "/tmp/reodash_hls/5f0c2a/seg_00001.m4s"
    = 3%nat /\
  serve_file default_recordings default_hls default_cwd appears_late no_bytes
             None "5f0c2a/seg_00001.m4s"
  = SendFile "/tmp/reodash_hls/5f0c2a/seg_00001.m4s"
             (Some "video/iso.segment") false.
Proof.
  assert (startswith
            (abspath default_cwd (join default_hls "5f0c2a/seg_00001.m4s"))
            (abspath default_cwd default_hls) = true) as Hroot
    by reflexivity.
  split; [exact Hroot|].
  destruct (segment_poll_bounded default_recordings default_hls default_cwd
              appears_late no_bytes None "5f0c2a/seg_00001.m4s" Hroot
              (or_introl eq_refl))
    as (Hfirst & _ & _ & _ & Hanswer & _).
  destruct (Hfirst 3%nat) as [Hlooks Hnaps].
  - lia.
  - reflexivity.
  - intros u Hu. unfold appears_late. apply Nat.leb_gt. lia.
  - split; [exact Hlooks|]. split; [exact Hnaps|].
    rewrite Hanswer, Hlooks. reflexivity.
Defined.

(** C6 as stated does not hold: a segment that is there at the fourth look
    and removed before the test that follows the loop (the supervisor or a
    cancellation removes the directory of a job) is answered with 404,
    although it existed during the window, and after three sleeps only. *)
Lemma segment_seen_then_gone :
  let p := "/tmp/reodash_hls/5f0c2a/seg_00001.m4s" in
  abspath default_cwd (join default_hls "5f0c2a/seg_00001.m4s") = p /\
  startswith p (abspath default_cwd default_hls) = true /\
  seen_once 3%nat p = true /\
  wait_for seen_once 1200 0 p = 4%nat /\
  sleeps seen_once 1200 0 p = 3%nat /\
  seen_once 4%nat p = false /\
  serve_file default_recordings default_hls default_cwd seen_once no_bytes
             None "5f0c2a/seg_00001.m4s"
  = Abort 404.
Proof. vm_compute. repeat split. Qed.

Lemma traversal_rejected_witness :
  startswith (abspath default_cwd (join default_hls "../../etc/passwd"))
             (abspath default_cwd default_hls) = false /\
  startswith (abspath default_cwd (join default_recordings "../../etc/passwd"))
             (abspath default_cwd default_recordings) = false /\
  serve_file default_recordings default_hls default_cwd everything no_bytes
             None "../../etc/passwd"
  = Abort 403.
Proof.
  split; [reflexivity|]. split; [reflexivity|].
  exact (proj1 (proj2 (proj2
           (traversal_rejected default_recordings default_hls default_cwd
              everything no_bytes None "../../etc/passwd"
              eq_refl eq_refl)))).
Defined.

(** C4 as stated does not hold: a path that escapes both roots and names
    nothing on disk is answered with 404, not 403, by [serve_file] and by
    [api_hls]. *)
Lemma traversal_answers_not_found :
  escapes (abspath default_cwd default_recordings)
          (abspath default_cwd (join default_recordings "../etc/no_such_file")) /\
  escapes (abspath default_cwd default_hls)
          (abspath default_cwd (join default_hls "../etc/no_such_file")) /\
  serve_file default_recordings default_hls default_cwd nothing no_bytes
             None "../etc/no_such_file"
  = Abort 404 /\
  api_hls default_recordings default_hls default_cwd (nothing 0)
          failing_probes Raises None "../etc/no_such_file" idle
  = (Abort 404, idle).
Proof.
  split; [|split; [|split; reflexivity]];
    apply not_prefixed_escapes; reflexivity.
Qed.

(** The test against the root compares strings, so a directory beside the
    root whose name begins with the root's name passes it: the file is sent
    although its canonical path escapes the root. *)
Lemma sibling_directory_served :
  escapes (abspath default_cwd default_recordings)
          (abspath default_cwd
             (join default_recordings "../recordings_old/x.jpg")) /\
  serve_file default_recordings default_hls default_cwd everything no_bytes
             None "../recordings_old/x.jpg"
  = SendFile "/recordings/../recordings_old/x.jpg" (Some "image/jpeg") false.
Proof.
  split; [|reflexivity].
  intros [H|H]; discriminate H.
Qed.

(** C5 fails on the code: a request for the recording [cam/clip.mp4], which
    exists with five bytes, never reaches the range-serving branch.  Joined
    to the HLS root the path lies under that root, so the first block takes
    it for an init fragment, polls 1200 times for a file that is not there
    and answers 404, with or without a [Range] header.  The branch itself,
    when handed the same file, answers as the claim says. *)
Theorem origin_mp4_not_range_served :
  one_clip 0%nat (join default_recordings "cam/clip.mp4") = true /\
  getsize clip_bytes (join default_recordings "cam/clip.mp4") = 5 /\
  serve_file default_recordings default_hls default_cwd one_clip clip_bytes
             None "cam/clip.mp4"
  = Abort 404 /\
  serve_file default_recordings default_hls default_cwd one_clip clip_bytes
             (Some "bytes=0-") "cam/clip.mp4"
  = Abort 404 /\
  wait_for one_clip 1200 0 "/tmp/reodash_hls/cam/clip.mp4" = 1200%nat /\
  serve_original clip_bytes None clip
  = SendFile clip (Some "video/mp4") false /\
  serve_original clip_bytes (Some "bytes=0-") clip
  = Stream 206 "video/mp4"
      [ ("Accept-Ranges", "bytes");
        ("Content-Range", "bytes 0-4/5");
        ("Content-Length", "5") ]
      clip [["a"; "b"; "c"; "d"; "e"]%char].
Proof. vm_compute. repeat split. Qed.



End ServerFacts.

(** ** The range header *)

Module RangeFacts.

Import Text Range Http Server.

Local Open Scope Z_scope.

(** *** Decimal numerals *)

Lemma append_cons x (a b : string) : String x a +:+ b = String x (a +:+ b).
Proof. reflexivity. Qed.

Lemma append_nil_l (b : string) : "" +:+ b = b.
Proof. reflexivity. Qed.

Lemma append_nil_r (a : string) : a +:+ "" = a.
Proof.
  induction a as [|x a IH]; [reflexivity|].
  rewrite append_cons, IH. reflexivity.
Qed.

Lemma append_assoc (a b c : string) : (a +:+ b) +:+ c = a +:+ b +:+ c.
Proof.
  induction a as [|x a IH]; [reflexivity|].
  rewrite !append_cons, IH. reflexivity.
Qed.

Lemma pretty_N_go_numeral x : forall s, pretty_N_go x s = pretty_N_go x "" +:+ s.
Proof.
  induction (N.lt_wf_0 x) as [x _ IH]. intros s.
  destruct (N.eq_dec x 0) as [->|Hx]; [reflexivity|].
  assert (0 < x)%N as Hpos by lia.
  rewrite (pretty_N_go_step x s Hpos), (pretty_N_go_step x "" Hpos).
  assert (x `div` 10 < x)%N as Hlt by (apply N.div_lt; lia).
  rewrite (IH _ Hlt (String _ s)), (IH _ Hlt (String _ "")).
  rewrite append_assoc. reflexivity.
Qed.

Lemma numeral_step x :
  (0 < x)%N ->
  pretty_N_go x "" = pretty_N_go (x `div` 10) ""
                +:+ String (pretty_N_char (x `mod` 10)) "".
Proof.
  intros Hpos.
  rewrite (pretty_N_go_step x "" Hpos). apply pretty_N_go_numeral.
Qed.

Lemma pretty_N_char_value d :
  (d < 10)%N ->
  is_digit (pretty_N_char d) = true /\
  Z.of_nat (nat_of_ascii (pretty_N_char d) - 48) = Z.of_N d.
Proof.
  intros Hd.
  assert (d = 0 \/ d = 1 \/ d = 2 \/ d = 3 \/ d = 4 \/ d = 5 \/ d = 6
          \/ d = 7 \/ d = 8 \/ d = 9)%N as H by lia.
  repeat (destruct H as [-> | H]; [split; reflexivity|]).
  subst d. split; reflexivity.
Qed.

Lemma int_from_app a b : forall acc,
  int_from acc (a +:+ b) = int_from (int_from acc a) b.
Proof.
  induction a as [|x a IH]; intros acc; [reflexivity|].
  rewrite append_cons. simpl. apply IH.
Qed.

Lemma span_digits_app a b :
  span_digits a = (a, EmptyString) ->
  span_digits (a +:+ b) = (a +:+ fst (span_digits b), snd (span_digits b)).
Proof.
  induction a as [|x a IH]; [rewrite append_nil_l|rewrite append_cons; simpl].
  - intros _. destruct (span_digits b); reflexivity.
  - destruct (is_digit x); [|discriminate].
    destruct (span_digits a) as [ds tl] eqn:E. intros [= -> ->].
    rewrite (IH eq_refl). reflexivity.
Qed.

Lemma numeral_digits x :
  span_digits (pretty_N_go x "") = (pretty_N_go x "", EmptyString) /\
  int_from 0 (pretty_N_go x "") = Z.of_N x.
Proof.
  induction (N.lt_wf_0 x) as [x _ IH].
  destruct (N.eq_dec x 0) as [->|Hx]; [split; reflexivity|].
  assert (0 < x)%N as Hpos by lia.
  assert (x `div` 10 < x)%N as Hlt by (apply N.div_lt; lia).
  destruct (IH _ Hlt) as [Hspan Hval].
  destruct (pretty_N_char_value (x `mod` 10)) as [Hdig Hchar];
    [apply N.mod_lt; lia|].
  rewrite (numeral_step x Hpos). split.
  - rewrite (span_digits_app _ _ Hspan). simpl. rewrite Hdig. reflexivity.
  - rewrite int_from_app, Hval. simpl. rewrite Hchar.
    rewrite (N.div_mod x 10) at 3 by lia. lia.
Qed.

Lemma numeral_nonempty x : (0 < x)%N -> pretty_N_go x "" <> "".
Proof.
  intros Hpos. rewrite (numeral_step x Hpos).
  destruct (pretty_N_go (x `div` 10) ""); discriminate.
Qed.

(** What [str(n)] prints for a natural number is a non-empty run of digits
    that [int] reads back. *)
Lemma pretty_N_digits (n : N) :
  span_digits (pretty n) = (pretty n, EmptyString) /\
  int_of_digits (pretty n) = Z.of_N n /\
  pretty n <> "".
Proof.
  unfold pretty, pretty_N, int_of_digits.
  destruct (decide (n = 0%N)) as [->|Hn].
  - repeat split. discriminate.
  - destruct (numeral_digits n) as [Hspan Hval].
    split; [exact Hspan|]. split; [exact Hval|].
    apply numeral_nonempty. lia.
Qed.

Lemma span_digits_stop a t :
  span_digits a = (a, EmptyString) ->
  fst (span_digits t) = EmptyString ->
  span_digits (a +:+ t) = (a, t).
Proof.
  intros Ha Ht. rewrite (span_digits_app _ _ Ha).
  destruct t as [|c t]; simpl in *.
  - rewrite append_nil_r. reflexivity.
  - destruct (is_digit c).
    + destruct (span_digits t); discriminate.
    + simpl. rewrite append_nil_r. reflexivity.
Qed.

Lemma match_here_found s r g1 r2 :
  strip_prefix "bytes=" s = Some r ->
  span_digits r = (g1, String "-" r2) ->
  g1 <> "" ->
  match_here s = Some (g1, fst (span_digits r2)).
Proof.
  intros Hs Hr Hg. unfold match_here. rewrite Hs, Hr.
  rewrite (bool_decide_eq_false_2 _ Hg). reflexivity.
Qed.

Lemma search_here s g : match_here s = Some g -> search s = Some g.
Proof. intros Hm. destruct s; cbn [search]; rewrite Hm; reflexivity. Qed.

(** The pattern finds a well-formed first range at the head of the header,
    whatever follows it. *)
Lemma search_first_range (a b : N) t :
  fst (span_digits t) = EmptyString ->
  search ("bytes=" +:+ pretty a +:+ "-" +:+ pretty b +:+ t)
  = Some (pretty a, pretty b).
Proof.
  intros Ht.
  destruct (pretty_N_digits a) as (Ha & _ & Hane).
  destruct (pretty_N_digits b) as (Hb & _ & _).
  assert (match_here ("bytes=" +:+ pretty a +:+ "-" +:+ pretty b +:+ t)
          = Some (pretty a, pretty b)) as Hm.
  { rewrite (match_here_found
               ("bytes=" +:+ pretty a +:+ "-" +:+ pretty b +:+ t)
               (pretty a +:+ "-" +:+ pretty b +:+ t)
               (pretty a) (pretty b +:+ t) eq_refl
               (span_digits_stop (pretty a) ("-" +:+ pretty b +:+ t) Ha eq_refl)
               Hane).
    rewrite (span_digits_stop (pretty b) t Hb Ht). reflexivity. }
  exact (search_here _ _ Hm).
Qed.

Lemma search_open_range (a : N) :
  search ("bytes=" +:+ pretty a +:+ "-") = Some (pretty a, EmptyString).
Proof.
  destruct (pretty_N_digits a) as (Ha & _ & Hane).
  assert (match_here ("bytes=" +:+ pretty a +:+ "-")
          = Some (pretty a, EmptyString)) as Hm.
  { rewrite (match_here_found ("bytes=" +:+ pretty a +:+ "-")
               (pretty a +:+ "-") (pretty a) "" eq_refl
               (span_digits_stop (pretty a) "-" Ha eq_refl) Hane).
    reflexivity. }
  exact (search_here _ _ Hm).
Qed.

(** X12: a header written as [bytes=a-b] for natural numbers [a] and [b] is
    read back as the start [a] and the end [min b (size - 1)], whatever
    follows the first range, as long as it does not begin with a digit (a
    comma and further ranges, for one); written without an end, [bytes=a-],
    it is read as [a] and [size - 1]. *)
Theorem range_header_round_trip (a b : N) (t : string) (file_size : Z) :
  fst (span_digits t) = EmptyString ->
  get_range_requests
    (Some ("bytes=" +:+ pretty a +:+ "-" +:+ pretty b +:+ t)) file_size
  = Some (Z.of_N a, Z.min (Z.of_N b) (file_size - 1)) /\
  get_range_requests (Some ("bytes=" +:+ pretty a +:+ "-")) file_size
  = Some (Z.of_N a, file_size - 1).
Proof.
  intros Ht.
  destruct (pretty_N_digits a) as (_ & Hva & _).
  destruct (pretty_N_digits b) as (_ & Hvb & Hbne).
  split.
  - rewrite (ServerFacts.get_range_requests_match _ _ _ _
               (search_first_range a b t Ht)).
    rewrite (bool_decide_eq_false_2 _ Hbne), Hva, Hvb. reflexivity.
  - rewrite (ServerFacts.get_range_requests_match _ _ _ _
               (search_open_range a)).
    rewrite Hva, Z.min_id. reflexivity.
Qed.

Lemma range_header_round_trip_witness :
  fst (span_digits ",2000-3000") = EmptyString /\
  get_range_requests (Some ("bytes=" +:+ pretty 100%N +:+ "-" +:+ pretty 1999%N
                              +:+ ",2000-3000")) 1500
  = Some (100, 1499).
Proof.
  split; [reflexivity|].
  exact (proj1 (range_header_round_trip 100 1999 ",2000-3000" 1500 eq_refl)).
Defined.

Lemma int_from_nonneg s : forall acc, 0 <= acc -> 0 <= int_from acc s.
Proof.
  induction s as [|c s IH]; intros acc Hacc; simpl; [exact Hacc|].
  apply IH. lia.
Qed.

Lemma get_range_requests_bounds range_header file_size byte_start byte_end :
  get_range_requests range_header file_size = Some (byte_start, byte_end) ->
  0 <= byte_start /\ byte_end <= file_size - 1.
Proof.
  unfold get_range_requests.
  destruct range_header as [h|]; [|discriminate].
  destruct (bool_decide (h = "")); [discriminate|].
  destruct (search h) as [[g1 g2]|] eqn:Hs; [|discriminate].
  intros [= <- <-].
  split; [apply int_from_nonneg; lia | lia].
Qed.

(** X13: whatever the header, a range the parser returns starts at a
    position that is not negative and ends before the end of the file; the
    end is the last byte when the header names none. *)
Theorem parsed_range_bounds range_header file_size byte_start byte_end :
  get_range_requests range_header file_size = Some (byte_start, byte_end) ->
  0 <= byte_start /\ byte_end <= file_size - 1 /\
  exists h g1 g2,
    range_header = Some h /\ search h = Some (g1, g2) /\
    byte_start = int_of_digits g1 /\
    (g2 = "" -> byte_end = file_size - 1).
Proof.
  unfold get_range_requests.
  destruct range_header as [h|]; [|discriminate].
  destruct (bool_decide (h = "")); [discriminate|].
  destruct (search h) as [[g1 g2]|] eqn:Hs; [|discriminate].
  intros [= <- <-].
  split; [apply int_from_nonneg; lia|]. split; [lia|].
  exists h, g1, g2.
  split; [reflexivity|]. split; [exact Hs|]. split; [reflexivity|].
  intros ->. rewrite (bool_decide_eq_true_2 _ eq_refl). lia.
Qed.

Lemma parsed_range_bounds_witness :
  get_range_requests (Some "Range: bytes=007-") 5 = Some (7, 4) /\
  0 <= 7 /\ 4 <= 5 - 1.
Proof.
  assert (get_range_requests (Some "Range: bytes=007-") 5 = Some (7, 4))
    as Hr by reflexivity.
  split; [exact Hr|].
  destruct (parsed_range_bounds _ _ _ _ Hr) as (H0 & H1 & _).
  split; [exact H0 | exact H1].
Defined.

Lemma search_digits s :
  span_digits s = (s, EmptyString) -> search s = None.
Proof.
  induction s as [|c s IH]; [reflexivity|].
  simpl. destruct (is_digit c) eqn:Hc; [|discriminate].
  destruct (span_digits s) as [ds tl] eqn:E. intros [= -> ->].
  unfold match_here. simpl.
  assert (bool_decide ("b"%char = c) = false) as ->.
  { apply bool_decide_eq_false. intros <-. discriminate Hc. }
  apply IH. reflexivity.
Qed.

(** X14: a suffix range, [bytes=-n] (the last [n] bytes), is not understood:
    the parser returns nothing for it, and the branch for an original MP4
    answers with the whole file. *)
Theorem suffix_range_ignored (n : N) (file_size : Z) content full_path :
  get_range_requests (Some ("bytes=-" +:+ pretty n)) file_size = None /\
  serve_original content (Some ("bytes=-" +:+ pretty n)) full_path
  = SendFile full_path (Some "video/mp4") false.
Proof.
  destruct (pretty_N_digits n) as (Hn & _ & _).
  assert (search ("bytes=-" +:+ pretty n) = None) as Hs.
  { change ("bytes=-" +:+ pretty n)
      with (String "b" (String "y" (String "t" (String "e" (String "s"
              (String "=" (String "-" (pretty n)))))))).
    cbn [search]. rewrite (search_digits _ Hn).
    destruct (pretty n); reflexivity. }
  assert (forall S, get_range_requests (Some ("bytes=-" +:+ pretty n)) S = None)
    as Hnone.
  { intros S. unfold get_range_requests. rewrite Hs.
    destruct (bool_decide _); reflexivity. }
  split; [apply Hnone|].
  unfold serve_original. rewrite Hnone. reflexivity.
Qed.

End RangeFacts.

(** ** The body of a partial response *)

Module StreamFacts.

Import Text Paths Range Http Server.

Local Open Scope Z_scope.

(** X15: for a range whose start is at most one past its end, the partial
    response of the MP4 branch declares as Content-Length the number of
    bytes it streams: the generator ends by itself, every chunk holds
    between 1 and 8192 bytes, and together the chunks are the bytes from the
    start to the end of the range. *)
Theorem body_matches_content_length content range_header full_path
    byte_start byte_end :
  let bytes := content full_path in
  get_range_requests range_header (getsize content full_path)
    = Some (byte_start, byte_end) ->
  byte_start <= byte_end + 1 ->
  exists chunks range,
    serve_original content range_header full_path
    = Stream 206 "video/mp4"
        [ ("Accept-Ranges", "bytes"); ("Content-Range", range);
          ("Content-Length", pretty (byte_end - byte_start + 1)) ]
        full_path chunks /\
    stream_original bytes byte_start byte_end = (chunks, Exhausted) /\
    Forall (fun c => 0 < Z.of_nat (length c) <= 8192) chunks /\
    concat chunks
    = take (Z.to_nat (byte_end - byte_start + 1))
           (drop (Z.to_nat byte_start) bytes) /\
    Z.of_nat (length (concat chunks)) = byte_end - byte_start + 1.
Proof.
  intros bytes Hr Hle.
  destruct (RangeFacts.get_range_requests_bounds _ _ _ _ Hr) as [H0 Hend].
  unfold getsize in Hend. fold bytes in Hend.
  destruct (ServerFacts.generate_original_concat bytes byte_start byte_end Hle)
    as (Hrun & Hc & Hall).
  exists (generate_original bytes byte_start byte_end). eexists.
  split; [unfold serve_original; rewrite Hr; reflexivity|].
  split; [exact Hrun|].
  split; [exact Hall|].
  split; [exact Hc|].
  rewrite Hc, length_take, length_drop. lia.
Qed.

Lemma body_matches_content_length_witness :
  exists chunks range,
    serve_original clip_bytes (Some "bytes=1-3") clip
    = Stream 206 "video/mp4"
        [ ("Accept-Ranges", "bytes"); ("Content-Range", range);
          ("Content-Length", pretty (3 - 1 + 1)) ]
        clip chunks /\
    Z.of_nat (length (concat chunks)) = 3 - 1 + 1.
Proof.
  destruct (body_matches_content_length clip_bytes (Some "bytes=1-3") clip
              1 3 eq_refl) as (chunks & range & H1 & _ & _ & _ & H5);
    [lia|].
  exists chunks, range. split; [exact H1 | exact H5].
Defined.

(** X16: for a range the parser returns with the start two or more past
    the end, [remaining] is negative and the generator does not end by
    itself.  Three or more past the end, [f.read] refuses the size before a
    byte is yielded; exactly two past the end, [f.read(-1)] yields the whole
    rest of the file as one chunk and the next [f.read] refuses, unless the
    start is at or past the end of the file, where nothing is read and the
    loop is left. *)
Theorem inverted_range_stream bytes range_header byte_start byte_end :
  get_range_requests range_header (Z.of_nat (length bytes))
    = Some (byte_start, byte_end) ->
  byte_end + 2 <= byte_start ->
  stream_original bytes byte_start byte_end
  = if byte_end + 2 <? byte_start then ([], ReadRefused)
    else if byte_start <? Z.of_nat (length bytes)
         then ([drop (Z.to_nat byte_start) bytes], ReadRefused)
         else ([], Exhausted).
Proof.
  intros Hr Hinv.
  destruct (RangeFacts.get_range_requests_bounds _ _ _ _ Hr) as [H0 _].
  unfold stream_original. cbn zeta.
  set (data := drop (Z.to_nat byte_start) bytes).
  assert (length data = length bytes - Z.to_nat byte_start)%nat as Hlen
    by apply length_drop.
  cbn [generate_buffered].
  replace (byte_end - byte_start + 1 =? 0) with false
    by (symmetry; apply Z.eqb_neq; lia).
  unfold read_buffered.
  destruct (Z.ltb_spec (byte_end + 2) byte_start) as [Hfar|Hnear].
  - replace (Z.min 8192 (byte_end - byte_start + 1) <? -1) with true
      by (symmetry; apply Z.ltb_lt; lia).
    reflexivity.
  - replace (Z.min 8192 (byte_end - byte_start + 1) <? -1) with false
      by (symmetry; apply Z.ltb_ge; lia).
    replace (Z.min 8192 (byte_end - byte_start + 1) <? 0) with true
      by (symmetry; apply Z.ltb_lt; lia).
    destruct (Z.ltb_spec byte_start (Z.of_nat (length bytes))) as [Hin|Hout].
    + destruct data as [|b data'] eqn:Hd; [simpl in Hlen; lia|].
      rewrite drop_all. cbn [length generate_buffered].
      replace (byte_end - byte_start + 1 - Z.of_nat (S (length data')) =? 0)
        with false by (symmetry; apply Z.eqb_neq; lia).
      unfold read_buffered.
      replace (Z.min 8192
                 (byte_end - byte_start + 1 - Z.of_nat (S (length data')))
               <? -1) with true by (symmetry; apply Z.ltb_lt; lia).
      reflexivity.
    + destruct data as [|b data'] eqn:Hd; [reflexivity|].
      simpl in Hlen. lia.
Qed.

Lemma inverted_range_stream_witness :
  get_range_requests (Some "bytes=3-1") 5 = Some (3, 1) /\
  stream_original ["a"; "b"; "c"; "d"; "e"]%char 3 1
  = ([["d"; "e"]%char], ReadRefused).
Proof.
  split; [reflexivity|].
  apply (inverted_range_stream ["a"; "b"; "c"; "d"; "e"]%char
           (Some "bytes=3-1") 3 1 eq_refl).
  lia.
Defined.

End StreamFacts.

(** ** What [serve_file] answers *)

Module AnswerFacts.

Import Text Paths Range Http Jobs Server.

Local Open Scope Z_scope.

Section ServeFile.

Variables (RECORDINGS_PATH HLS_PATH cwd : string).
Variable path_exists : nat -> string -> bool.
Variable content : string -> list ascii.

Lemma serve_hls_answers file_path p r :
  serve_hls path_exists file_path p = Some r ->
  r = Abort 404 \/
  exists m t, r = SendFile p m (bool_decide (extension file_path = "m3u8"))
              /\ path_exists t p = true
              /\ (m = Some "application/vnd.apple.mpegurl"
                  <-> extension file_path = "m3u8").
Proof.
  unfold serve_hls. cbv zeta.
  generalize (wait_for path_exists 1200 0 p). intros tick.
  destruct (bool_decide (extension file_path = "m3u8")) eqn:Hm.
  - intros [= <-]. destruct (path_exists 0 p) eqn:He; [right|left; reflexivity].
    exists (Some "application/vnd.apple.mpegurl"), 0%nat.
    apply bool_decide_eq_true in Hm. cbn [negb]. tauto.
  - apply bool_decide_eq_false in Hm.
    destruct (bool_decide (extension file_path = "m4s")
              || bool_decide (extension file_path = "mp4")
              || bool_decide (extension file_path = "ts")); [|discriminate].
    intros [= <-].
    destruct (path_exists tick p) eqn:He; [right|left; reflexivity].
    exists (segment_mimetype (extension file_path)), tick.
    split; [reflexivity|]. split; [exact He|].
    split; [|tauto]. unfold segment_mimetype.
    repeat (destruct (bool_decide _)); discriminate.
Qed.

(** X17: [serve_file] answers in one of four ways: 404; 403, for a path
    that exists under the joined recordings path; a file it has seen to
    exist; or a partial response 206, given only for the extension [mp4] and
    a file that exists and passes the prefix test of the recordings root. *)
Theorem serve_file_answers range_header file_path :
  let full_path := join RECORDINGS_PATH file_path in
  match serve_file RECORDINGS_PATH HLS_PATH cwd path_exists content
                   range_header file_path with
  | Abort st =>
      st = 404 \/ (st = 403 /\ path_exists 0 full_path = true)
  | SendFile p _ _ => exists t, path_exists t p = true
  | Stream st _ _ p _ =>
      st = 206 /\ p = full_path /\ extension file_path = "mp4" /\
      path_exists 0 full_path = true /\
      startswith (abspath cwd full_path) (abspath cwd RECORDINGS_PATH) = true
  | _ => False
  end.
Proof.
  intros full_path. unfold serve_file. fold full_path.
  destruct (if startswith _ _ then _ else None) as [r|] eqn:Hhls.
  - destruct (startswith _ _); [|discriminate].
    destruct (serve_hls_answers _ _ _ Hhls) as [->|(m & t & -> & He & _)];
      [left; reflexivity | exists t; exact He].
  - destruct (path_exists 0 full_path) eqn:He; cbn [negb];
      [|left; reflexivity].
    destruct (startswith (abspath cwd full_path) _) eqn:Hroot; cbn [negb];
      [|right; split; reflexivity].
    destruct (bool_decide (extension file_path = "m3u8")).
    { destruct (path_exists 1 _) eqn:He1; cbn [negb];
        [exists 1%nat; exact He1 | left; reflexivity]. }
    destruct (bool_decide (extension file_path = "mp4")) eqn:Hmp4.
    { apply bool_decide_eq_true in Hmp4. unfold serve_original.
      destruct (get_range_requests _ _) as [[s e]|];
        [tauto | exists 0%nat; exact He]. }
    repeat (destruct (_ || _)); try (exists 0%nat; exact He).
    destruct (bool_decide (extension file_path = "png"));
      exists 0%nat; exact He.
Qed.

(** X18: the no-cache headers go with the playlists and with nothing else:
    a file sent by [serve_file] carries them exactly when the requested
    extension is [m3u8], and exactly then its type is that of a playlist. *)
Theorem no_cache_for_playlists range_header file_path p m no_cache :
  serve_file RECORDINGS_PATH HLS_PATH cwd path_exists content
             range_header file_path = SendFile p m no_cache ->
  (no_cache = true <-> extension file_path = "m3u8") /\
  (no_cache = true <-> m = Some "application/vnd.apple.mpegurl").
Proof.
  unfold serve_file.
  destruct (if startswith _ _ then _ else None) as [r|] eqn:Hhls.
  - destruct (startswith _ _); [|discriminate].
    destruct (serve_hls_answers _ _ _ Hhls) as [->|(m' & t & -> & _ & Hm)];
      [discriminate|].
    intros [= _ <- <-]. rewrite bool_decide_eq_true. tauto.
  - destruct (path_exists 0 _); cbn [negb]; [|discriminate].
    destruct (startswith (abspath cwd (join RECORDINGS_PATH file_path)) _);
      cbn [negb]; [|discriminate].
    destruct (bool_decide (extension file_path = "m3u8")) eqn:Hm.
    { apply bool_decide_eq_true in Hm.
      destruct (path_exists 1 _); cbn [negb]; [|discriminate].
      intros [= _ <- <-]. tauto. }
    apply bool_decide_eq_false in Hm.
    assert (forall q m' nc, SendFile q m' nc = SendFile p m no_cache ->
              nc = false ->
              m' <> Some "application/vnd.apple.mpegurl" ->
              (no_cache = true <-> extension file_path = "m3u8") /\
              (no_cache = true <-> m = Some "application/vnd.apple.mpegurl"))
      as Hplain.
    { intros q m' nc [= _ <- <-] -> Hm'. split; split; intros H;
        congruence. }
    destruct (bool_decide (extension file_path = "mp4")).
    { unfold serve_original.
      destruct (get_range_requests _ _) as [[s e]|]; [discriminate|].
      intros H. apply (Hplain _ _ _ H); [reflexivity | discriminate]. }
    destruct (_ || _).
    { intros H. apply (Hplain _ _ _ H); [reflexivity | discriminate]. }
    destruct (_ || _).
    { intros H. apply (Hplain _ _ _ H); [reflexivity | discriminate]. }
    destruct (bool_decide (extension file_path = "png"));
      intros H; apply (Hplain _ _ _ H); try reflexivity; discriminate.
Qed.

(** X19: a playlist request whose path climbs out of the HLS root is not
    taken by the first block; when the same relative path names a file that
    exists under the recordings root, the playlist branch that follows sends
    the joined HLS path, with no test against any root: the file sent lies
    outside the HLS root. *)
Theorem late_playlist_outside_hls_root range_header file_path :
  let full_path := join RECORDINGS_PATH file_path in
  let full_hls_path := join HLS_PATH file_path in
  startswith (abspath cwd full_hls_path) (abspath cwd HLS_PATH) = false ->
  extension file_path = "m3u8" ->
  path_exists 0 full_path = true ->
  startswith (abspath cwd full_path) (abspath cwd RECORDINGS_PATH) = true ->
  path_exists 1 full_hls_path = true ->
  serve_file RECORDINGS_PATH HLS_PATH cwd path_exists content
             range_header file_path
  = SendFile full_hls_path (Some "application/vnd.apple.mpegurl") true /\
  escapes (abspath cwd HLS_PATH) (abspath cwd full_hls_path).
Proof.
  intros full_path full_hls_path Hout Hext He Hroot He1.
  split; [|apply PathsFacts.not_prefixed_escapes; exact Hout].
  unfold serve_file. fold full_path full_hls_path.
  rewrite Hout, He, Hroot, Hext, He1. reflexivity.
Qed.

End ServeFile.

Lemma no_cache_for_playlists_witness :
  serve_file default_recordings default_hls default_cwd everything no_bytes
             None "5f0c2a/index.m3u8"
  = SendFile "/tmp/reodash_hls/5f0c2a/index.m3u8"
             (Some "application/vnd.apple.mpegurl") true /\
  (true = true <-> extension "5f0c2a/index.m3u8" = "m3u8").
Proof.
  assert (serve_file default_recordings default_hls default_cwd everything
            no_bytes None "5f0c2a/index.m3u8"
          = SendFile "/tmp/reodash_hls/5f0c2a/index.m3u8"
                     (Some "application/vnd.apple.mpegurl") true) as H
    by reflexivity.
  split; [exact H|].
  exact (proj1 (no_cache_for_playlists _ _ _ _ _ _ _ _ _ _ H)).
Defined.

Lemma late_playlist_outside_hls_root_witness :
  serve_file default_recordings default_hls default_cwd everything no_bytes
             None "../recordings/live.m3u8"
  = SendFile "/tmp/reodash_hls/../recordings/live.m3u8"
             (Some "application/vnd.apple.mpegurl") true /\
  escapes (abspath default_cwd default_hls)
          (abspath default_cwd "/tmp/reodash_hls/../recordings/live.m3u8").
Proof.
  apply (late_playlist_outside_hls_root default_recordings default_hls
           default_cwd everything no_bytes None "../recordings/live.m3u8");
    reflexivity.
Defined.

End AnswerFacts.

(** ** Paths without a step upwards *)

Module PlainPathFacts.

Import Text Paths Range Http Jobs Server.

Local Open Scope Z_scope.

Lemma split_nonempty sep s : split sep s <> [].
Proof.
  destruct s as [|c s]; simpl; [discriminate|].
  destruct (bool_decide (c = sep)); [discriminate|].
  destruct (split sep s); discriminate.
Qed.

Lemma split_app_sep sep a b :
  split sep (a +:+ String sep b) = split sep a ++ split sep b.
Proof.
  induction a as [|c a IH].
  - rewrite RangeFacts.append_nil_l. simpl.
    rewrite (bool_decide_eq_true_2 _ eq_refl). reflexivity.
  - rewrite RangeFacts.append_cons. simpl. rewrite IH.
    destruct (bool_decide (c = sep)); [reflexivity|].
    destruct (split sep a) as [|h t] eqn:E; [|reflexivity].
    destruct (split_nonempty _ _ E).
Qed.

Lemma endswith_char_inv s c :
  endswith_char s c = true -> exists r, s = r +:+ String c "".
Proof.
  induction s as [|x s IH]; [discriminate|].
  destruct s as [|y s].
  - simpl. intros H. apply bool_decide_eq_true in H. subst x.
    exists "". reflexivity.
  - intros H. destruct (IH H) as [r Hr]. exists (String x r).
    rewrite RangeFacts.append_cons, <- Hr. reflexivity.
Qed.

Lemma startswith_cons c s p :
  startswith (String c s) (String c p) = startswith s p.
Proof.
  unfold startswith. simpl.
  destruct (Ascii.ascii_dec c c) as [_|Hne]; [reflexivity | contradiction].
Qed.

Lemma startswith_step c d s p :
  startswith (String c s) (String d p) = bool_decide (d = c) && startswith s p.
Proof.
  unfold startswith. cbn [String.prefix].
  destruct (Ascii.ascii_dec d c) as [->|Hne].
  - rewrite (bool_decide_eq_true_2 _ eq_refl). reflexivity.
  - rewrite (bool_decide_eq_false_2 _ Hne). reflexivity.
Qed.

Lemma startswith_common a s p :
  startswith (a +:+ s) (a +:+ p) = startswith s p.
Proof.
  induction a as [|c a IH]; [reflexivity|].
  rewrite !RangeFacts.append_cons, startswith_cons. exact IH.
Qed.

Lemma startswith_nil s : startswith s "" = true.
Proof. destruct s; reflexivity. Qed.

Lemma startswith_extend a b : startswith (a +:+ b) a = true.
Proof.
  rewrite <- (RangeFacts.append_nil_r a) at 2.
  rewrite startswith_common. apply startswith_nil.
Qed.

(** Joining more components only lengthens the joined string. *)
Lemma join_with_app sep l1 l2 :
  startswith (join_with sep (l1 ++ l2)) (join_with sep l1) = true.
Proof.
  unfold join_with. induction l1 as [|x l1 IH]; [apply startswith_nil|].
  destruct l1 as [|y l1].
  - destruct l2 as [|z l2]; [apply PathsFacts.startswith_refl|].
    apply startswith_extend.
  - change (startswith (x +:+ sep +:+ String.concat sep ((y :: l1) ++ l2))
                       (x +:+ sep +:+ String.concat sep (y :: l1)) = true).
    rewrite !startswith_common. exact IH.
Qed.

(** Components other than [..] are pushed or skipped. *)
Lemma fold_norm_step_plain k comps : forall acc,
  ".." ∉ comps ->
  exists pushed, fold_left (norm_step k) comps acc = pushed ++ acc.
Proof.
  induction comps as [|c comps IH]; intros acc Hno.
  - exists []. reflexivity.
  - assert (c <> "..") as Hc by (intros ->; apply Hno; left).
    assert (".." ∉ comps) as Hrest by (intros H; apply Hno; right; exact H).
    cbn [fold_left]. unfold norm_step at 2.
    destruct (bool_decide (c = "") || bool_decide (c = ".")); [apply IH, Hrest|].
    rewrite (bool_decide_eq_false_2 _ Hc). cbn [negb orb].
    destruct (IH (c :: acc) Hrest) as [pushed Hp].
    exists (pushed ++ [c]). rewrite Hp, <- app_assoc. reflexivity.
Qed.

(** [normpath] on a path that begins with a slash. *)
Lemma normpath_rooted path :
  startswith path "/" = true ->
  let k := if startswith path "//" && negb (startswith path "///")
           then 2%nat else 1%nat in
  normpath path
  = join_with "" (replicate k "/")
    +:+ join_with "/" (rev (fold_left (norm_step k) (split "/" path) [])).
Proof.
  intros Habs k. unfold normpath.
  destruct path as [|c path]; [discriminate|].
  rewrite bool_decide_eq_false_2 by discriminate.
  rewrite Habs. fold k.
  assert (exists r, join_with "" (replicate k "/") = String "/" r) as [r Hr].
  { unfold k. destruct (_ && _); eexists; reflexivity. }
  rewrite Hr, RangeFacts.append_cons.
  rewrite bool_decide_eq_false_2 by discriminate. reflexivity.
Qed.

(** Joining a relative path to a rooted one keeps the leading slashes. *)
Lemma slashes_join root file_path :
  startswith root "/" = true -> startswith file_path "/" = false ->
  (startswith (join root file_path) "/" = true) /\
  (startswith (join root file_path) "//"
     && negb (startswith (join root file_path) "///"))
  = (startswith root "//" && negb (startswith root "///")).
Proof.
  intros Hroot Hrel.
  destruct root as [|c1 root]; [discriminate|].
  rewrite startswith_step in Hroot.
  apply andb_true_iff in Hroot as [Hc1 _].
  apply bool_decide_eq_true in Hc1. subst c1.
  unfold join. rewrite Hrel.
  rewrite bool_decide_eq_false_2 by discriminate. cbn [orb].
  destruct root as [|c2 root].
  - cbn [endswith_char]. rewrite (bool_decide_eq_true_2 _ eq_refl).
    rewrite RangeFacts.append_cons, RangeFacts.append_nil_l.
    rewrite !startswith_step, !startswith_nil, Hrel. split; reflexivity.
  - destruct (bool_decide ("/"%char = c2)) eqn:E2.
    + apply bool_decide_eq_true in E2. subst c2.
      destruct root as [|c3 root].
      * cbn [endswith_char]. rewrite (bool_decide_eq_true_2 _ eq_refl).
        rewrite !RangeFacts.append_cons, RangeFacts.append_nil_l.
        rewrite !startswith_step, ?startswith_nil, Hrel. split; reflexivity.
      * destruct (endswith_char _ _);
          rewrite !RangeFacts.append_cons, !startswith_step, ?startswith_nil;
          split; reflexivity.
    + destruct (endswith_char _ _);
        rewrite !RangeFacts.append_cons, !startswith_step, ?startswith_nil, E2;
        split; reflexivity.
Qed.

Lemma fold_join k root file_path :
  startswith root "/" = true -> startswith file_path "/" = false ->
  fold_left (norm_step k) (split "/" (join root file_path)) []
  = fold_left (norm_step k) (split "/" file_path)
              (fold_left (norm_step k) (split "/" root) []).
Proof.
  intros Hroot Hrel. unfold join. rewrite Hrel.
  destruct root as [|c1 root]; [discriminate|].
  rewrite bool_decide_eq_false_2 by discriminate. cbn [orb].
  destruct (endswith_char (String c1 root) "/") eqn:E.
  - destruct (endswith_char_inv _ _ E) as [r Hr]. rewrite Hr.
    rewrite RangeFacts.append_assoc.
    change (String "/" "" +:+ file_path) with (String "/" file_path).
    rewrite !split_app_sep, !fold_left_app. reflexivity.
  - change (String c1 root +:+ "/" +:+ file_path)
      with (String c1 root +:+ String "/" file_path).
    rewrite split_app_sep, fold_left_app. reflexivity.
Qed.

(** A relative path with no component [..], joined to a root that begins
    with a slash, resolves to a path that begins with the resolved root. *)
Lemma plain_join_prefixed cwd root file_path :
  startswith root "/" = true ->
  startswith file_path "/" = false ->
  ".." ∉ split "/" file_path ->
  startswith (abspath cwd (join root file_path)) (abspath cwd root) = true.
Proof.
  intros Hroot Hrel Hplain.
  destruct (slashes_join root file_path Hroot Hrel) as [Habs Hk].
  unfold abspath. rewrite Hroot, Habs.
  rewrite (normpath_rooted _ Hroot), (normpath_rooted _ Habs). cbv zeta.
  rewrite Hk.
  set (k := if startswith root "//" && negb (startswith root "///")
            then 2%nat else 1%nat).
  rewrite (fold_join k root file_path Hroot Hrel).
  destruct (fold_norm_step_plain k (split "/" file_path)
              (fold_left (norm_step k) (split "/" root) []) Hplain)
    as [pushed ->].
  rewrite rev_app_distr, startswith_common. apply join_with_app.
Qed.

Section Handlers.

Variables (RECORDINGS_PATH HLS_PATH cwd : string).

(** X20: a request path that is relative and has no component [..] passes
    the prefix tests of both roots, so it is never answered 403, neither by
    [serve_file] nor by [api_hls]; and [serve_file] never gives it a partial
    response: what it answers is 404 or a whole file, taken from under the
    HLS root or from the joined recordings path. *)
Theorem plain_path_answers path_exists content range_header snapshot o
    duration_run quality w file_path :
  startswith RECORDINGS_PATH "/" = true ->
  startswith HLS_PATH "/" = true ->
  startswith file_path "/" = false ->
  ".." ∉ split "/" file_path ->
  match serve_file RECORDINGS_PATH HLS_PATH cwd path_exists content
                   range_header file_path with
  | Abort st => st = 404
  | SendFile p _ _ =>
      p = abspath cwd (join HLS_PATH file_path) \/
      p = join RECORDINGS_PATH file_path
  | _ => False
  end /\
  (api_hls RECORDINGS_PATH HLS_PATH cwd snapshot o duration_run quality
           file_path w).1 <> Abort 403.
Proof.
  intros Hrec Hhls Hrel Hplain.
  pose proof (plain_join_prefixed cwd _ _ Hrec Hrel Hplain) as Hin_rec.
  pose proof (plain_join_prefixed cwd _ _ Hhls Hrel Hplain) as Hin_hls.
  split.
  - unfold serve_file. rewrite Hin_hls, Hin_rec. unfold serve_hls. cbv zeta.
    generalize (wait_for path_exists 1200 0%nat
                  (abspath cwd (join HLS_PATH file_path))).
    intros tick.
    destruct (bool_decide (extension file_path = "m3u8")) eqn:Em.
    { destruct (path_exists 0%nat _); cbn [negb]; [left|]; reflexivity. }
    destruct (bool_decide (extension file_path = "m4s")) eqn:E4;
      cbn [orb].
    { destruct (path_exists tick _); cbn [negb]; [left|]; reflexivity. }
    destruct (bool_decide (extension file_path = "mp4")) eqn:Ep;
      cbn [orb].
    { destruct (path_exists tick _); cbn [negb]; [left|]; reflexivity. }
    destruct (bool_decide (extension file_path = "ts")) eqn:Et.
    { destruct (path_exists tick _); cbn [negb]; [left|]; reflexivity. }
    destruct (path_exists 0%nat _); cbn [negb]; [|reflexivity].
    cbn [orb].
    destruct (_ || _); [right; reflexivity|].
    destruct (bool_decide (extension file_path = "png")); right; reflexivity.
  - unfold api_hls. rewrite Hin_rec. cbn [negb].
    destruct (snapshot _); cbn [negb]; [|discriminate].
    destruct (start_hls_vod _ _ _ _ _ _) as [out w'].
    destruct out as [x|]; [destruct x as [[job subpath]|]|]; discriminate.
Qed.

End Handlers.

Lemma plain_path_answers_witness :
  (".." ∉ split "/" "cam/clip.mp4") /\
  (api_hls default_recordings default_hls default_cwd (fun _ => true)
           failing_probes Raises None "cam/clip.mp4" idle).1 <> Abort 403.
Proof.
  assert (".." ∉ split "/" "cam/clip.mp4") as Hplain.
  { change (".." ∉ ["cam"; "clip.mp4"]).
    intros H. apply elem_of_cons in H as [H|H]; [discriminate|].
    apply elem_of_cons in H as [H|H]; [discriminate|].
    apply elem_of_nil in H. exact H. }
  split; [exact Hplain|].
  exact (proj2 (plain_path_answers default_recordings default_hls
                  default_cwd one_clip clip_bytes (Some "bytes=0-")
                  (fun _ => true) failing_probes Raises None idle
                  "cam/clip.mp4" eq_refl eq_refl eq_refl Hplain)).
Defined.

End PlainPathFacts.

(** ** The header report *)

Module InfoFacts.

Import Text Paths Http Jobs Server Info.

Local Open Scope Z_scope.

Lemma hex_app a b : hex (a ++ b) = hex a +:+ hex b.
Proof.
  induction a as [|x a IH]; [reflexivity|].
  cbn [app hex]. rewrite IH. reflexivity.
Qed.

Lemma hex_length l : String.length (hex l) = (2 * length l)%nat.
Proof. induction l as [|x l IH]; simpl; [reflexivity | rewrite IH; lia]. Qed.

Lemma header_slice (bytes : list ascii) :
  take 4 (drop 4 (take 32 bytes)) = take 4 (drop 4 bytes).
Proof.
  change 32%nat with (4 + 28)%nat.
  rewrite <- take_drop_commute, take_take. reflexivity.
Qed.

Section VideoInfo.

Variables (RECORDINGS_PATH HLS_PATH cwd : string).
Variable disk : string -> option entry.

Lemma video_info_report file_path bytes :
  disk (join RECORDINGS_PATH file_path) = Some (Regular bytes) ->
  endswith (lower (join RECORDINGS_PATH file_path)) ".mp4" = true ->
  video_info RECORDINGS_PATH disk file_path
  = Report
      (mkInfo file_path (Z.of_nat (length bytes)) (hex (take 32 bytes))
         ((8 <=? length (take 32 bytes))%nat
          && bool_decide (take 4 (drop 4 (take 32 bytes)) = ftyp))
         (if (4 <=? length (take 32 bytes))%nat
          then Some (hex (take 4 (take 32 bytes))) else None)
         (if (8 <=? length (take 32 bytes))%nat
          then bool_decide (take 4 (drop 4 (take 32 bytes)) = ftyp)
          else false)).
Proof.
  intros Hd He. unfold video_info. rewrite Hd, He. reflexivity.
Qed.

Lemma video_info_report_inv file_path i :
  video_info RECORDINGS_PATH disk file_path = Report i ->
  exists bytes,
    disk (join RECORDINGS_PATH file_path) = Some (Regular bytes) /\
    endswith (lower (join RECORDINGS_PATH file_path)) ".mp4" = true.
Proof.
  unfold video_info.
  destruct (disk _) as [[bytes|msg]|]; [| |discriminate].
  - destruct (endswith _ _); [|discriminate]. intros _. exists bytes.
    split; reflexivity.
  - destruct (endswith _ _); discriminate.
Qed.

(** X21: [video_info] makes no test against the recordings root.  For a
    path that resolves outside the root (and outside the HLS root) and names
    a readable file whose name ends in [.mp4], in any case of letters,
    [serve_file] answers 403, and [video_info] answers with the size of the
    file and its first 32 bytes. *)
Theorem video_info_ignores_root path_exists content range_header
    file_path bytes :
  let full_path := join RECORDINGS_PATH file_path in
  startswith (abspath cwd full_path) (abspath cwd RECORDINGS_PATH) = false ->
  startswith (abspath cwd (join HLS_PATH file_path)) (abspath cwd HLS_PATH)
    = false ->
  path_exists 0%nat full_path = true ->
  disk full_path = Some (Regular bytes) ->
  endswith (lower full_path) ".mp4" = true ->
  serve_file RECORDINGS_PATH HLS_PATH cwd path_exists content
             range_header file_path = Abort 403 /\
  exists i,
    video_info RECORDINGS_PATH disk file_path = Report i /\
    file_size i = Z.of_nat (length bytes) /\
    header_hex i = hex (take 32 bytes).
Proof.
  intros full_path Hout Hout_hls Hex Hd He. split.
  - unfold serve_file. fold full_path. rewrite Hout_hls, Hex, Hout.
    reflexivity.
  - eexists. split; [apply (video_info_report _ _ Hd He)|].
    split; reflexivity.
Qed.

(** X22: the two validity fields of the report never differ, and they are
    true exactly when the file holds the four bytes [ftyp] at offsets 4 to
    7. *)
Theorem validity_fields file_path i bytes :
  video_info RECORDINGS_PATH disk file_path = Report i ->
  disk (join RECORDINGS_PATH file_path) = Some (Regular bytes) ->
  is_valid_mp4 i = ftyp_check i /\
  (is_valid_mp4 i = true <->
   exists size rest, length size = 4%nat /\ bytes = size ++ ftyp ++ rest).
Proof.
  intros Hr Hd.
  destruct (video_info_report_inv _ _ Hr) as (bytes' & Hd' & He).
  rewrite Hd in Hd'. injection Hd' as <-.
  rewrite (video_info_report _ _ Hd He) in Hr.
  rewrite header_slice in Hr.
  assert ((8 <=? length (take 32 bytes))%nat = true
          <-> (8 <= length bytes)%nat) as Hok
    by (rewrite Nat.leb_le, length_take; lia).
  revert Hr Hok. generalize (8 <=? length (take 32 bytes))%nat.
  intros ok Hr Hok. injection Hr as <-.
  cbn [is_valid_mp4 ftyp_check].
  split; [destruct ok; reflexivity|].
  split.
  - intros H. apply andb_true_iff in H as [Hlen Hf].
    apply Hok in Hlen. apply bool_decide_eq_true in Hf.
    exists (take 4 bytes), (drop 8 bytes).
    split; [rewrite length_take; lia|].
    rewrite <- Hf.
    rewrite <- (take_drop 4 bytes) at 1. f_equal.
    rewrite <- (take_drop 4 (drop 4 bytes)) at 1. f_equal.
    rewrite drop_drop. reflexivity.
  - intros (size & rest & Hlen & ->).
    apply andb_true_iff. split.
    + apply Hok. rewrite !length_app. cbn [ftyp length]. lia.
    + apply bool_decide_eq_true.
      rewrite drop_app_length' by (symmetry; exact Hlen). reflexivity.
Qed.

(** X23: the header of the report is the first 32 bytes of the file, two
    hexadecimal digits for each; the field [first_4_bytes] is absent exactly
    for a file shorter than four bytes, and otherwise holds the first eight
    digits of the header. *)
Theorem header_fields file_path i bytes :
  video_info RECORDINGS_PATH disk file_path = Report i ->
  disk (join RECORDINGS_PATH file_path) = Some (Regular bytes) ->
  String.length (header_hex i) = (2 * (32 `min` length bytes))%nat /\
  (first_4_bytes i = None <-> (length bytes < 4)%nat) /\
  (forall h, first_4_bytes i = Some h ->
     String.length h = 8%nat /\ startswith (header_hex i) h = true).
Proof.
  intros Hr Hd.
  destruct (video_info_report_inv _ _ Hr) as (bytes' & Hd' & He).
  rewrite Hd in Hd'. injection Hd' as <-.
  rewrite (video_info_report _ _ Hd He) in Hr.
  assert ((4 <=? length (take 32 bytes))%nat = true
          <-> (4 <= length bytes)%nat) as Hok
    by (rewrite Nat.leb_le, length_take; lia).
  revert Hr Hok.
  generalize (4 <=? length (take 32 bytes))%nat,
             (8 <=? length (take 32 bytes))%nat.
  intros ok4 ok8 Hr Hok. injection Hr as <-.
  cbn [header_hex first_4_bytes].
  split; [rewrite hex_length, length_take; reflexivity|].
  destruct ok4.
  - assert (4 <= length bytes)%nat as Hlen by (apply Hok; reflexivity).
    split; [split; [discriminate | lia]|].
    intros h [= <-]. rewrite hex_length, length_take, length_take.
    split; [lia|].
    rewrite <- (take_drop 4 (take 32 bytes)) at 1.
    rewrite hex_app. apply PlainPathFacts.startswith_extend.
  - assert (~ (4 <= length bytes)%nat) as Hlen
      by (intros H; apply Hok in H; discriminate).
    split; [split; [lia | reflexivity]|]. discriminate.
Qed.

End VideoInfo.

Lemma video_info_ignores_root_witness :
  serve_file default_recordings default_hls default_cwd everything no_bytes
             None "../srv/private/film.MP4" = Abort 403 /\
  exists i,
    video_info default_recordings sample_disk "../srv/private/film.MP4"
      = Report i /\
    file_size i = 6 /\ header_hex i = "736563726574".
Proof.
  exact (video_info_ignores_root default_recordings default_hls default_cwd
           sample_disk everything no_bytes None "../srv/private/film.MP4"
           ["s"; "e"; "c"; "r"; "e"; "t"]%char
           eq_refl eq_refl eq_refl eq_refl eq_refl).
Defined.

Lemma validity_fields_witness :
  exists i,
    video_info default_recordings sample_disk "cam/clip.mp4" = Report i /\
    is_valid_mp4 i = ftyp_check i.
Proof.
  eexists. split; [reflexivity|].
  exact (proj1 (validity_fields default_recordings sample_disk
                  "cam/clip.mp4" _ _ eq_refl eq_refl)).
Defined.

Lemma header_fields_witness :
  exists i,
    video_info default_recordings sample_disk "cam/clip.mp4" = Report i /\
    String.length (header_hex i) = 24%nat.
Proof.
  eexists. split; [reflexivity|].
  exact (proj1 (header_fields default_recordings sample_disk
                  "cam/clip.mp4" _ _ eq_refl eq_refl)).
Defined.

End InfoFacts.

(** ** The names of the recordings *)

Module NameFacts.

Import Text Recordings.

Local Open Scope Z_scope.

Lemma strip_prefix_inv p : forall s r,
  strip_prefix p s = Some r -> s = p +:+ r.
Proof.
  induction p as [|a p IH]; intros s r; simpl.
  - intros [= ->]. reflexivity.
  - destruct s as [|b s]; [discriminate|].
    destruct (bool_decide (a = b)) eqn:E; [|discriminate].
    apply bool_decide_eq_true in E. subst b.
    intros H. rewrite (IH _ _ H). reflexivity.
Qed.

Lemma startswith_inv p : forall s,
  startswith s p = true -> exists r, s = p +:+ r.
Proof.
  induction p as [|a p IH]; intros s H.
  - exists s. reflexivity.
  - destruct s as [|b s]; [discriminate|].
    rewrite PlainPathFacts.startswith_step in H.
    apply andb_true_iff in H as [Hab Hp].
    apply bool_decide_eq_true in Hab. subst b.
    destruct (IH _ Hp) as [r ->]. exists r. reflexivity.
Qed.

Lemma digits_inv n : forall s ds tl,
  digits n s = Some (ds, tl) ->
  s = ds +:+ tl /\ String.length ds = n /\ digits n ds = Some (ds, "").
Proof.
  induction n as [|n IH]; intros s ds tl; simpl.
  - intros [= <- <-]. repeat split.
  - destruct s as [|c s]; [discriminate|].
    destruct (is_digit c) eqn:Hc; [|discriminate].
    destruct (digits n s) as [[ds' tl']|] eqn:E; [|discriminate].
    intros [= <- <-].
    destruct (IH _ _ _ E) as (-> & Hlen & Hds).
    split; [reflexivity|]. split; [simpl; rewrite Hlen; reflexivity|].
    simpl. rewrite Hc, Hds. reflexivity.
Qed.

Lemma digits_app n : forall ds tl,
  digits n ds = Some (ds, "") -> digits n (ds +:+ tl) = Some (ds, tl).
Proof.
  induction n as [|n IH]; intros ds tl; simpl.
  - intros [= <-]. reflexivity.
  - destruct ds as [|c ds]; [discriminate|].
    rewrite RangeFacts.append_cons.
    destruct (is_digit c); [|discriminate].
    destruct (digits n ds) as [[ds' tl']|] eqn:E; [|discriminate].
    intros [= <- ->]. rewrite (IH _ tl E). reflexivity.
Qed.

(** What the rest of the pattern matches. *)
Lemma tail_match_inv s sequence timestamp_str extension :
  tail_match s = Some (sequence, timestamp_str, extension) ->
  digits 2 sequence = Some (sequence, "") /\
  digits 14 timestamp_str = Some (timestamp_str, "") /\
  (extension = "jpg" \/ extension = "mp4") /\
  exists rest,
    s = "_" +:+ sequence +:+ "_" +:+ timestamp_str +:+ "." +:+ extension
            +:+ rest.
Proof.
  unfold tail_match.
  destruct (strip_prefix "_" s) as [s1|] eqn:E1; [|discriminate].
  cbn [mbind option_bind].
  destruct (digits 2 s1) as [[sq s2]|] eqn:E2; [|discriminate].
  cbn [mbind option_bind].
  destruct (strip_prefix "_" s2) as [s3|] eqn:E3; [|discriminate].
  cbn [mbind option_bind].
  destruct (digits 14 s3) as [[ts s4]|] eqn:E4; [|discriminate].
  cbn [mbind option_bind].
  destruct (strip_prefix "." s4) as [s5|] eqn:E5; [|discriminate].
  cbn [mbind option_bind].
  apply strip_prefix_inv in E1, E3, E5.
  destruct (digits_inv _ _ _ _ E2) as (Hs1 & _ & Hsq).
  destruct (digits_inv _ _ _ _ E4) as (Hs3 & _ & Hts).
  destruct (startswith s5 "jpg") eqn:Ej.
  - intros [= <- <- <-]. destruct (startswith_inv _ _ Ej) as [rest Hr].
    split; [exact Hsq|]. split; [exact Hts|]. split; [left; reflexivity|].
    exists rest. subst. reflexivity.
  - destruct (startswith s5 "mp4") eqn:Em; [|discriminate].
    intros [= <- <- <-]. destruct (startswith_inv _ _ Em) as [rest Hr].
    split; [exact Hsq|]. split; [exact Hts|]. split; [right; reflexivity|].
    exists rest. subst. reflexivity.
Qed.

Lemma tail_match_found sequence timestamp_str extension rest :
  digits 2 sequence = Some (sequence, "") ->
  digits 14 timestamp_str = Some (timestamp_str, "") ->
  extension = "jpg" \/ extension = "mp4" ->
  tail_match ("_" +:+ sequence +:+ "_" +:+ timestamp_str +:+ "."
                  +:+ extension +:+ rest)
  = Some (sequence, timestamp_str, extension).
Proof.
  intros Hsq Hts Hext. unfold tail_match.
  change (strip_prefix "_" ("_" +:+ sequence +:+ "_" +:+ timestamp_str
                                +:+ "." +:+ extension +:+ rest))
    with (Some (sequence +:+ "_" +:+ timestamp_str +:+ "." +:+ extension
                         +:+ rest)).
  cbn [mbind option_bind].
  rewrite (digits_app _ _ _ Hsq). cbn [mbind option_bind].
  change (strip_prefix "_" ("_" +:+ timestamp_str +:+ "." +:+ extension
                                +:+ rest))
    with (Some (timestamp_str +:+ "." +:+ extension +:+ rest)).
  cbn [mbind option_bind].
  rewrite (digits_app _ _ _ Hts). cbn [mbind option_bind].
  change (strip_prefix "." ("." +:+ extension +:+ rest))
    with (Some (extension +:+ rest)).
  cbn [mbind option_bind].
  destruct Hext as [-> | ->].
  - rewrite PlainPathFacts.startswith_extend. reflexivity.
  - rewrite PlainPathFacts.startswith_extend.
    change ("mp4" +:+ rest) with (String "m" ("p4" +:+ rest)).
    rewrite PlainPathFacts.startswith_step. reflexivity.
Qed.

(** What [re_match] finds: a camera name and a place where the rest of the
    pattern matches. *)
Lemma re_match_inv filename : forall camera_name groups,
  re_match filename = Some (camera_name, groups) ->
  camera_name <> "" /\
  Forall (fun c => c <> line_feed) (String.list_ascii_of_string camera_name) /\
  exists t, filename = camera_name +:+ t /\ tail_match t = Some groups.
Proof.
  induction filename as [|c rest IH]; intros camera_name groups;
    [discriminate|].
  cbn [re_match].
  destruct (bool_decide (c = line_feed)) eqn:Hc; [discriminate|].
  apply bool_decide_eq_false in Hc.
  destruct (re_match rest) as [[cam g]|] eqn:Hr.
  - intros [= <- <-]. destruct (IH _ _ eq_refl) as (_ & Hlf & t & -> & Ht).
    split; [discriminate|]. split; [constructor; assumption|].
    exists t. split; [reflexivity | exact Ht].
  - destruct (tail_match rest) as [g|] eqn:Ht; [|discriminate].
    intros [= <- <-]. split; [discriminate|].
    split; [constructor; [assumption | constructor]|].
    exists rest. split; [reflexivity | exact Ht].
Qed.

Lemma re_match_camera camera_name : forall t groups,
  camera_name <> "" ->
  Forall (fun c => c <> line_feed) (String.list_ascii_of_string camera_name) ->
  re_match t = None -> tail_match t = Some groups ->
  re_match (camera_name +:+ t) = Some (camera_name, groups).
Proof.
  induction camera_name as [|c cam IH]; intros t groups Hne Hlf Hnone Ht;
    [contradiction|].
  rewrite RangeFacts.append_cons. cbn [re_match].
  cbn [String.list_ascii_of_string] in Hlf.
  apply Forall_cons in Hlf as [Hc Hlf].
  rewrite (bool_decide_eq_false_2 _ Hc).
  destruct cam as [|c' cam].
  - rewrite RangeFacts.append_nil_l, Hnone, Ht. reflexivity.
  - rewrite (IH t groups); [reflexivity | discriminate | exact Hlf
                            | exact Hnone | exact Ht].
Qed.

Lemma length_append a b :
  String.length (a +:+ b) = (String.length a + String.length b)%nat.
Proof.
  induction a as [|c a IH]; [reflexivity|].
  rewrite RangeFacts.append_cons. simpl. rewrite IH. reflexivity.
Qed.

Lemma tail_match_length s groups :
  tail_match s = Some groups -> (22 <= String.length s)%nat.
Proof.
  destruct groups as [[sq ts] ext]. intros H.
  destruct (tail_match_inv _ _ _ _ H) as (Hsq & Hts & Hext & rest & ->).
  destruct (digits_inv _ _ _ _ Hsq) as (_ & Hl2 & _).
  destruct (digits_inv _ _ _ _ Hts) as (_ & Hl14 & _).
  rewrite !length_append, Hl2, Hl14.
  destruct Hext as [-> | ->]; simpl; lia.
Qed.

Lemma re_match_length filename camera_name groups :
  re_match filename = Some (camera_name, groups) ->
  (23 <= String.length filename)%nat.
Proof.
  intros H. destruct (re_match_inv _ _ _ H) as (Hne & _ & t & -> & Ht).
  apply tail_match_length in Ht. rewrite length_append.
  destruct camera_name; [contradiction | simpl; lia].
Qed.

Lemma re_match_short s : (String.length s < 23)%nat -> re_match s = None.
Proof.
  intros Hlen. destruct (re_match s) as [[cam g]|] eqn:E; [|reflexivity].
  apply re_match_length in E. lia.
Qed.

Lemma tail_match_short s : (String.length s < 22)%nat -> tail_match s = None.
Proof.
  intros Hlen. destruct (tail_match s) as [g|] eqn:E; [|reflexivity].
  apply tail_match_length in E. lia.
Qed.

Lemma re_match_step c rest :
  re_match rest = None -> tail_match rest = None ->
  re_match (String c rest) = None.
Proof.
  intros Hr Ht. cbn [re_match]. rewrite Hr, Ht.
  destruct (bool_decide (c = line_feed)); reflexivity.
Qed.

Lemma tail_match_head c r : c <> "_"%char -> tail_match (String c r) = None.
Proof.
  intros Hc. unfold tail_match. cbn [strip_prefix].
  rewrite bool_decide_eq_false_2 by (intros H; apply Hc; symmetry; exact H).
  reflexivity.
Qed.

Lemma tail_match_third a b c r :
  c <> "_"%char ->
  tail_match (String "_" (String a (String b (String c r)))) = None.
Proof.
  intros Hc. unfold tail_match. cbn [strip_prefix].
  rewrite (bool_decide_eq_true_2 _ eq_refl). cbn [mbind option_bind digits].
  destruct (is_digit a); [|reflexivity].
  destruct (is_digit b); [|reflexivity].
  cbn [mbind option_bind strip_prefix].
  rewrite bool_decide_eq_false_2 by (intros H; apply Hc; symmetry; exact H).
  reflexivity.
Qed.

Lemma digit_not_underscore c : is_digit c = true -> c <> "_"%char.
Proof. intros H ->. discriminate H. Qed.

Lemma digits_cons n s :
  digits (S n) s = Some (s, "") ->
  exists c s', s = String c s' /\ is_digit c = true
               /\ digits n s' = Some (s', "").
Proof.
  simpl. destruct s as [|c s]; [discriminate|].
  destruct (is_digit c) eqn:Hc; [|discriminate].
  destruct (digits n s) as [[ds tl]|] eqn:E; [|discriminate].
  intros [= -> ->]. exists c, s.
  split; [reflexivity|]. split; [exact Hc | exact E].
Qed.

Lemma digits_nil s : digits 0 s = Some (s, "") -> s = "".
Proof. simpl. intros [= H _]. symmetry. exact H. Qed.

(** After a complete name and fewer than 22 further characters, the
    pattern matches at no later place. *)
Lemma no_later_match sequence timestamp_str extension rest :
  digits 2 sequence = Some (sequence, "") ->
  digits 14 timestamp_str = Some (timestamp_str, "") ->
  extension = "jpg" \/ extension = "mp4" ->
  (String.length rest < 22)%nat ->
  re_match ("_" +:+ sequence +:+ "_" +:+ timestamp_str +:+ "."
                +:+ extension +:+ rest) = None.
Proof.
  intros Hsq Hts Hext Hlen.
  repeat (apply digits_cons in Hsq as (? & ? & -> & ? & Hsq)).
  apply digits_nil in Hsq. subst.
  repeat (apply digits_cons in Hts as (? & ? & -> & ? & Hts)).
  apply digits_nil in Hts. subst.
  assert (re_match rest = None) as Hrest by (apply re_match_short; lia).
  assert (tail_match rest = None) as Htail by (apply tail_match_short; lia).
  destruct Hext as [-> | ->];
    rewrite ?RangeFacts.append_cons, ?RangeFacts.append_nil_l;
    repeat (apply re_match_step;
            [| first [ exact Htail
                     | apply tail_match_head;
                       first [ discriminate
                             | apply digit_not_underscore; assumption ]
                     | apply tail_match_third;
                       apply digit_not_underscore; assumption ] ]);
    exact Hrest.
Qed.

Lemma strptime_range t d :
  strptime t = Some d ->
  1 <= year d /\ 1 <= month d <= 12 /\ 1 <= day d <= 31 /\
  0 <= hour d <= 23 /\ 0 <= minute d <= 59 /\ 0 <= second d <= 59.
Proof.
  unfold strptime.
  set (d0 := mkDatetime _ _ _ _ _ _).
  assert (0 <= hour d0 /\ 0 <= minute d0 /\ 0 <= second d0) as (Hh & Hm & Hs)
    by (repeat split; apply RangeFacts.int_from_nonneg; lia).
  destruct (_ && _) eqn:E; [|discriminate]. intros [= <-].
  repeat (apply andb_true_iff in E as [E ?]).
  assert (days_in_month (year d0) (month d0) <= 31) as Hdim.
  { unfold days_in_month.
    repeat (destruct (_ =? _) || destruct (is_leap _) || cbn [orb]); lia. }
  lia.
Qed.

(** X24: a name [parse_filename] accepts begins with a camera name of one
    character at least, an underscore, two digits, an underscore, fourteen
    digits, a dot and [jpg] or [mp4], so it has 23 characters at least; the
    record holds these parts, the base name is the name up to the dot, and
    the fourteen digits are a date of the calendar with a time of day.
    Nothing is asked of what follows the extension. *)
Theorem parsed_name filename p :
  parse_filename filename = Ok (Some p) ->
  (23 <= String.length filename)%nat /\
  camera_name p <> "" /\
  (extension p = "jpg" \/ extension p = "mp4") /\
  (exists timestamp_str rest,
     filename = base_name p +:+ "." +:+ extension p +:+ rest /\
     base_name p = camera_name p +:+ "_" +:+ sequence p +:+ "_"
                     +:+ timestamp_str /\
     digits 2 (sequence p) = Some (sequence p, "") /\
     digits 14 timestamp_str = Some (timestamp_str, "") /\
     strptime timestamp_str = Some (timestamp p)) /\
  1 <= year (timestamp p) /\ 1 <= month (timestamp p) <= 12 /\
  1 <= day (timestamp p) <= 31 /\ 0 <= hour (timestamp p) <= 23 /\
  0 <= minute (timestamp p) <= 59 /\ 0 <= second (timestamp p) <= 59.
Proof.
  unfold parse_filename.
  destruct (re_match filename) as [[cam [[sq ts] ext]]|] eqn:Hm;
    [|discriminate].
  destruct (strptime ts) as [d|] eqn:Hd; [|discriminate].
  intros [= <-]. cbn [camera_name sequence timestamp extension base_name].
  split; [exact (re_match_length _ _ _ Hm)|].
  destruct (re_match_inv _ _ _ Hm) as (Hne & _ & t & -> & Ht).
  destruct (tail_match_inv _ _ _ _ Ht) as (Hsq & Hts & Hext & rest & ->).
  split; [exact Hne|]. split; [exact Hext|].
  split; [|exact (strptime_range _ _ Hd)].
  exists ts, rest. split.
  - rewrite !RangeFacts.append_assoc. reflexivity.
  - repeat split; assumption.
Qed.

(** X25: the name of a recording is read back.  For a camera name of one
    character at least without a line feed, two digits, fourteen digits and
    the extension [jpg] or [mp4], followed by fewer than 22 further
    characters of any kind (none, or [.part]), [parse_filename] finds these
    parts and no others; whether it returns them is decided by the fourteen
    digits: a date of the calendar gives the record, any other value raises
    [ValueError]. *)
Theorem parse_filename_of_name camera_name sequence timestamp_str extension
    rest :
  camera_name <> "" ->
  Forall (fun c => c <> line_feed) (String.list_ascii_of_string camera_name) ->
  digits 2 sequence = Some (sequence, "") ->
  digits 14 timestamp_str = Some (timestamp_str, "") ->
  extension = "jpg" \/ extension = "mp4" ->
  (String.length rest < 22)%nat ->
  parse_filename (camera_name +:+ "_" +:+ sequence +:+ "_" +:+ timestamp_str
                    +:+ "." +:+ extension +:+ rest)
  = match strptime timestamp_str with
    | Some timestamp =>
        Ok (Some (mkParsed camera_name sequence timestamp extension
                    (camera_name +:+ "_" +:+ sequence +:+ "_"
                       +:+ timestamp_str)))
    | None => Raise ValueError
    end.
Proof.
  intros Hne Hlf Hsq Hts Hext Hlen. unfold parse_filename.
  rewrite (re_match_camera camera_name _ _ Hne Hlf
             (no_later_match _ _ _ _ Hsq Hts Hext Hlen)
             (tail_match_found _ _ _ rest Hsq Hts Hext)).
  reflexivity.
Qed.

Lemma parsed_name_witness :
  exists p,
    parse_filename "Driveway_00_20250905173157.mp4.part" = Ok (Some p) /\
    camera_name p <> "" /\
    (extension p = "jpg" \/ extension p = "mp4").
Proof.
  eexists. split; [reflexivity|].
  destruct (parsed_name "Driveway_00_20250905173157.mp4.part" _ eq_refl)
    as (_ & Hne & Hext & _).
  split; [exact Hne | exact Hext].
Defined.

Lemma parse_filename_of_name_witness :
  parse_filename "Driveway_00_20251305173157.jpg" = Raise ValueError.
Proof.
  apply (parse_filename_of_name "Driveway" "00" "20251305173157" "jpg" "");
    [ discriminate
    | repeat constructor; discriminate
    | reflexivity
    | reflexivity
    | left; reflexivity
    | simpl; lia ].
Defined.

End NameFacts.

(** ** The tree *)

Module TreeFacts.

Import Text Recordings.

Local Open Scope Z_scope.

(** *** Dictionaries *)

Lemma get_assign_eq {V : Type} (d : list (string * V)) k v :
  get (assign d k v) k = Some v.
Proof.
  induction d as [|[k' v'] d IH]; simpl.
  - rewrite (bool_decide_eq_true_2 _ eq_refl). reflexivity.
  - destruct (bool_decide (k' = k)) eqn:E; simpl.
    + rewrite (bool_decide_eq_true_2 _ eq_refl). reflexivity.
    + rewrite E. exact IH.
Qed.

Lemma get_assign_ne {V : Type} (d : list (string * V)) k k' v :
  k <> k' -> get (assign d k v) k' = get d k'.
Proof.
  intros Hne. induction d as [|[k0 v0] d IH]; simpl.
  - rewrite (bool_decide_eq_false_2 _ Hne). reflexivity.
  - destruct (bool_decide (k0 = k)) eqn:E; simpl.
    + apply bool_decide_eq_true in E. subst k0.
      rewrite !(bool_decide_eq_false_2 _ Hne). reflexivity.
    + destruct (bool_decide (k0 = k')); [reflexivity | exact IH].
Qed.

Lemma get_elem {V : Type} (d : list (string * V)) k v :
  get d k = Some v -> (k, v) ∈ d.
Proof.
  induction d as [|[k0 v0] d IH]; simpl; [discriminate|].
  destruct (bool_decide (k0 = k)) eqn:E.
  - apply bool_decide_eq_true in E. subst k0. intros [= ->]. left.
  - intros H. right. exact (IH H).
Qed.

Lemma elem_get {V : Type} (d : list (string * V)) k v :
  NoDup d.*1 -> (k, v) ∈ d -> get d k = Some v.
Proof.
  induction d as [|[k0 v0] d IH]; intros Hnd Hin.
  - apply elem_of_nil in Hin. contradiction.
  - rewrite fmap_cons in Hnd. cbn [fst] in Hnd. apply NoDup_cons in Hnd as [Hk0 Hnd].
    apply elem_of_cons in Hin as [[= -> ->]|Hin]; simpl.
    + rewrite (bool_decide_eq_true_2 _ eq_refl). reflexivity.
    + destruct (bool_decide (k0 = k)) eqn:E; [|exact (IH Hnd Hin)].
      apply bool_decide_eq_true in E. subst k0. exfalso. apply Hk0.
      apply (list_elem_of_fmap_2' fst _ (k, v)); [exact Hin | reflexivity].
Qed.

Lemma elem_assign {V : Type} (d : list (string * V)) k v k' v' :
  (k', v') ∈ assign d k v -> (k', v') = (k, v) \/ (k', v') ∈ d.
Proof.
  induction d as [|[k0 v0] d IH]; simpl.
  - intros H. apply list_elem_of_singleton in H. left. exact H.
  - destruct (bool_decide (k0 = k)).
    + intros H. apply elem_of_cons in H as [H|H]; [left; exact H|].
      right. right. exact H.
    + intros H. apply elem_of_cons in H as [H|H].
      * right. rewrite H. left.
      * destruct (IH H) as [Heq|Hin]; [left; exact Heq|].
        right. right. exact Hin.
Qed.

(** *** Loops *)

Lemma for_each_rel {S A : Type} (R : S -> S -> Prop)
    (body : S -> A -> result S) (l : list A) :
  (forall s, R s s) ->
  (forall a b c, R a b -> R b c -> R a c) ->
  (forall s a s', a ∈ l -> body s a = Ok s' -> R s s') ->
  forall s s', for_each body l s = Ok s' -> R s s'.
Proof.
  intros Hrefl Htrans. induction l as [|a l IH]; intros Hbody s s'.
  - intros [= <-]. apply Hrefl.
  - cbn [for_each mbind result_bind].
    destruct (body s a) as [s1|e] eqn:E; [|discriminate].
    intros H. apply (Htrans _ s1).
    + apply (Hbody s a s1); [left | exact E].
    + apply IH; [|exact H].
      intros s0 a0 s0' Hin. apply Hbody. right. exact Hin.
Qed.

(** A loop that returns has run the round of each element, in a state the
    relation of the rounds links to the first and to the last one. *)
Lemma for_each_mid {S A : Type} (R : S -> S -> Prop)
    (body : S -> A -> result S) (l : list A) :
  (forall s, R s s) ->
  (forall a b c, R a b -> R b c -> R a c) ->
  (forall s a s', a ∈ l -> body s a = Ok s' -> R s s') ->
  forall s s', for_each body l s = Ok s' ->
  forall a, a ∈ l ->
  exists s1 s2, R s s1 /\ body s1 a = Ok s2 /\ R s2 s'.
Proof.
  intros Hrefl Htrans. induction l as [|x l IH]; intros Hbody s s' H a Hin.
  - apply elem_of_nil in Hin. contradiction.
  - cbn [for_each mbind result_bind] in H.
    destruct (body s x) as [s1|e] eqn:E; [|discriminate].
    assert (forall s a s', a ∈ l -> body s a = Ok s' -> R s s') as Hbody'
      by (intros s0 a0 s0' Hin0; apply Hbody; right; exact Hin0).
    apply elem_of_cons in Hin as [->|Hin].
    + exists s, s1. split; [apply Hrefl|]. split; [exact E|].
      exact (for_each_rel R body l Hrefl Htrans Hbody' _ _ H).
    + destruct (IH Hbody' _ _ H _ Hin) as (s2 & s3 & H12 & Hb & H3).
      exists s2, s3. split; [|split; assumption].
      apply (Htrans _ s1); [|exact H12].
      apply (Hbody s x s1); [left | exact E].
Qed.

(** A loop over the entries of a directory that stores, under the name of
    each subdirectory, what [inner] makes of it. *)
Section Loop.

Context {V : Type}.
Variable inner : string -> list (string * node) -> tree -> result (tree * V).
Variable body : tree * list (string * V) -> string * node
                -> result (tree * list (string * V)).

Hypothesis body_eq : forall t acc k n,
  body (t, acc) (k, n)
  = match n with
    | Dir es => '(t', v) ← inner k es t; Ok (t', assign acc k v)
    | _ => Ok (t, acc)
    end.

Lemma loop_keep entries : forall t acc t' acc' k,
  for_each body entries (t, acc) = Ok (t', acc') ->
  k ∉ entries.*1 ->
  get acc' k = get acc k.
Proof.
  induction entries as [|[k0 n0] entries IH]; intros t acc t' acc' k.
  - intros [= <- <-] _. reflexivity.
  - cbn [for_each mbind result_bind]. rewrite body_eq, fmap_cons.
    cbn [fst]. intros H Hk. apply not_elem_of_cons in Hk as [Hne Hk].
    destruct n0 as [sz|es|].
    + exact (IH _ _ _ _ _ H Hk).
    + cbn [mbind result_bind] in H.
      destruct (inner k0 es t) as [[t1 v]|e]; [|discriminate].
      rewrite (IH _ _ _ _ _ H Hk). apply get_assign_ne.
      intros ->. apply Hne. reflexivity.
    + exact (IH _ _ _ _ _ H Hk).
Qed.

Lemma loop_get entries : forall t acc t' acc',
  for_each body entries (t, acc) = Ok (t', acc') ->
  NoDup entries.*1 ->
  forall k es, (k, Dir es) ∈ entries ->
  exists t1 t2 v, inner k es t1 = Ok (t2, v) /\ get acc' k = Some v.
Proof.
  induction entries as [|[k0 n0] entries IH]; intros t acc t' acc' H Hnd k es.
  - intros Hin. apply elem_of_nil in Hin. contradiction.
  - rewrite fmap_cons in Hnd. cbn [fst] in Hnd. apply NoDup_cons in Hnd as [Hk0 Hnd].
    cbn [for_each mbind result_bind] in H. rewrite body_eq in H.
    intros Hin. apply elem_of_cons in Hin as [[= <- <-]|Hin].
    + cbn [mbind result_bind] in H.
      destruct (inner k es t) as [[t1 v]|e] eqn:E; [|discriminate].
      exists t, t1, v. split; [exact E|].
      rewrite (loop_keep _ _ _ _ _ _ H Hk0). apply get_assign_eq.
    + destruct n0 as [sz|es0|].
      * exact (IH _ _ _ _ H Hnd _ _ Hin).
      * cbn [mbind result_bind] in H.
        destruct (inner k0 es0 t) as [[t1 v]|e]; [|discriminate].
        exact (IH _ _ _ _ H Hnd _ _ Hin).
      * exact (IH _ _ _ _ H Hnd _ _ Hin).
Qed.

End Loop.

(** *** The listing of a day *)

Lemma parse_filename_extension name p :
  parse_filename name = Ok (Some p) ->
  extension p = "jpg" \/ extension p = "mp4".
Proof.
  unfold parse_filename.
  destruct (re_match name) as [[cam [[sq ts] ext]]|] eqn:Hm; [|discriminate].
  destruct (strptime ts); [|discriminate]. intros [= <-].
  destruct (NameFacts.re_match_inv _ _ _ Hm) as (_ & _ & t & _ & Ht).
  destruct (NameFacts.tail_match_inv _ _ _ _ Ht) as (_ & _ & Hext & _).
  exact Hext.
Qed.

(** Every name kept in [files_by_base] is that of a file of the directory,
    parsed to the base name it is kept under and to the extension of its
    slot. *)
Lemma group_file_names fs : forall files_by_base,
  for_each group_file fs [] = Ok files_by_base ->
  forall b files name ext,
    (b, files) ∈ files_by_base ->
    (ext = "mp4" /\ mp4 files = Some name) \/
    (ext = "jpg" /\ jpg files = Some name) ->
    exists sz p,
      (name, File sz) ∈ fs /\ parse_filename name = Ok (Some p) /\
      base_name p = b /\ extension p = ext.
Proof.
  intros files_by_base Hloop.
  set (P := fun d : list (string * files) =>
       forall b files name ext,
          (b, files) ∈ d ->
          (ext = "mp4" /\ mp4 files = Some name) \/
          (ext = "jpg" /\ jpg files = Some name) ->
          exists sz p,
            (name, File sz) ∈ fs /\ parse_filename name = Ok (Some p) /\
            base_name p = b /\ extension p = ext).
  assert (forall d a d', a ∈ fs -> group_file d a = Ok d' -> P d -> P d')
    as Hstep; cycle 1.
  { refine (for_each_rel (fun d d' => P d -> P d') group_file fs
              (fun _ H => H) (fun _ _ _ H1 H2 H => H2 (H1 H)) Hstep
              _ _ Hloop _).
    intros b files name ext Hin. apply elem_of_nil in Hin. contradiction. }
  clear Hloop files_by_base. intros d [name0 n0] d' Hin0.
  destruct n0 as [sz0|es|]; cbn [group_file];
    [|intros [= <-] H; exact H|intros [= <-] H; exact H].
  destruct (parse_filename name0) as [[p0|]|e] eqn:Hp;
    cbn [mbind result_bind]; [|intros [= <-] H; exact H|discriminate].
    intros [= <-] Hinv b files name ext Hin Hslot.
    apply elem_assign in Hin as [[= -> ->]|Hin];
      [|exact (Hinv _ _ _ _ Hin Hslot)].
    assert (forall name ext,
              (ext = "mp4" /\
               mp4 (default (mkFiles None None) (get d (base_name p0)))
               = Some name) \/
              (ext = "jpg" /\
               jpg (default (mkFiles None None) (get d (base_name p0)))
               = Some name) ->
              exists sz p,
                (name, File sz) ∈ fs /\ parse_filename name = Ok (Some p) /\
                base_name p = base_name p0 /\ extension p = ext) as Hseen.
    { intros name' ext' Hslot'.
      destruct (get d (base_name p0)) as [seen|] eqn:Hg.
      - exact (Hinv _ _ _ _ (get_elem _ _ _ Hg) Hslot').
      - destruct Hslot' as [[_ H]|[_ H]]; discriminate H. }
    destruct (bool_decide (extension p0 = "jpg")) eqn:Hj.
    + apply bool_decide_eq_true in Hj.
      destruct Hslot as [[-> Hm]|[-> Hjpg]].
      * apply Hseen. left. split; [reflexivity | exact Hm].
      * cbn [jpg] in Hjpg. injection Hjpg as <-.
        exists sz0, p0. repeat split; assumption.
    + apply bool_decide_eq_false in Hj.
      destruct Hslot as [[-> Hm]|[-> Hjpg]].
      * cbn [mp4] in Hm. injection Hm as <-.
        exists sz0, p0. split; [exact Hin0|]. split; [exact Hp|].
        split; [reflexivity|].
        destruct (parse_filename_extension _ _ Hp); [contradiction|].
        assumption.
      * apply Hseen. right. split; [reflexivity | exact Hjpg].
Qed.

Lemma has_content_file entries name :
  has_content entries name = true ->
  exists sz, (name, File sz) ∈ entries /\ 0 < sz.
Proof.
  unfold has_content.
  destruct (get entries name) as [[sz|es|]|] eqn:Hg; try discriminate.
  intros H. exists sz. split; [exact (get_elem _ _ _ Hg) | lia].
Qed.

Lemma insert_sorted_elem e l x :
  x ∈ insert_sorted e l <-> x = e \/ x ∈ l.
Proof.
  induction l as [|y l IH]; cbn [insert_sorted].
  - rewrite list_elem_of_singleton, elem_of_nil. tauto.
  - destruct (String.leb _ _).
    + rewrite elem_of_cons. tauto.
    + rewrite !elem_of_cons, IH. tauto.
Qed.

Lemma sort_elem l x : x ∈ sort l <-> x ∈ l.
Proof.
  induction l as [|e l IH]; [reflexivity|].
  cbn [sort fold_right]. fold (sort l).
  rewrite insert_sorted_elem, elem_of_cons, IH. tauto.
Qed.

Lemma insert_sorted_adjacent e l :
  (forall i a b, l !! i = Some a -> l !! S i = Some b ->
     String.leb (entry_base_name a) (entry_base_name b) = true) ->
  forall i a b,
    insert_sorted e l !! i = Some a -> insert_sorted e l !! S i = Some b ->
    String.leb (entry_base_name a) (entry_base_name b) = true.
Proof.
  induction l as [|x l IH]; intros Hl i a b; cbn [insert_sorted].
  - destruct i; discriminate.
  - destruct (String.leb (entry_base_name e) (entry_base_name x)) eqn:Hex.
    + destruct i as [|i].
      * intros [= <-] [= <-]. exact Hex.
      * intros Ha Hb. exact (Hl i a b Ha Hb).
    + assert (String.leb (entry_base_name x) (entry_base_name e) = true)
        as Hxe.
      { destruct (String.leb_total (entry_base_name e) (entry_base_name x));
          [congruence | assumption]. }
      destruct i as [|i].
      * intros [= <-]. cbn [lookup list_lookup].
        destruct l as [|y l]; cbn [insert_sorted].
        -- intros [= <-]. exact Hxe.
        -- destruct (String.leb (entry_base_name e) (entry_base_name y)).
           ++ intros [= <-]. exact Hxe.
           ++ intros [= <-]. apply (Hl 0%nat); reflexivity.
      * intros Ha Hb. apply (IH (fun j => Hl (S j)) i); assumption.
Qed.

Lemma sort_adjacent l :
  forall i a b, sort l !! i = Some a -> sort l !! S i = Some b ->
    String.leb (entry_base_name a) (entry_base_name b) = true.
Proof.
  induction l as [|e l IH]; [intros i a b H; destruct i; discriminate H|].
  cbn [sort fold_right]. fold (sort l).
  apply insert_sorted_adjacent. exact IH.
Qed.

(** *** The scan *)

Lemma append_today_frame t e t' :
  append_today t e = Ok t' ->
  forall k, k <> "Today" -> get t' k = get t k.
Proof.
  unfold append_today.
  destruct (get t "Today") as [[l|y]|]; try discriminate.
  intros [= <-] k Hk. apply get_assign_ne. congruence.
Qed.

Lemma appends_frame l t t' :
  for_each append_today l t = Ok t' ->
  forall k, k <> "Today" -> get t' k = get t k.
Proof.
  apply (for_each_rel
           (fun t t' => forall k, k <> "Today" -> get t' k = get t k)).
  - reflexivity.
  - intros a b c Hab Hbc k Hk. rewrite (Hbc k Hk). exact (Hab k Hk).
  - intros s a s' _. apply append_today_frame.
Qed.

Section Scan.

Variable today : string * string * string.

Lemma scan_day_body camera_name year month t acc k n :
  scan_day today camera_name year month (t, acc) (k, n)
  = match n with
    | Dir es =>
        '(t', v) ←
          (files_by_base ← for_each group_file es [];
           t' ← (if bool_decide ((year, month, k) = today)
                 then for_each append_today
                        (omap (to_recording es
                                 (camera_name +:+ "/" +:+ year +:+ "/"
                                    +:+ month +:+ "/" +:+ k))
                              files_by_base) t
                 else Ok t);
           Ok (t', sort (omap (to_recording es
                                 (camera_name +:+ "/" +:+ year +:+ "/"
                                    +:+ month +:+ "/" +:+ k))
                              files_by_base)));
        Ok (t', assign acc k v)
    | _ => Ok (t, acc)
    end.
Proof.
  destruct n as [sz|es|]; [reflexivity| |reflexivity].
  cbn [scan_day mbind result_bind].
  destruct (for_each group_file es []) as [fbb|e]; [|reflexivity].
  cbn [mbind result_bind].
  destruct (bool_decide ((year, month, k) = today)); [|reflexivity].
  destruct (for_each append_today
              (omap (to_recording es
                       (camera_name +:+ "/" +:+ year +:+ "/" +:+ month
                          +:+ "/" +:+ k)) fbb) t);
    reflexivity.
Qed.

Lemma scan_month_body camera_name year t acc k n :
  scan_month today camera_name year (t, acc) (k, n)
  = match n with
    | Dir es =>
        '(t', v) ← for_each (scan_day today camera_name year k) es (t, []);
        Ok (t', assign acc k v)
    | _ => Ok (t, acc)
    end.
Proof. destruct n; reflexivity. Qed.

Lemma scan_year_body camera_name t acc k n :
  scan_year today camera_name (t, acc) (k, n)
  = match n with
    | Dir es =>
        '(t', v) ← for_each (scan_month today camera_name k) es (t, []);
        Ok (t', assign acc k v)
    | _ => Ok (t, acc)
    end.
Proof. destruct n; reflexivity. Qed.

(** A loop whose rounds keep a relation between the trees keeps it. *)
Lemma loop_rel {V : Type} (R : tree -> tree -> Prop)
    (body : tree * V -> string * node -> result (tree * V)) l :
  (forall t, R t t) ->
  (forall a b c, R a b -> R b c -> R a c) ->
  (forall s a s', a ∈ l -> body s a = Ok s' -> R s.1 s'.1) ->
  forall s s', for_each body l s = Ok s' -> R s.1 s'.1.
Proof.
  intros Hrefl Htrans Hbody.
  apply (for_each_rel (fun s s' : tree * V => R s.1 s'.1)).
  - intros s. apply Hrefl.
  - intros a b c. apply Htrans.
  - exact Hbody.
Qed.

(** The loops below the cameras change the tree under ["Today"] only. *)
Lemma scan_day_frame camera_name year month s day_dir s' :
  scan_day today camera_name year month s day_dir = Ok s' ->
  forall k, k <> "Today" -> get s'.1 k = get s.1 k.
Proof.
  destruct s as [t d], day_dir as [day n]. rewrite scan_day_body.
  destruct n as [sz|es|]; [intros [= <-]; reflexivity|
                           |intros [= <-]; reflexivity].
  cbn [mbind result_bind].
  destruct (for_each group_file es []) as [fbb|e]; [|discriminate].
  cbn [mbind result_bind].
  destruct (bool_decide ((year, month, day) = today)).
  - match goal with
    | |- context [for_each append_today ?l t] =>
        destruct (for_each append_today l t) as [t1|e] eqn:E
    end; [|discriminate].
    intros [= <-]. exact (appends_frame _ _ _ E).
  - intros [= <-]. reflexivity.
Qed.

Lemma frame_refl (t : tree) :
  forall k : string, k <> "Today" -> get t k = get t k.
Proof. reflexivity. Qed.

Lemma frame_trans (a b c : tree) :
  (forall k : string, k <> "Today" -> get b k = get a k) ->
  (forall k : string, k <> "Today" -> get c k = get b k) ->
  forall k : string, k <> "Today" -> get c k = get a k.
Proof. intros Hab Hbc k Hk. rewrite (Hbc k Hk). exact (Hab k Hk). Qed.

Lemma days_frame camera_name year month l s s' :
  for_each (scan_day today camera_name year month) l s = Ok s' ->
  forall k, k <> "Today" -> get s'.1 k = get s.1 k.
Proof.
  apply (loop_rel (fun t t' => forall k, k <> "Today" -> get t' k = get t k)
           _ l frame_refl frame_trans).
  intros s0 a s0' _. apply scan_day_frame.
Qed.

Lemma scan_month_frame camera_name year s month_dir s' :
  scan_month today camera_name year s month_dir = Ok s' ->
  forall k, k <> "Today" -> get s'.1 k = get s.1 k.
Proof.
  destruct s as [t m], month_dir as [month n]. rewrite scan_month_body.
  destruct n as [sz|es|]; [intros [= <-]; reflexivity|
                           |intros [= <-]; reflexivity].
  cbn [mbind result_bind].
  destruct (for_each (scan_day today camera_name year month) es (t, []))
    as [[t1 d]|e] eqn:E; [|discriminate].
  intros [= <-]. exact (days_frame _ _ _ _ _ _ E).
Qed.

Lemma months_frame camera_name year l s s' :
  for_each (scan_month today camera_name year) l s = Ok s' ->
  forall k, k <> "Today" -> get s'.1 k = get s.1 k.
Proof.
  apply (loop_rel (fun t t' => forall k, k <> "Today" -> get t' k = get t k)
           _ l frame_refl frame_trans).
  intros s0 a s0' _. apply scan_month_frame.
Qed.

Lemma scan_year_frame camera_name s year_dir s' :
  scan_year today camera_name s year_dir = Ok s' ->
  forall k, k <> "Today" -> get s'.1 k = get s.1 k.
Proof.
  destruct s as [t y], year_dir as [year n]. rewrite scan_year_body.
  destruct n as [sz|es|]; [intros [= <-]; reflexivity|
                           |intros [= <-]; reflexivity].
  cbn [mbind result_bind].
  destruct (for_each (scan_month today camera_name year) es (t, []))
    as [[t1 m]|e] eqn:E; [|discriminate].
  intros [= <-]. exact (months_frame _ _ _ _ _ E).
Qed.

Lemma years_frame camera_name l s s' :
  for_each (scan_year today camera_name) l s = Ok s' ->
  forall k, k <> "Today" -> get s'.1 k = get s.1 k.
Proof.
  apply (loop_rel (fun t t' => forall k, k <> "Today" -> get t' k = get t k)
           _ l frame_refl frame_trans).
  intros s0 a s0' _. apply scan_year_frame.
Qed.

Lemma scan_camera_frame t camera_dir t' :
  scan_camera today t camera_dir = Ok t' ->
  forall k, k <> "Today" -> k <> camera_dir.1 -> get t' k = get t k.
Proof.
  destruct camera_dir as [c n].
  destruct n as [sz|es|]; [intros [= <-]; reflexivity|
                           |intros [= <-]; reflexivity].
  cbn [scan_camera mbind result_bind fst].
  destruct (for_each (scan_year today c) es (assign t c (Camera []), []))
    as [[t1 y]|e] eqn:E; [|discriminate].
  intros [= <-] k Hk Hc.
  rewrite get_assign_ne by congruence.
  pose proof (years_frame _ _ _ _ E k Hk) as Hf. cbn [fst] in Hf.
  rewrite Hf. apply get_assign_ne. congruence.
Qed.

Lemma cameras_frame l : forall t t',
  for_each (scan_camera today) l t = Ok t' ->
  forall k, k <> "Today" -> k ∉ l.*1 -> get t' k = get t k.
Proof.
  induction l as [|a l IH]; intros t t'.
  - intros [= <-]. reflexivity.
  - cbn [for_each mbind result_bind].
    destruct (scan_camera today t a) as [t1|e] eqn:E; [|discriminate].
    intros H k Hk Hnot. rewrite fmap_cons in Hnot.
    apply not_elem_of_cons in Hnot as [Hne Hnot].
    rewrite (IH _ _ H k Hk Hnot).
    exact (scan_camera_frame _ _ _ E k Hk Hne).
Qed.

(** What the tree holds under the name of a camera directory. *)
Lemma cameras_get l : forall t t',
  for_each (scan_camera today) l t = Ok t' ->
  NoDup l.*1 ->
  forall c ys, (c, Dir ys) ∈ l -> c <> "Today" ->
  exists t1 t2 Y,
    for_each (scan_year today c) ys (t1, []) = Ok (t2, Y) /\
    get t' c = Some (Camera Y).
Proof.
  induction l as [|a l IH]; intros t t' H Hnd c ys Hin Hc.
  - apply elem_of_nil in Hin. contradiction.
  - rewrite fmap_cons in Hnd. apply NoDup_cons in Hnd as [Ha Hnd].
    cbn [for_each mbind result_bind] in H.
    destruct (scan_camera today t a) as [t1|e] eqn:E; [|discriminate].
    apply elem_of_cons in Hin as [<-|Hin]; [|exact (IH _ _ H Hnd _ _ Hin Hc)].
    cbn [scan_camera mbind result_bind] in E.
    destruct (for_each (scan_year today c) ys (assign t c (Camera []), []))
      as [[t2 Y]|e] eqn:Ey; [|discriminate].
    injection E as <-.
    exists (assign t c (Camera [])), t2, Y. split; [exact Ey|].
    rewrite (cameras_frame _ _ _ H c Hc Ha). apply get_assign_eq.
Qed.

(** The list the tree holds for a day directory is the sorted listing of
    that directory. *)
Lemma day_in_tree cameras t c ys y ms m ds d fs :
  get_file_tree today (Some (Dir cameras)) = Ok t ->
  c <> "Today" ->
  NoDup cameras.*1 -> NoDup ys.*1 -> NoDup ms.*1 -> NoDup ds.*1 ->
  (c, Dir ys) ∈ cameras -> (y, Dir ms) ∈ ys -> (m, Dir ds) ∈ ms ->
  (d, Dir fs) ∈ ds ->
  exists Y M D files_by_base,
    get t c = Some (Camera Y) /\ get Y y = Some M /\ get M m = Some D /\
    for_each group_file fs [] = Ok files_by_base /\
    get D d
    = Some (sort (omap (to_recording fs (c +:+ "/" +:+ y +:+ "/" +:+ m
                                           +:+ "/" +:+ d))
                       files_by_base)).
Proof.
  intros Ht Hc Hn1 Hn2 Hn3 Hn4 Hi1 Hi2 Hi3 Hi4.
  cbn [get_file_tree] in Ht.
  destruct (cameras_get _ _ _ Ht Hn1 _ _ Hi1 Hc) as (t1 & t2 & Y & Hy & HgY).
  destruct (loop_get _ _ (scan_year_body c) _ _ _ _ _ Hy Hn2 _ _ Hi2)
    as (t3 & t4 & M & Hm & HgM).
  destruct (loop_get _ _ (scan_month_body c y) _ _ _ _ _ Hm Hn3 _ _ Hi3)
    as (t5 & t6 & D & Hd & HgD).
  destruct (loop_get _ _ (scan_day_body c y m) _ _ _ _ _ Hd Hn4 _ _ Hi4)
    as (t7 & t8 & L & Hl & HgL).
  cbn [mbind result_bind] in Hl.
  destruct (for_each group_file fs []) as [fbb|e]; [|discriminate].
  cbn [mbind result_bind] in Hl.
  exists Y, M, D, fbb.
  split; [exact HgY|]. split; [exact HgM|]. split; [exact HgD|].
  split; [reflexivity|].
  destruct (bool_decide ((y, m, d) = today)).
  - match type of Hl with
    | context [for_each append_today ?l t7] =>
        destruct (for_each append_today l t7)
    end; [|discriminate].
    injection Hl as _ <-. exact HgL.
  - injection Hl as _ <-. exact HgL.
Qed.

Lemma to_recording_inv fs path_ b files e :
  to_recording fs path_ (b, files) = Some e ->
  entry_base_name e = b /\ path e = path_ /\
  mp4 files = Some (video e) /\ has_content fs (video e) = true /\
  (forall image, thumbnail e = Some image ->
     jpg files = Some image /\ has_content fs image = true).
Proof.
  cbn [to_recording].
  destruct (mp4 files) as [v|]; [|discriminate].
  destruct (has_content fs v) eqn:Hv; [|discriminate].
  intros [= <-]. cbn [entry_base_name path video thumbnail].
  repeat split; try assumption.
  - destruct (jpg files) as [j|]; [|discriminate H].
    destruct (has_content fs j); [|discriminate H].
    injection H as ->. reflexivity.
  - destruct (jpg files) as [j|]; [|discriminate H].
    destruct (has_content fs j) eqn:Hj; [|discriminate H].
    injection H as <-. exact Hj.
Qed.

(** The video kept for a base name is the one file of the directory with
    that base name and the extension [mp4], when there is one only. *)
Lemma group_file_keeps b v fs : forall acc files_by_base,
  for_each group_file fs acc = Ok files_by_base ->
  (forall name sz p,
     (name, File sz) ∈ fs -> parse_filename name = Ok (Some p) ->
     base_name p = b -> extension p = "mp4" -> name = v) ->
  (exists files, get acc b = Some files /\ mp4 files = Some v) \/
  (exists sz p, (v, File sz) ∈ fs /\ parse_filename v = Ok (Some p) /\
                base_name p = b /\ extension p = "mp4") ->
  exists files, get files_by_base b = Some files /\ mp4 files = Some v.
Proof.
  induction fs as [|[name n] fs IH]; intros acc fbb Hloop Huniq Hstart.
  - injection Hloop as <-.
    destruct Hstart as [H|(sz & p & Hin & _)]; [exact H|].
    apply elem_of_nil in Hin. contradiction.
  - cbn [for_each] in Hloop.
    destruct (group_file acc (name, n)) as [acc1|e] eqn:Hstep;
      [|discriminate].
    cbn [mbind result_bind] in Hloop.
    apply (IH _ _ Hloop).
    { intros name' sz' p' Hin. apply (Huniq name' sz' p'). right.
      exact Hin. }
    (* the round of the head *)
    assert ((exists files, get acc b = Some files /\ mp4 files = Some v) ->
            exists files, get acc1 b = Some files /\ mp4 files = Some v)
      as Hkeep.
    { intros (files & Hg & Hm).
      destruct n as [sz0|es|]; cbn [group_file] in Hstep;
        [|injection Hstep as <-; exists files; split; assumption
         |injection Hstep as <-; exists files; split; assumption].
      destruct (parse_filename name) as [[p0|]|e] eqn:Hp;
        cbn [mbind result_bind] in Hstep;
        [|injection Hstep as <-; exists files; split; assumption
         |discriminate].
      injection Hstep as <-.
      destruct (decide (base_name p0 = b)) as [Hb|Hb].
      - rewrite Hb, Hg. cbn [default]. rewrite get_assign_eq.
        eexists. split; [reflexivity|].
        destruct (bool_decide (extension p0 = "jpg")) eqn:Hj;
          [exact Hm|].
        apply bool_decide_eq_false in Hj. cbn [mp4]. f_equal.
        apply (Huniq name sz0 p0); [left | exact Hp | exact Hb|].
        destruct (parse_filename_extension _ _ Hp); [contradiction|].
        assumption.
      - rewrite get_assign_ne by exact Hb. exists files.
        split; assumption. }
    destruct Hstart as [H|(sz & p & Hin & Hp & Hb & Hext)];
      [left; exact (Hkeep H)|].
    apply elem_of_cons in Hin as [[= <- <-]|Hin];
      [|right; exists sz, p; repeat split; assumption].
    left. cbn [group_file] in Hstep. rewrite Hp in Hstep.
    cbn [mbind result_bind] in Hstep. injection Hstep as <-.
    rewrite Hb, get_assign_eq. eexists. split; [reflexivity|].
    rewrite bool_decide_eq_false_2 by (rewrite Hext; discriminate).
    reflexivity.
Qed.

(** X26: for a day directory reached through a camera, a year and a month
    directory (the names within each directory distinct, the camera not
    named [Today]), the tree that [get_file_tree] returns holds, under these
    four names, a list in the order of the base names; every recording of
    the list has the path of the four names, a video that is a file of the
    directory with more than zero bytes whose name parses to the base name
    of the recording with the extension [mp4], and a thumbnail, if it has
    one, that is such a file with the extension [jpg]. *)
Theorem day_listed cameras t c ys y ms m ds d fs :
  get_file_tree today (Some (Dir cameras)) = Ok t ->
  c <> "Today" ->
  NoDup cameras.*1 -> NoDup ys.*1 -> NoDup ms.*1 -> NoDup ds.*1 ->
  (c, Dir ys) ∈ cameras -> (y, Dir ms) ∈ ys -> (m, Dir ds) ∈ ms ->
  (d, Dir fs) ∈ ds ->
  exists Y M D L,
    get t c = Some (Camera Y) /\ get Y y = Some M /\ get M m = Some D /\
    get D d = Some L /\
    (forall i a b, L !! i = Some a -> L !! S i = Some b ->
       String.leb (entry_base_name a) (entry_base_name b) = true) /\
    (forall e, e ∈ L ->
       path e = c +:+ "/" +:+ y +:+ "/" +:+ m +:+ "/" +:+ d /\
       (exists sz p,
          (video e, File sz) ∈ fs /\ 0 < sz /\
          parse_filename (video e) = Ok (Some p) /\
          base_name p = entry_base_name e /\ extension p = "mp4") /\
       (forall image, thumbnail e = Some image ->
          exists sz p,
            (image, File sz) ∈ fs /\ 0 < sz /\
            parse_filename image = Ok (Some p) /\
            base_name p = entry_base_name e /\ extension p = "jpg")).
Proof.
  intros Ht Hc Hn1 Hn2 Hn3 Hn4 Hi1 Hi2 Hi3 Hi4.
  destruct (day_in_tree _ _ _ _ _ _ _ _ _ _ Ht Hc Hn1 Hn2 Hn3 Hn4
              Hi1 Hi2 Hi3 Hi4)
    as (Y & M & D & fbb & HgY & HgM & HgD & Hgroup & HgL).
  exists Y, M, D. eexists.
  split; [exact HgY|]. split; [exact HgM|]. split; [exact HgD|].
  split; [exact HgL|]. split; [apply sort_adjacent|].
  intros e He. apply (proj1 (sort_elem _ _)) in He.
  apply (proj1 (list_elem_of_omap _ _ _)) in He as ([b files] & Hin & Hrec).
  destruct (to_recording_inv _ _ _ _ _ Hrec)
    as (Hb & Hpath & Hmp4 & Hcontent & Hthumb).
  split; [exact Hpath|]. split.
  - destruct (has_content_file _ _ Hcontent) as (sz & Hfile & Hpos).
    destruct (group_file_names _ _ Hgroup b files (video e) "mp4" Hin)
      as (_ & p & _ & Hp & Hbase & Hext); [left; split; [reflexivity|]|].
    + exact Hmp4.
    + exists sz, p. rewrite Hb. repeat split; assumption.
  - intros image Himage. destruct (Hthumb _ Himage) as [Hjpg Hcj].
    destruct (has_content_file _ _ Hcj) as (sz & Hfile & Hpos).
    destruct (group_file_names _ _ Hgroup b files image "jpg" Hin)
      as (_ & p & _ & Hp & Hbase & Hext); [right; split; [reflexivity|]|].
    + exact Hjpg.
    + exists sz, p. rewrite Hb. repeat split; assumption.
Qed.

(** X27: a video with more than zero bytes is listed.  In a day directory
    (the names within each directory distinct, the camera not named
    [Today]), a file whose name parses with the extension [mp4], the only
    one of the directory with its base name and that extension, is the video
    of a recording of the list the tree holds for the day, under its base
    name. *)
Theorem recording_listed cameras t c ys y ms m ds d fs name sz p :
  get_file_tree today (Some (Dir cameras)) = Ok t ->
  c <> "Today" ->
  NoDup cameras.*1 -> NoDup ys.*1 -> NoDup ms.*1 -> NoDup ds.*1 ->
  NoDup fs.*1 ->
  (c, Dir ys) ∈ cameras -> (y, Dir ms) ∈ ys -> (m, Dir ds) ∈ ms ->
  (d, Dir fs) ∈ ds ->
  (name, File sz) ∈ fs -> 0 < sz ->
  parse_filename name = Ok (Some p) -> extension p = "mp4" ->
  (forall name' sz' p',
     (name', File sz') ∈ fs -> parse_filename name' = Ok (Some p') ->
     base_name p' = base_name p -> extension p' = "mp4" -> name' = name) ->
  exists Y M D L e,
    get t c = Some (Camera Y) /\ get Y y = Some M /\ get M m = Some D /\
    get D d = Some L /\ e ∈ L /\
    entry_base_name e = base_name p /\ video e = name /\
    path e = c +:+ "/" +:+ y +:+ "/" +:+ m +:+ "/" +:+ d.
Proof.
  intros Ht Hc Hn1 Hn2 Hn3 Hn4 Hn5 Hi1 Hi2 Hi3 Hi4 Hfile Hpos Hp Hext Huniq.
  destruct (day_in_tree _ _ _ _ _ _ _ _ _ _ Ht Hc Hn1 Hn2 Hn3 Hn4
              Hi1 Hi2 Hi3 Hi4)
    as (Y & M & D & fbb & HgY & HgM & HgD & Hgroup & HgL).
  destruct (group_file_keeps (base_name p) name fs [] fbb Hgroup Huniq)
    as (files & Hg & Hm).
  { right. exists sz, p. repeat split; assumption. }
  assert (has_content fs name = true) as Hcontent.
  { unfold has_content. rewrite (elem_get _ _ _ Hn5 Hfile).
    apply Z.ltb_lt. exact Hpos. }
  assert (exists e,
            to_recording fs (c +:+ "/" +:+ y +:+ "/" +:+ m +:+ "/" +:+ d)
                         (base_name p, files) = Some e /\
            entry_base_name e = base_name p /\ video e = name /\
            path e = c +:+ "/" +:+ y +:+ "/" +:+ m +:+ "/" +:+ d)
    as (e & Hrec & Hb & Hv & Hpath).
  { cbn [to_recording]. rewrite Hm, Hcontent. eexists.
    split; [reflexivity|]. repeat split. }
  exists Y, M, D. eexists. exists e.
  split; [exact HgY|]. split; [exact HgM|]. split; [exact HgD|].
  split; [exact HgL|].
  split; [|repeat split; assumption].
  apply sort_elem, list_elem_of_omap. exists (base_name p, files).
  split; [exact (get_elem _ _ _ Hg) | exact Hrec].
Qed.

Lemma always (A : Type) : forall s : A, True.
Proof. intros _. exact I. Qed.

(** X28: one file whose name has the form of a recording with fourteen
    digits that are no date of the calendar, in any day directory of any
    camera, makes [get_file_tree] raise: no tree is returned. *)
Theorem bad_date_breaks_tree cameras c ys y ms m ds d fs name sz :
  (c, Dir ys) ∈ cameras -> (y, Dir ms) ∈ ys -> (m, Dir ds) ∈ ms ->
  (d, Dir fs) ∈ ds -> (name, File sz) ∈ fs ->
  parse_filename name = Raise ValueError ->
  exists e, get_file_tree today (Some (Dir cameras)) = Raise e.
Proof.
  intros Hi1 Hi2 Hi3 Hi4 Hi5 Hbad.
  destruct (get_file_tree today (Some (Dir cameras))) as [t|e] eqn:Ht;
    [exfalso | exists e; reflexivity].
  cbn [get_file_tree] in Ht.
  destruct (for_each_mid (fun _ _ => True) _ _ (always _)
              (fun _ _ _ _ _ => I) (fun _ _ _ _ _ => I) _ _ Ht _ Hi1)
    as (t1 & t2 & _ & Hc & _).
  cbn [scan_camera mbind result_bind] in Hc.
  destruct (for_each (scan_year today c) ys (assign t1 c (Camera []), []))
    as [[t3 Y]|e] eqn:Hy; [|discriminate].
  destruct (for_each_mid (fun _ _ => True) _ _ (always _)
              (fun _ _ _ _ _ => I) (fun _ _ _ _ _ => I) _ _ Hy _ Hi2)
    as ([t4 a4] & s5 & _ & Hyr & _).
  rewrite scan_year_body in Hyr. cbn [mbind result_bind] in Hyr.
  destruct (for_each (scan_month today c y) ms (t4, []))
    as [[t6 M]|e] eqn:Hm; [|discriminate].
  destruct (for_each_mid (fun _ _ => True) _ _ (always _)
              (fun _ _ _ _ _ => I) (fun _ _ _ _ _ => I) _ _ Hm _ Hi3)
    as ([t7 a7] & s8 & _ & Hmo & _).
  rewrite scan_month_body in Hmo. cbn [mbind result_bind] in Hmo.
  destruct (for_each (scan_day today c y m) ds (t7, []))
    as [[t9 D]|e] eqn:Hd; [|discriminate].
  destruct (for_each_mid (fun _ _ => True) _ _ (always _)
              (fun _ _ _ _ _ => I) (fun _ _ _ _ _ => I) _ _ Hd _ Hi4)
    as ([t10 a10] & s11 & _ & Hday & _).
  rewrite scan_day_body in Hday. cbn [mbind result_bind] in Hday.
  destruct (for_each group_file fs []) as [fbb|e] eqn:Hg; [|discriminate].
  destruct (for_each_mid (fun _ _ => True) _ _ (always _)
              (fun _ _ _ _ _ => I) (fun _ _ _ _ _ => I) _ _ Hg _ Hi5)
    as (acc1 & acc2 & _ & Hfile & _).
  cbn [group_file] in Hfile. rewrite Hbad in Hfile. discriminate Hfile.
Qed.

(** *** The key ["Today"] *)

(** A relation between trees that the body of the loop over the days keeps
    is kept by the loops over the months and the years. *)
Section Lift.

Variable R : tree -> tree -> Prop.
Hypothesis R_refl : forall t, R t t.
Hypothesis R_trans : forall a b c, R a b -> R b c -> R a c.
Hypothesis R_day : forall c y m s day_dir s',
  scan_day today c y m s day_dir = Ok s' -> R s.1 s'.1.

Lemma lift_month c y s month_dir s' :
  scan_month today c y s month_dir = Ok s' -> R s.1 s'.1.
Proof.
  destruct s as [t acc], month_dir as [k n]. rewrite scan_month_body.
  destruct n as [sz|es|]; [intros [= <-]; apply R_refl|
                           |intros [= <-]; apply R_refl].
  cbn [mbind result_bind].
  destruct (for_each (scan_day today c y k) es (t, []))
    as [[t1 d]|e] eqn:E; [|discriminate].
  intros [= <-].
  apply (loop_rel R _ es R_refl R_trans) in E; [exact E|].
  intros s0 a s0' _. apply R_day.
Qed.

Lemma lift_year c s year_dir s' :
  scan_year today c s year_dir = Ok s' -> R s.1 s'.1.
Proof.
  destruct s as [t acc], year_dir as [k n]. rewrite scan_year_body.
  destruct n as [sz|es|]; [intros [= <-]; apply R_refl|
                           |intros [= <-]; apply R_refl].
  cbn [mbind result_bind].
  destruct (for_each (scan_month today c k) es (t, []))
    as [[t1 d]|e] eqn:E; [|discriminate].
  intros [= <-].
  apply (loop_rel R _ es R_refl R_trans) in E; [exact E|].
  intros s0 a s0' _. apply lift_month.
Qed.

Lemma lift_years c l s s' :
  for_each (scan_year today c) l s = Ok s' -> R s.1 s'.1.
Proof.
  apply (loop_rel R _ l R_refl R_trans).
  intros s0 a s0' _. apply lift_year.
Qed.

Hypothesis R_assign : forall t c v, c <> "Today" -> R t (assign t c v).

Lemma lift_camera t camera_dir t' :
  camera_dir.1 <> "Today" ->
  scan_camera today t camera_dir = Ok t' -> R t t'.
Proof.
  destruct camera_dir as [c n]. cbn [fst]. intros Hc.
  destruct n as [sz|es|]; [intros [= <-]; apply R_refl|
                           |intros [= <-]; apply R_refl].
  cbn [scan_camera mbind result_bind].
  destruct (for_each (scan_year today c) es (assign t c (Camera []), []))
    as [[t1 y]|e] eqn:E; [|discriminate].
  intros [= <-]. apply lift_years in E. cbn [fst] in E.
  apply (R_trans _ (assign t c (Camera []))); [apply R_assign; exact Hc|].
  apply (R_trans _ t1); [exact E | apply R_assign; exact Hc].
Qed.

End Lift.

Lemma appends_exact l : forall t t' L,
  get t "Today" = Some (Recordings L) ->
  for_each append_today l t = Ok t' ->
  get t' "Today" = Some (Recordings (L ++ l)).
Proof.
  induction l as [|e l IH]; intros t t' L Hg.
  - intros [= <-]. rewrite app_nil_r. exact Hg.
  - intros H. cbn [for_each] in H.
    assert (append_today t e
            = Ok (assign t "Today" (Recordings (L ++ [e])))) as E
      by (unfold append_today; rewrite Hg; reflexivity).
    rewrite E in H. cbn [mbind result_bind] in H.
    rewrite (IH _ _ (L ++ [e]) (get_assign_eq _ _ _) H), <- app_assoc.
    reflexivity.
Qed.

Lemma appends_need_list l t t' :
  for_each append_today l t = Ok t' ->
  l = [] \/ exists L, get t "Today" = Some (Recordings L).
Proof.
  destruct l as [|e l]; [left; reflexivity|]. intros H. right. cbn [for_each] in H.
  destruct (append_today t e) as [t1|x] eqn:E; [|discriminate H].
  unfold append_today in E.
  destruct (get t "Today") as [[L|y]|]; try discriminate E.
  exists L. reflexivity.
Qed.

(** What a day directory does to the tree: nothing, or the recordings of a
    day of today's date are appended under ["Today"]. *)
Lemma scan_day_effect c y m t acc day_dir t' acc' :
  scan_day today c y m (t, acc) day_dir = Ok (t', acc') ->
  t' = t \/
  exists L es files_by_base,
    day_dir.2 = Dir es /\ (y, m, day_dir.1) = today /\
    for_each group_file es [] = Ok files_by_base /\
    get t "Today" = Some (Recordings L) /\
    get t' "Today"
    = Some (Recordings
              (L ++ omap (to_recording es (c +:+ "/" +:+ y +:+ "/" +:+ m
                                             +:+ "/" +:+ day_dir.1))
                         files_by_base)) /\
    (forall k, k <> "Today" -> get t' k = get t k).
Proof.
  destruct day_dir as [k n]. rewrite scan_day_body.
  destruct n as [sz|es|]; [intros [= <- _]; left; reflexivity|
                           |intros [= <- _]; left; reflexivity].
  cbn [mbind result_bind fst snd].
  destruct (for_each group_file es []) as [fbb|e] eqn:Hg; [|discriminate].
  cbn [mbind result_bind].
  destruct (bool_decide ((y, m, k) = today)) eqn:Hd;
    [|intros [= <- _]; left; reflexivity].
  apply bool_decide_eq_true in Hd.
  match goal with
  | |- context [for_each append_today ?l t] =>
      destruct (for_each append_today l t) as [t1|e] eqn:E
  end; [|discriminate].
  cbn [mbind result_bind]. intros [= <- _].
  destruct (appends_need_list _ _ _ E) as [Hnil|[L HL]].
  - left. rewrite Hnil in E. injection E as <-. reflexivity.
  - right. exists L, es, fbb.
    split; [reflexivity|]. split; [exact Hd|]. split; [exact Hg|].
    split; [exact HL|]. split; [exact (appends_exact _ _ _ _ HL E)|].
    exact (appends_frame _ _ _ E).
Qed.

(** The list under ["Today"] only grows. *)
Lemma grows_refl (t : tree) :
  forall L, get t "Today" = Some (Recordings L) ->
  exists L', get t "Today" = Some (Recordings L') /\
             forall e, e ∈ L -> e ∈ L'.
Proof. intros L H. exists L. split; [exact H | tauto]. Qed.

Lemma grows_trans (a b c : tree) :
  (forall L, get a "Today" = Some (Recordings L) ->
     exists L', get b "Today" = Some (Recordings L') /\
                forall e, e ∈ L -> e ∈ L') ->
  (forall L, get b "Today" = Some (Recordings L) ->
     exists L', get c "Today" = Some (Recordings L') /\
                forall e, e ∈ L -> e ∈ L') ->
  forall L, get a "Today" = Some (Recordings L) ->
  exists L', get c "Today" = Some (Recordings L') /\
             forall e, e ∈ L -> e ∈ L'.
Proof.
  intros Hab Hbc L HL. destruct (Hab L HL) as (L1 & H1 & Hsub1).
  destruct (Hbc L1 H1) as (L2 & H2 & Hsub2).
  exists L2. split; [exact H2|]. intros e He. apply Hsub2, Hsub1, He.
Qed.

Lemma grows_day c y m s day_dir s' :
  scan_day today c y m s day_dir = Ok s' ->
  forall L, get s.1 "Today" = Some (Recordings L) ->
  exists L', get s'.1 "Today" = Some (Recordings L') /\
             forall e, e ∈ L -> e ∈ L'.
Proof.
  destruct s as [t acc], s' as [t' acc']. intros H L HL. cbn [fst] in *.
  destruct (scan_day_effect _ _ _ _ _ _ _ _ H)
    as [->|(L0 & es & fbb & _ & _ & _ & HL0 & HL' & _)].
  - exists L. split; [exact HL | tauto].
  - rewrite HL in HL0. injection HL0 as <-.
    eexists. split; [exact HL'|]. intros e He.
    apply elem_of_app. left. exact He.
Qed.

Lemma grows_assign (t : tree) c v :
  c <> "Today" ->
  forall L, get t "Today" = Some (Recordings L) ->
  exists L', get (assign t c v) "Today" = Some (Recordings L') /\
             forall e, e ∈ L -> e ∈ L'.
Proof.
  intros Hc L HL. exists L. split; [|tauto].
  rewrite get_assign_ne by exact Hc. exact HL.
Qed.

(** Every recording under ["Today"] has a path that ends in today's
    date. *)
Lemma dated_day c y m s day_dir s' :
  scan_day today c y m s day_dir = Ok s' ->
  (forall L, get s.1 "Today" = Some (Recordings L) ->
     forall e, e ∈ L ->
     exists c', path e = c' +:+ "/" +:+ today.1.1 +:+ "/" +:+ today.1.2
                            +:+ "/" +:+ today.2) ->
  forall L, get s'.1 "Today" = Some (Recordings L) ->
    forall e, e ∈ L ->
    exists c', path e = c' +:+ "/" +:+ today.1.1 +:+ "/" +:+ today.1.2
                           +:+ "/" +:+ today.2.
Proof.
  destruct s as [t acc], s' as [t' acc']. intros H Hold L HL e He.
  cbn [fst] in *.
  destruct (scan_day_effect _ _ _ _ _ _ _ _ H)
    as [->|(L0 & es & fbb & _ & Hd & _ & HL0 & HL' & _)].
  - exact (Hold L HL e He).
  - rewrite HL in HL'. injection HL' as ->.
    apply elem_of_app in He as [He|He]; [exact (Hold L0 HL0 e He)|].
    apply (proj1 (list_elem_of_omap _ _ _)) in He as ([b files] & _ & Hrec).
    destruct (to_recording_inv _ _ _ _ _ Hrec) as (_ & Hpath & _).
    exists c. rewrite Hpath, <- Hd. reflexivity.
Qed.

Lemma camera_not_today (cameras : list (string * node)) a :
  "Today" ∉ cameras.*1 -> a ∈ cameras -> a.1 <> "Today".
Proof.
  intros Hno Hin Heq. apply Hno. rewrite <- Heq.
  apply list_elem_of_fmap_2. exact Hin.
Qed.

Lemma grows_cameras cameras :
  "Today" ∉ cameras.*1 ->
  forall s a s', a ∈ cameras -> scan_camera today s a = Ok s' ->
  forall L, get s "Today" = Some (Recordings L) ->
  exists L', get s' "Today" = Some (Recordings L') /\
             forall e, e ∈ L -> e ∈ L'.
Proof.
  intros Hno s a s' Hin.
  apply (lift_camera _ grows_refl grows_trans grows_day grows_assign).
  exact (camera_not_today _ _ Hno Hin).
Qed.

(** The recordings of a day directory of today's date are under
    ["Today"]. *)
Lemma today_holds_day cameras t c ys ms ds fs files_by_base :
  get_file_tree today (Some (Dir cameras)) = Ok t ->
  "Today" ∉ cameras.*1 ->
  (c, Dir ys) ∈ cameras -> (today.1.1, Dir ms) ∈ ys ->
  (today.1.2, Dir ds) ∈ ms -> (today.2, Dir fs) ∈ ds ->
  for_each group_file fs [] = Ok files_by_base ->
  exists L,
    get t "Today" = Some (Recordings L) /\
    forall e,
      e ∈ omap (to_recording fs (c +:+ "/" +:+ today.1.1 +:+ "/"
                                   +:+ today.1.2 +:+ "/" +:+ today.2))
               files_by_base ->
      e ∈ L.
Proof.
  intros Ht Hno Hi1 Hi2 Hi3 Hi4 Hg. cbn [get_file_tree] in Ht.
  pose proof (camera_not_today _ _ Hno Hi1) as Hc. cbn [fst] in Hc.
  set (M := fun a b : tree =>
         forall L, get a "Today" = Some (Recordings L) ->
         exists L', get b "Today" = Some (Recordings L') /\
                    forall e, e ∈ L -> e ∈ L').
  assert (forall c0 y0 m0 (s : tree * days) a s',
            scan_day today c0 y0 m0 s a = Ok s' -> M s.1 s'.1) as Mday
    by (intros c0 y0 m0 s a s' H; exact (grows_day c0 y0 m0 s a s' H)).
  destruct (for_each_mid M _ _ grows_refl grows_trans
              (grows_cameras cameras Hno) _ _ Ht _ Hi1)
    as (t1 & t2 & M01 & Hcam & M2t).
  cbn [scan_camera mbind result_bind] in Hcam.
  destruct (for_each (scan_year today c) ys (assign t1 c (Camera []), []))
    as [[tb Y]|e] eqn:Hy; [|discriminate].
  injection Hcam as <-.
  destruct (for_each_mid (fun s s' : tree * years => M s.1 s'.1) _ _
              (fun s => grows_refl s.1)
              (fun a b c => grows_trans a.1 b.1 c.1)
              (fun s a s' _ => lift_year M grows_refl grows_trans Mday
                                 c s a s')
              _ _ Hy _ Hi2)
    as ([t4 a4] & s5 & Ma4 & Hyr & M5b).
  rewrite scan_year_body in Hyr. cbn [mbind result_bind] in Hyr.
  destruct (for_each (scan_month today c today.1.1) ms (t4, []))
    as [[t6 Mo]|e] eqn:Hm; [|discriminate].
  injection Hyr as <-.
  destruct (for_each_mid (fun s s' : tree * months => M s.1 s'.1) _ _
              (fun s => grows_refl s.1)
              (fun a b c => grows_trans a.1 b.1 c.1)
              (fun s a s' _ => lift_month M grows_refl grows_trans Mday
                                 c today.1.1 s a s')
              _ _ Hm _ Hi3)
    as ([t7 a7] & s8 & M47 & Hmo & M86).
  rewrite scan_month_body in Hmo. cbn [mbind result_bind] in Hmo.
  destruct (for_each (scan_day today c today.1.1 today.1.2) ds (t7, []))
    as [[t9 D]|e] eqn:Hd; [|discriminate].
  injection Hmo as <-.
  destruct (for_each_mid (fun s s' : tree * days => M s.1 s'.1) _ _
              (fun s => grows_refl s.1)
              (fun a b c => grows_trans a.1 b.1 c.1)
              (fun s a s' _ => Mday c today.1.1 today.1.2 s a s')
              _ _ Hd _ Hi4)
    as ([t10 a10] & [t11 a11] & M710 & Hday & M119).
  rewrite scan_day_body in Hday. rewrite Hg in Hday.
  cbn [mbind result_bind] in Hday.
  rewrite bool_decide_eq_true_2 in Hday by (destruct today as [[? ?] ?];
                                            reflexivity).
  match type of Hday with
  | context [for_each append_today ?l t10] =>
      destruct (for_each append_today l t10) as [t12|e] eqn:Happ
  end; [|discriminate].
  cbn [mbind result_bind] in Hday. injection Hday as <- _.
  cbn [fst] in *.
  (* down: the list is there when the day is reached *)
  destruct (M01 [] eq_refl) as (L1 & HL1 & _).
  assert (get (assign t1 c (Camera [])) "Today" = Some (Recordings L1))
    as HLa by (rewrite get_assign_ne by exact Hc; exact HL1).
  destruct (Ma4 _ HLa) as (L4 & HL4 & _).
  destruct (M47 _ HL4) as (L7 & HL7 & _).
  destruct (M710 _ HL7) as (L10 & HL10 & _).
  pose proof (appends_exact _ _ _ _ HL10 Happ) as HL12.
  (* up: what is appended stays *)
  destruct (M119 _ HL12) as (L9 & HL9 & S9).
  destruct (M86 _ HL9) as (L6 & HL6 & S6).
  destruct (M5b _ HL6) as (Lb & HLb & Sb).
  assert (get (assign tb c (Camera Y)) "Today" = Some (Recordings Lb))
    as HL2 by (rewrite get_assign_ne by exact Hc; exact HLb).
  destruct (M2t _ HL2) as (L & HL & St).
  exists L. split; [exact HL|].
  intros e He. apply St, Sb, S6, S9, elem_of_app. right. exact He.
Qed.

(** X29: with no entry of the recordings directory named [Today], the tree
    holds a list under ["Today"]; every recording of the list has a path
    that ends in the year, month and day of today; and the list holds every
    recording that the tree lists for a day directory of today's date, of
    whatever camera (the names within each directory distinct). *)
Theorem today_bucket cameras t :
  get_file_tree today (Some (Dir cameras)) = Ok t ->
  "Today" ∉ cameras.*1 ->
  exists L,
    get t "Today" = Some (Recordings L) /\
    (forall e, e ∈ L ->
       exists c, path e = c +:+ "/" +:+ today.1.1 +:+ "/" +:+ today.1.2
                            +:+ "/" +:+ today.2) /\
    (forall c ys ms ds fs Y M D Lday,
       NoDup cameras.*1 -> NoDup ys.*1 -> NoDup ms.*1 -> NoDup ds.*1 ->
       (c, Dir ys) ∈ cameras -> (today.1.1, Dir ms) ∈ ys ->
       (today.1.2, Dir ds) ∈ ms -> (today.2, Dir fs) ∈ ds ->
       get t c = Some (Camera Y) -> get Y today.1.1 = Some M ->
       get M today.1.2 = Some D -> get D today.2 = Some Lday ->
       forall e, e ∈ Lday -> e ∈ L).
Proof.
  intros Ht Hno.
  assert (exists L, get t "Today" = Some (Recordings L)) as [L HL].
  { pose proof Ht as Ht'. cbn [get_file_tree] in Ht'.
    pose proof (for_each_rel
                  (fun a b : tree =>
                     forall L, get a "Today" = Some (Recordings L) ->
                     exists L', get b "Today" = Some (Recordings L') /\
                                forall e, e ∈ L -> e ∈ L')
                  _ _ grows_refl grows_trans
                  (grows_cameras cameras Hno) _ _ Ht') as Hgrow.
    destruct (Hgrow [] eq_refl) as (L & HL & _). exists L. exact HL. }
  exists L. split; [exact HL|]. split.
  - pose proof Ht as Ht'. cbn [get_file_tree] in Ht'.
    set (Q := fun a b : tree =>
           (forall L, get a "Today" = Some (Recordings L) ->
              forall e, e ∈ L ->
              exists c, path e = c +:+ "/" +:+ today.1.1 +:+ "/"
                                   +:+ today.1.2 +:+ "/" +:+ today.2) ->
           (forall L, get b "Today" = Some (Recordings L) ->
              forall e, e ∈ L ->
              exists c, path e = c +:+ "/" +:+ today.1.1 +:+ "/"
                                   +:+ today.1.2 +:+ "/" +:+ today.2)).
    assert (forall t0 : tree, Q t0 t0) as Qrefl by (intros t0 H; exact H).
    assert (forall a b c : tree, Q a b -> Q b c -> Q a c) as Qtrans
      by (intros a b c H1 H2 H; exact (H2 (H1 H))).
    assert (forall c y m (s : tree * days) a s',
              scan_day today c y m s a = Ok s' -> Q s.1 s'.1) as Qday
      by (intros c y m s a s' H; exact (dated_day c y m s a s' H)).
    assert (forall (t0 : tree) c (v : value),
              c <> "Today" -> Q t0 (assign t0 c v)) as Qassign.
    { intros t0 c0 v Hc0 Hold L0 HL0.
      rewrite get_assign_ne in HL0 by exact Hc0. exact (Hold L0 HL0). }
    assert (forall s a s', a ∈ cameras -> scan_camera today s a = Ok s' ->
              Q s s') as Qcam.
    { intros s a s' Hin.
      exact (lift_camera Q Qrefl Qtrans Qday Qassign s a s'
               (camera_not_today _ _ Hno Hin)). }
    refine (for_each_rel Q _ _ Qrefl Qtrans Qcam _ _ Ht' _ L HL).
    intros L0 H0 e He. injection H0 as <-.
    apply elem_of_nil in He. contradiction.
  - intros c ys ms ds fs Y M D Lday Hn1 Hn2 Hn3 Hn4 Hi1 Hi2 Hi3 Hi4
           HgY HgM HgD HgL e He.
    pose proof (camera_not_today _ _ Hno Hi1) as Hc. cbn [fst] in Hc.
    destruct (day_in_tree _ _ _ _ _ _ _ _ _ _ Ht Hc Hn1 Hn2 Hn3 Hn4
                Hi1 Hi2 Hi3 Hi4)
      as (Y' & M' & D' & fbb & HgY' & HgM' & HgD' & Hgroup & HgL').
    rewrite HgY in HgY'. injection HgY' as <-.
    rewrite HgM in HgM'. injection HgM' as <-.
    rewrite HgD in HgD'. injection HgD' as <-.
    rewrite HgL in HgL'. injection HgL' as ->.
    apply (proj1 (sort_elem _ _)) in He.
    destruct (today_holds_day _ _ _ _ _ _ _ _ Ht Hno Hi1 Hi2 Hi3 Hi4 Hgroup)
      as (L' & HL' & Hsub).
    rewrite HL in HL'. injection HL' as <-. exact (Hsub e He).
Qed.

(** X30: a camera directory named [Today] takes the key of the list: in
    the tree that [get_file_tree] returns, ["Today"] then holds the
    dictionary of a camera and the list of today's recordings is gone. *)
Theorem today_camera_takes_key cameras ys t :
  ("Today", Dir ys) ∈ cameras ->
  get_file_tree today (Some (Dir cameras)) = Ok t ->
  exists Y, get t "Today" = Some (Camera Y).
Proof.
  intros Hin Ht. cbn [get_file_tree] in Ht.
  set (C := fun a b : tree =>
         (exists Y, get a "Today" = Some (Camera Y)) ->
         exists Y, get b "Today" = Some (Camera Y)).
  assert (forall c y m (s : tree * days) a s',
            scan_day today c y m s a = Ok s' -> C s.1 s'.1) as Cday.
  { intros c y m [t0 acc] a [t1 acc1] H [Y HY]. cbn [fst] in *.
    destruct (scan_day_effect _ _ _ _ _ _ _ _ H)
      as [->|(L0 & _ & _ & _ & _ & _ & HL0 & _)].
    - exists Y. exact HY.
    - rewrite HY in HL0. discriminate HL0. }
  assert (forall t0 : tree, C t0 t0) as Crefl by (intros t0 H; exact H).
  assert (forall a b c : tree, C a b -> C b c -> C a c) as Ctrans
    by (intros a b c H1 H2 H; exact (H2 (H1 H))).
  assert (forall (t0 : tree) c (v : value),
            c <> "Today" -> C t0 (assign t0 c v)) as Cassign.
  { intros t0 c v Hc [Y HY]. exists Y.
    rewrite get_assign_ne by exact Hc. exact HY. }
  assert (forall s a s', a ∈ cameras -> scan_camera today s a = Ok s' ->
            C s s') as Ccam.
  { intros s [c n] s' _ H.
    destruct (decide (c = "Today")) as [->|Hc];
      [|exact (lift_camera C Crefl Ctrans Cday Cassign s (c, n) s' Hc H)].
    destruct n as [sz|es|]; [injection H as <-; apply Crefl|
                             |injection H as <-; apply Crefl].
    cbn [scan_camera mbind result_bind] in H.
    destruct (for_each (scan_year today "Today") es
                (assign s "Today" (Camera []), []))
      as [[t1 Y]|e]; [|discriminate].
    injection H as <-. intros _. exists Y. apply get_assign_eq. }
  destruct (for_each_mid C _ _ Crefl Ctrans Ccam _ _ Ht _ Hin)
    as (t1 & t2 & _ & Hcam & C2t).
  apply C2t.
  cbn [scan_camera mbind result_bind] in Hcam.
  destruct (for_each (scan_year today "Today") ys
              (assign t1 "Today" (Camera []), []))
    as [[t3 Y]|e]; [|discriminate].
  injection Hcam as <-. exists Y. apply get_assign_eq.
Qed.

End Scan.

Lemma day_listed_witness :
  exists t Y M D L,
    get_file_tree sample_today (Some (Dir sample_cameras)) = Ok t /\
    get t "Driveway" = Some (Camera Y) /\ get Y "2025" = Some M /\
    get M "09" = Some D /\ get D "05" = Some L.
Proof.
  destruct (get_file_tree sample_today (Some (Dir sample_cameras)))
    as [t|e] eqn:Ht; [|vm_compute in Ht; discriminate Ht].
  destruct (day_listed sample_today sample_cameras t
              "Driveway" sample_years "2025" sample_months
              "09" sample_days "05" sample_day Ht)
    as (Y & M & D & L & H1 & H2 & H3 & H4 & _);
    try apply NoDup_singleton; try (left; fail); [discriminate|].
  exists t, Y, M, D, L. repeat split; assumption.
Defined.

Lemma recording_listed_witness :
  exists t Y M D L e,
    get_file_tree sample_today (Some (Dir sample_cameras)) = Ok t /\
    get t "Driveway" = Some (Camera Y) /\ get Y "2025" = Some M /\
    get M "09" = Some D /\ get D "05" = Some L /\ e ∈ L /\
    video e = "Driveway_00_20250905120000.mp4".
Proof.
  destruct (get_file_tree sample_today (Some (Dir sample_cameras)))
    as [t|e] eqn:Ht; [|vm_compute in Ht; discriminate Ht].
  destruct (recording_listed sample_today sample_cameras t
              "Driveway" sample_years "2025" sample_months
              "09" sample_days "05" sample_day
              "Driveway_00_20250905120000.mp4" 524288
              (mkParsed "Driveway" "00" (mkDatetime 2025 9 5 12 0 0) "mp4"
                        "Driveway_00_20250905120000") Ht)
    as (Y & M & D & L & e & H1 & H2 & H3 & H4 & H5 & _ & H7 & _);
    try apply NoDup_singleton; try (left; fail);
    try reflexivity; try discriminate.
  - apply (bool_decide_unpack _). vm_compute. exact I.
  - right. right. left.
  - intros name' sz' p' Hin Hp Hb _.
    repeat (apply elem_of_cons in Hin as [Hin|Hin]);
      try (apply elem_of_nil in Hin; contradiction);
      injection Hin as -> _; vm_compute in Hp; injection Hp as <-;
      first [reflexivity | discriminate Hb].
  - exists t, Y, M, D, L, e. repeat split; assumption.
Defined.

Lemma bad_date_breaks_tree_witness :
  exists e,
    get_file_tree sample_today (Some (Dir broken_cameras)) = Raise e.
Proof.
  apply (bad_date_breaks_tree sample_today broken_cameras
           "Driveway" [("2025", Dir [("09", Dir [("05", Dir broken_day)])])]
           "2025" [("09", Dir [("05", Dir broken_day)])]
           "09" [("05", Dir broken_day)] "05" broken_day
           "Driveway_00_20251305173157.jpg" 1);
    try (left; fail); [|reflexivity].
  do 4 right. left.
Defined.

Lemma today_bucket_witness :
  exists t L,
    get_file_tree sample_today (Some (Dir sample_cameras)) = Ok t /\
    get t "Today" = Some (Recordings L).
Proof.
  destruct (get_file_tree sample_today (Some (Dir sample_cameras)))
    as [t|e] eqn:Ht; [|vm_compute in Ht; discriminate Ht].
  destruct (today_bucket sample_today sample_cameras t Ht)
    as (L & HL & _).
  - intros H. apply list_elem_of_singleton in H. discriminate H.
  - exists t, L. split; [reflexivity | exact HL].
Defined.

Lemma today_camera_takes_key_witness :
  exists t Y,
    get_file_tree sample_today (Some (Dir today_cameras)) = Ok t /\
    get t "Today" = Some (Camera Y).
Proof.
  destruct (get_file_tree sample_today (Some (Dir today_cameras)))
    as [t|e] eqn:Ht.
  - destruct (today_camera_takes_key sample_today today_cameras last_year
                t (list_elem_of_here _ _) Ht) as [Y HY].
    exists t, Y. split; [reflexivity | exact HY].
  - vm_compute in Ht. discriminate Ht.
Defined.

End TreeFacts.
